(** * words_token.py: a shallow embedding and its verified properties

    The development follows [words_token.py]: the line parser, the
    tokenizer, the n-gram generator, the frequency counters, the issue
    classifier, the analysis loop and the JSON exporter.

    Python values are modelled as follows.
    - [str] is [string]; the operations whose result depends on the
      Unicode tables ([lower], [isalpha], [strip]) and the external NLP
      and date routines are the fields of the class [Capabilities].
    - [int] is [Z].
    - A [dict] (and its subclass [Counter]) is an association list in
      insertion order: Python dicts iterate in insertion order and
      [most_common] depends on it.
    - An iterator is its remaining items; [zip] is the list of the
      iterators it holds.
    - A call that may raise returns an [outcome]. The external routines
      are total functions: the program has no handler for their
      failures, which end the run.
    - The file system of the export is explicit state: what the run
      knows of it. What the state does not settle is for the operating
      system to say, and its answers are given to the run.

    The definitions come first, the properties after them. *)

From stdpp Require Import base numbers list sorting strings pretty gmap.
From Stdlib Require Import Strings.Ascii.

Local Open Scope Z_scope.

(** ** Iterators and [zip] *)

Module PyIter.
Section zip.
Context {A : Type}.

(** A list iterator is the list of the items it has not yielded yet. A
    [zip] object holds one iterator per argument. *)
Definition zip_obj : Type := list (list A).

(** One round over the iterators of a [zip], left to right: every
    iterator is advanced until one is found exhausted; the iterators
    before it have lost an item by then. *)
Fixpoint advance (its : list (list A)) : option (list A) * list (list A) :=
  match its with
  | [] => (Some [], [])
  | it :: rest =>
      match it with
      | [] => (None, it :: rest)
      | x :: it' =>
          match advance rest with
          | (Some xs, rest') => (Some (x :: xs), it' :: rest')
          | (None, rest') => (None, it' :: rest')
          end
      end
  end.

(** [next(z)]: [None] stands for [StopIteration]. A [zip] of no
    iterators yields nothing. *)
Definition zip_next (z : zip_obj) : option (list A) * zip_obj :=
  match z with
  | [] => (None, [])
  | _ => advance z
  end.

(** Calling [next] until [StopIteration], at most [fuel] + 1 times. *)
Fixpoint consume (fuel : nat) (z : zip_obj) : list (list A) * zip_obj :=
  match zip_next z with
  | (None, z') => ([], z')
  | (Some t, z') =>
      match fuel with
      | O => ([t], z')
      | S fuel' => let '(ts, z'') := consume fuel' z' in (t :: ts, z'')
      end
  end.

(** A full iteration ([for t in z], [list(z)], [Counter.update(z)]): every
    successful [next] shortens the first iterator, which bounds the
    number of rounds. *)
Definition iterate (z : zip_obj) : list (list A) * zip_obj :=
  consume (length (hd [] z)) z.

End zip.
End PyIter.

Import PyIter.

(** ** [generate_ngrams] *)

(** [range(n)] for an [int] [n]: empty when [n <= 0]. *)
Definition range (n : Z) : list nat := seq 0 (Z.to_nat n).

(** The slices [words[i:]] for [i] in [range(n)] are fresh lists; they
    are unpacked as the arguments of [zip], which takes an iterator on
    each of them. *)
Definition generate_ngrams {A} (words : list A) (n : Z) : zip_obj :=
  (λ i, drop i words) <$> range n.

(** ** Exceptions and results *)

(** The exceptions the program can meet: the [OSError] subclasses of
    [open], [os.makedirs] and of a failing write. *)
Inductive PyExc : Type :=
  | FileNotFoundError
  | PermissionError
  | IsADirectoryError
  | NotADirectoryError
  | FileExistsError
  | OSError.

Global Instance PyExc_eq_dec : EqDecision PyExc.
Proof. solve_decision. Defined.

(** A call either returns a value or raises. *)
Inductive outcome (A : Type) : Type :=
  | Returned (a : A)
  | Raised (e : PyExc).
Global Arguments Returned {A} a.
Global Arguments Raised {A} e.

(** ** Strings *)

Module PyStr.

(** [needle in hay] *)
Fixpoint contains (needle hay : string) : bool :=
  String.prefix needle hay ||
  match hay with
  | EmptyString => false
  | String _ hay' => contains needle hay'
  end.

Fixpoint drop_chars (n : nat) (s : string) : string :=
  match n, s with
  | S n', String _ s' => drop_chars n' s'
  | _, _ => s
  end.

Fixpoint take_chars (n : nat) (s : string) : string :=
  match n, s with
  | S n', String c s' => String c (take_chars n' s')
  | _, _ => EmptyString
  end.

(** The text before and after the first occurrence of [sep]. *)
Fixpoint partition (sep s : string) : option (string * string) :=
  if String.prefix sep s then Some (EmptyString, drop_chars (String.length sep) s)
  else match s with
       | EmptyString => None
       | String c s' =>
           match partition sep s' with
           | Some (before, after) => Some (String c before, after)
           | None => None
           end
       end.

(** [s.split(sep, 1)] *)
Definition split1 (sep s : string) : list string :=
  match partition sep s with
  | Some (before, after) => [before; after]
  | None => [s]
  end.

(** [sep.join(parts)] *)
Fixpoint join (sep : string) (parts : list string) : string :=
  match parts with
  | [] => EmptyString
  | [x] => x
  | x :: rest => x +:+ sep +:+ join sep rest
  end.

End PyStr.

(** ** Dictionaries and counters *)

(** A dict in insertion order. *)
Abbreviation dict K V := (list (K * V)) (only parsing).

(** [Counter]: a dict of [int] counts. *)
Abbreviation Counter K := (list (K * Z)) (only parsing).

Module PyDict.
Section ops.
Context {K : Type} `{EqDecision K}.

Definition keys {V} (d : dict K V) : list K := d.*1.

(** [d.get(k)] *)
Fixpoint lookup {V} (k : K) (d : dict K V) : option V :=
  match d with
  | [] => None
  | (k', v) :: d' => if decide (k = k') then Some v else lookup k d'
  end.

(** [d[k] = v]: an existing key keeps its place, a new key goes last. *)
Fixpoint set {V} (k : K) (v : V) (d : dict K V) : dict K V :=
  match d with
  | [] => [(k, v)]
  | (k', v') :: d' =>
      if decide (k = k') then (k', v) :: d' else (k', v') :: set k v d'
  end.

(** [dict(pairs)], [dict(mapping)] and a dict comprehension: the items
    are stored one after the other. *)
Definition of_items {V} (items : list (K * V)) : dict K V :=
  fold_left (λ d kv, set kv.1 kv.2 d) items [].

(** [c[k]]: a missing key counts zero. *)
Definition count (c : Counter K) (k : K) : Z := default 0 (lookup k c).

(** [c.update(iterable)]: one more for every element met. *)
Definition update (c : Counter K) (elems : list K) : Counter K :=
  fold_left (λ c k, set k (count c k + 1) c) elems c.

(** [c.update(mapping)]: the counts of the mapping are added. *)
Definition update_mapping (c : Counter K) (m : dict K Z) : Counter K :=
  fold_left (λ c kv, set kv.1 (kv.2 + count c kv.1) c) m c.

(** Insertion into a list already in descending count order; the new
    item goes before the items whose count is not greater. *)
Fixpoint insert_desc (x : K * Z) (l : list (K * Z)) : list (K * Z) :=
  match l with
  | [] => [x]
  | y :: l' => if decide (y.2 ≤ x.2) then x :: y :: l' else y :: insert_desc x l'
  end.

(** [sorted(c.items(), key=itemgetter(1), reverse=True)]: Python's sort is
    stable, also with [reverse=True]; items of equal count keep their
    order. *)
Definition sorted_desc (c : Counter K) : list (K * Z) :=
  foldr insert_desc [] c.

(** [c.most_common(n)] for an [int] [n]: [heapq.nlargest(n, ...)], which
    is [sorted(..., reverse=True)[:n]] and empty for [n <= 0]. *)
Definition most_common (c : Counter K) (n : Z) : list (K * Z) :=
  take (Z.to_nat n) (sorted_desc c).

End ops.
End PyDict.

(** [l[:n]]: a negative [n] counts from the end. *)
Definition slice_to {A} (l : list A) (n : Z) : list A :=
  if decide (0 ≤ n) then take (Z.to_nat n) l
  else take (Z.to_nat (Z.of_nat (length l) + n)) l.

(** ** The file system seen by the export *)

Module PyOs.

(** What is known of the file system, and what was printed: names of
    directories, and names of regular files with their text. A name
    stands for itself only: that two names lead to one file is not
    known to the state. *)
Record world : Type := World {
  dirs : gset string;
  files : gmap string string;
  stdout : list string;
}.

(** The answers of the operating system during one run, where the state
    settles nothing: the error of [os.makedirs] (a missing permission, a
    read-only file system), the error of [open] (a missing directory, a
    missing permission), and the number of characters the device takes
    before a write fails. *)
Record faults : Type := Faults {
  mkdir_fault : option PyExc;
  open_fault : option PyExc;
  write_limit : option nat;
}.

Definition no_faults : faults := Faults None None None.

(** A command on the world that may raise. *)
Definition io (A : Type) : Type := world → world * outcome A.

Definition ret {A} (a : A) : io A := λ w, (w, Returned a).

Definition raise {A} (e : PyExc) : io A := λ w, (w, Raised e).

Definition bind {A B} (m : io A) (k : A → io B) : io B :=
  λ w, match m w with
       | (w', Returned a) => k a w'
       | (w', Raised e) => (w', Raised e)
       end.

Definition print (msg : string) : io () :=
  λ w, (World (dirs w) (files w) (stdout w ++ [msg]), Returned ()).

(** [p[:p.rfind('/') + 1]]: a character is kept when a slash follows or
    is at its place. *)
Fixpoint upto_last_slash (p : string) : string :=
  match p with
  | EmptyString => EmptyString
  | String c p' =>
      if PyStr.contains "/" p then String c (upto_last_slash p') else EmptyString
  end.

(** [s.rstrip('/')] *)
Fixpoint rstrip_slash (s : string) : string :=
  match s with
  | EmptyString => EmptyString
  | String c s' =>
      let r := rstrip_slash s' in
      if decide (c = "/"%char ∧ r = EmptyString) then EmptyString else String c r
  end.

(** [os.path.dirname] of [posixpath]: a head made of slashes only is
    kept as it is. *)
Definition dirname (p : string) : string :=
  let head := upto_last_slash p in
  if decide (rstrip_slash head = EmptyString) then head else rstrip_slash head.

(** [p.endswith('/')] *)
Fixpoint ends_with_slash (p : string) : bool :=
  match p with
  | EmptyString => false
  | String c EmptyString => bool_decide (c = "/"%char)
  | String _ p' => ends_with_slash p'
  end.

(** The heads [os.makedirs] goes through, from [name] up: the head of
    [posixpath.split], which is [dirname], as long as it is not empty
    and still gets shorter. *)
Fixpoint heads (fuel : nat) (name : string) : list string :=
  match fuel with
  | O => []
  | S fuel' =>
      let head := dirname name in
      if decide (head = EmptyString ∨ head = name) then [] else head :: heads fuel' head
  end.

Definition ancestors (name : string) : list string :=
  heads (String.length name) name.

(** One of [names] is known as a regular file. *)
Definition some_file (w : world) (names : list string) : Prop :=
  Exists (λ name, is_Some (files w !! name)) names.

Global Instance some_file_dec w names : Decision (some_file w names).
Proof. unfold some_file. apply _. Defined.

(** [os.makedirs(name, exist_ok=True)]. [mkdir] refuses the empty name
    with [ENOENT]. A name that is known as a regular file, the slashes
    at its end left aside, is refused with [EEXIST], which [exist_ok]
    lets through for directories only; a name under a regular file is
    refused with [ENOTDIR]. When the call returns, the name and the heads
    it went through are directories. *)
Definition makedirs (f : faults) (name : string) : io () :=
  λ w,
    let target := rstrip_slash name in
    if decide (name = EmptyString) then (w, Raised FileNotFoundError)
    else if decide (is_Some (files w !! target)) then (w, Raised FileExistsError)
    else if decide (some_file w (ancestors target)) then (w, Raised NotADirectoryError)
    else match mkdir_fault f with
         | Some e => (w, Raised e)
         | None =>
             (World (list_to_set (name :: ancestors name) ∪ dirs w) (files w) (stdout w),
              Returned ())
         end.

(** [open(path, 'w')]: the file is created, or emptied when it exists.
    The empty path is refused with [ENOENT], a path under a regular file
    with [ENOTDIR], and the name of a directory with [EISDIR]; so is,
    when the directories above it let the call through, a path that ends
    with a slash. *)
Definition open_w (f : faults) (path : string) : io () :=
  λ w,
    if decide (path = EmptyString) then (w, Raised FileNotFoundError)
    else if decide (some_file w (ancestors (rstrip_slash path)))
    then (w, Raised NotADirectoryError)
    else if decide (path ∈ dirs w) then (w, Raised IsADirectoryError)
    else match open_fault f with
         | Some e => (w, Raised e)
         | None =>
             if ends_with_slash path then (w, Raised IsADirectoryError)
             else (World (dirs w) (<[path := EmptyString]> (files w)) (stdout w),
                   Returned ())
         end.

(** Writing [text] to the open file and closing it: when the device
    fails, the characters it took stay in the file. *)
Definition write_text (f : faults) (path text : string) : io () :=
  λ w,
    match write_limit f with
    | Some n =>
        if decide (n < String.length text)%nat
        then (World (dirs w) (<[path := PyStr.take_chars n text]> (files w)) (stdout w),
              Raised OSError)
        else (World (dirs w) (<[path := text]> (files w)) (stdout w), Returned ())
    | None => (World (dirs w) (<[path := text]> (files w)) (stdout w), Returned ())
    end.

End PyOs.

Global Instance io_ret : MRet PyOs.io := @PyOs.ret.
Global Instance io_bind : MBind PyOs.io := λ A B k m, PyOs.bind m k.

(** ** [json.dump] with [indent=4] and [ensure_ascii=False] *)

Module PyJson.

Definition quote : string := String (ascii_of_nat 34) EmptyString.

Definition hex_digit (n : nat) : ascii :=
  ascii_of_nat (if decide (n < 10)%nat then 48 + n else 87 + n).

(** The escapes of [json.encoder.ESCAPE_DCT]. *)
Definition escape_char (c : ascii) : string :=
  let n := nat_of_ascii c in
  if decide (n = 34%nat) then "\" +:+ quote
  else if decide (n = 92%nat) then "\\"
  else if decide (n = 8%nat) then "\b"
  else if decide (n = 12%nat) then "\f"
  else if decide (n = 10%nat) then "\n"
  else if decide (n = 13%nat) then "\r"
  else if decide (n = 9%nat) then "\t"
  else if decide (n < 32)%nat
       then "\u00" +:+ String (hex_digit (n / 16)) (String (hex_digit (n mod 16)) EmptyString)
  else String c EmptyString.

Fixpoint escape (s : string) : string :=
  match s with
  | EmptyString => EmptyString
  | String c s' => escape_char c +:+ escape s'
  end.

Definition str (s : string) : string := quote +:+ escape s +:+ quote.

Definition int (n : Z) : string := pretty n.

Fixpoint spaces (n : nat) : string :=
  match n with
  | O => EmptyString
  | S n' => String " " (spaces n')
  end.

(** A line break followed by the indentation of nesting depth [level]. *)
Definition newline_indent (level : nat) : string :=
  String (ascii_of_nat 10) (spaces (4 * level)).

(** A container at depth [level], its items already encoded. *)
Definition container (opening closing : string) (level : nat) (items : list string) : string :=
  match items with
  | [] => opening +:+ closing
  | _ =>
      opening +:+ newline_indent (S level)
      +:+ PyStr.join ("," +:+ newline_indent (S level)) items
      +:+ newline_indent level +:+ closing
  end.

Definition array : nat → list string → string := container "[" "]".

Definition object (level : nat) (members : list (string * string)) : string :=
  container "{" "}" level ((λ kv, str kv.1 +:+ ": " +:+ kv.2) <$> members).

Definition counts (level : nat) (d : dict string Z) : string :=
  object level ((λ kv, (kv.1, int kv.2)) <$> d).

End PyJson.

(** ** External capabilities *)

(** What the program imports: [datetime], the NLTK tokenizer, stop words
    and sentiment analyzer, and the [str] methods that depend on the
    Unicode tables. *)
Class Capabilities : Type := {
  datetime : Type;
  (** a Python [float] *)
  score : Type;
  (** [datetime.datetime.strptime(s, "%Y-%m-%d %H:%M:%S")]; [None] stands
      for [ValueError] *)
  strptime : string → option datetime;
  isoformat : datetime → string;
  str_lower : string → string;
  str_isalpha : string → bool;
  str_strip : string → string;
  word_tokenize : string → list string;
  (** [stopwords.words('english')] *)
  stopwords_english : list string;
  (** [SentimentIntensityAnalyzer().polarity_scores(text)['compound']] *)
  polarity_compound : string → score;
  (** [repr] of a float, as [json] writes it *)
  float_repr : score → string;
}.

(** ** The pipeline *)

Section pipeline.
Context `{Capabilities}.

(** [parse_line]: both the failed unpacking of [split] and the failed
    [strptime] raise [ValueError], caught by the same handler. *)
Definition parse_line (line : string) : option datetime * string :=
  match PyStr.split1 "|" line with
  | [timestamp; text] =>
      match strptime (str_strip timestamp) with
      | Some timestamp => (Some timestamp, str_strip text)
      | None => (None, str_strip line)
      end
  | _ => (None, str_strip line)
  end.

Definition tokenize_and_clean (text : string) (stop_words : list string) : list string :=
  let words := word_tokenize (str_lower text) in
  filter (λ word, (word ∉ stop_words) ∧ (str_isalpha word = true)) words.

Definition categorize_issues (text : string) (issue_keywords : dict string (list string))
    : Counter string :=
  fold_left
    (λ categories ck,
       if existsb (λ keyword, PyStr.contains keyword text) ck.2
       then PyDict.update categories [ck.1]
       else categories)
    issue_keywords [].

Definition resolution_phrases : list string :=
  ["resolved"; "will get back to you"; "solution"; "fixed"].

Definition issue_keywords : dict string (list string) :=
  [ ("billing", ["invoice"; "billing"; "charge"; "payment"]);
    ("technical", ["error"; "problem"; "bug"; "issue"]);
    ("support", ["help"; "support"; "service"; "assistance"]) ].

(** The seven collections of [analyze_text], in the order of the tuple
    it returns. *)
Record analysis : Type := Analysis {
  word_freq : Counter string;
  ngram_freq : Counter (list string);
  entity_freq : Counter string;
  question_freq : Counter string;
  sentiment_time_series : list (string * score);
  resolutions : Counter string;
  issue_categories : Counter string;
}.

Definition analysis_init : analysis :=
  Analysis [] [] [] [] [] [] [].

(** The body of the loop over the lines. [nlp text] stands for the texts
    of [nlp(text).ents]. *)
Definition process_line (nlp : string → list string) (ngram_size : Z)
    (st : analysis) (line : string) : analysis :=
  let '(timestamp, text) := parse_line line in
  let words := tokenize_and_clean text stopwords_english in
  let word_freq := PyDict.update (word_freq st) words in
  let ngram_freq :=
    PyDict.update (ngram_freq st) (iterate (generate_ngrams words ngram_size)).1 in
  let entity_freq := PyDict.update (entity_freq st) (nlp text) in
  let question_freq :=
    PyDict.update (question_freq st) (if PyStr.contains "?" text then [text] else []) in
  let sentiment := polarity_compound text in
  let sentiment_time_series :=
    match timestamp with
    | Some timestamp => sentiment_time_series st ++ [(isoformat timestamp, sentiment)]
    | None => sentiment_time_series st
    end in
  let resolutions :=
    if existsb (λ phrase, PyStr.contains phrase text) resolution_phrases
    then PyDict.update (resolutions st) [text]
    else resolutions st in
  let issue_categories :=
    PyDict.update_mapping (issue_categories st) (categorize_issues text issue_keywords) in
  Analysis word_freq ngram_freq entity_freq question_freq sentiment_time_series
           resolutions issue_categories.

Definition analyze_lines (nlp : string → list string) (ngram_size : Z)
    (lines : list string) : analysis :=
  fold_left (process_line nlp ngram_size) lines analysis_init.

(** [analyze_text]. [open_file file_path] is what opening the file for
    reading and iterating over it gives: its lines, or the [OSError] of
    [open]. The result carries what was printed. Only [FileNotFoundError]
    has a handler. *)
Definition analyze_text (open_file : string → outcome (list string))
    (file_path : string) (nlp : string → list string) (ngram_size : Z)
    : list string * outcome (option analysis) :=
  match open_file file_path with
  | Returned lines => ([], Returned (Some (analyze_lines nlp ngram_size lines)))
  | Raised FileNotFoundError =>
      (["Error: The file at " +:+ file_path +:+ " was not found."], Returned None)
  | Raised e => ([], Raised e)
  end.

(** *** The export *)

(** The dict [limited_data] of [save_to_json], one field per key. *)
Record limited : Type := Limited {
  ld_word_freq : dict string Z;
  ld_ngram_freq : dict string Z;
  ld_entity_freq : dict string Z;
  ld_question_freq : dict string Z;
  ld_sentiment_time_series : list (string * score);
  ld_resolutions : dict string Z;
  ld_issue_categories : dict string Z;
}.

Definition ngram_to_string (ngram : list string) : string :=
  PyStr.join "_" ngram.

Definition limited_data (data : analysis) (save_n : Z) : limited :=
  {| ld_word_freq := PyDict.of_items (PyDict.most_common (word_freq data) save_n);
     ld_ngram_freq :=
       PyDict.of_items
         ((λ kv, (ngram_to_string kv.1, kv.2)) <$> PyDict.most_common (ngram_freq data) save_n);
     ld_entity_freq := PyDict.of_items (PyDict.most_common (entity_freq data) save_n);
     ld_question_freq := PyDict.of_items (PyDict.most_common (question_freq data) save_n);
     ld_sentiment_time_series := slice_to (sentiment_time_series data) save_n;
     ld_resolutions := PyDict.of_items (PyDict.most_common (resolutions data) save_n);
     ld_issue_categories := PyDict.of_items (issue_categories data) |}.

(** The text [json.dump] writes for [limited_data]. *)
Definition json_text (ld : limited) : string :=
  PyJson.object 0
    [ ("word_freq", PyJson.counts 1 (ld_word_freq ld));
      ("ngram_freq", PyJson.counts 1 (ld_ngram_freq ld));
      ("entity_freq", PyJson.counts 1 (ld_entity_freq ld));
      ("question_freq", PyJson.counts 1 (ld_question_freq ld));
      ("sentiment_time_series",
        PyJson.array 1
          ((λ p, PyJson.array 2 [PyJson.str p.1; float_repr p.2])
             <$> ld_sentiment_time_series ld));
      ("resolutions", PyJson.counts 1 (ld_resolutions ld));
      ("issue_categories", PyJson.counts 1 (ld_issue_categories ld)) ].

(** [save_to_json]: the directory of the output file is made, the file
    is opened for writing and the document is written into it. *)
Definition save_to_json (f : PyOs.faults) (data : analysis) (output_file : string)
    (save_n : Z) : PyOs.io () :=
  let limited_data := limited_data data save_n in
  PyOs.makedirs f (PyOs.dirname output_file) ;;
  PyOs.open_w f output_file ;;
  PyOs.write_text f output_file (json_text limited_data) ;;
  PyOs.print ("JSON file saved successfully at " +:+ output_file).

End pipeline.

(** ** A small instance of the capabilities

    ASCII stand-ins for the external routines, to run the pipeline on
    concrete files. *)

Module Ascii7.

Definition is_upper (c : ascii) : bool :=
  bool_decide (65 ≤ nat_of_ascii c ≤ 90)%nat.

Definition is_lower (c : ascii) : bool :=
  bool_decide (97 ≤ nat_of_ascii c ≤ 122)%nat.

Definition is_digit (c : ascii) : bool :=
  bool_decide (48 ≤ nat_of_ascii c ≤ 57)%nat.

Definition is_space (c : ascii) : bool :=
  bool_decide (nat_of_ascii c = 32 ∨ 9 ≤ nat_of_ascii c ≤ 13)%nat.

Fixpoint all_chars (p : ascii → bool) (s : string) : bool :=
  match s with
  | EmptyString => true
  | String c s' => p c && all_chars p s'
  end.

Fixpoint map_chars (f : ascii → ascii) (s : string) : string :=
  match s with
  | EmptyString => EmptyString
  | String c s' => String (f c) (map_chars f s')
  end.

Definition lower (s : string) : string :=
  map_chars (λ c, if is_upper c then ascii_of_nat (nat_of_ascii c + 32) else c) s.

Definition isalpha (s : string) : bool :=
  match s with
  | EmptyString => false
  | _ => all_chars (λ c, is_upper c || is_lower c) s
  end.

Fixpoint lstrip (s : string) : string :=
  match s with
  | String c s' => if is_space c then lstrip s' else s
  | EmptyString => EmptyString
  end.

Definition strip (s : string) : string :=
  String.rev (lstrip (String.rev (lstrip s))).

(** Words are separated by blanks; a trailing punctuation sign is a
    token of its own. *)
Definition tokenize (s : string) : list string :=
  String.words s.

(** [dddd-dd-dd dd:dd:dd] *)
Definition timestamp_shape (s : string) : bool :=
  match s with
  | String y1 (String y2 (String y3 (String y4 (String "-" (String m1 (String m2
    (String "-" (String d1 (String d2 (String " " (String h1 (String h2 (String ":"
    (String n1 (String n2 (String ":" (String s1 (String s2 EmptyString))))))))))))))))))
    => forallb is_digit [y1; y2; y3; y4; m1; m2; d1; d2; h1; h2; n1; n2; s1; s2]
  | _ => false
  end.

Definition parse_timestamp (s : string) : option string :=
  if timestamp_shape s then Some s else None.

Definition iso (t : string) : string :=
  PyStr.take_chars 10 t +:+ "T" +:+ PyStr.drop_chars 11 t.

(** The score is not computed: every text is neutral. *)
Definition capabilities : Capabilities := {|
  datetime := string;
  score := ();
  strptime := parse_timestamp;
  isoformat := iso;
  str_lower := lower;
  str_isalpha := isalpha;
  str_strip := strip;
  word_tokenize := tokenize;
  stopwords_english := ["i"; "a"; "have"; "the"; "is"; "in"; "please"];
  polarity_compound := λ _, ();
  float_repr := λ _, "0.0";
|}.

Definition no_entities (text : string) : list string := [].

Definition newline : string := String (ascii_of_nat 10) EmptyString.

Definition sample_file : list string :=
  [ "2024-01-01 10:00:00 | I have a billing issue please help" +:+ newline;
    "just checking in" +:+ newline;
    "2024-01-01 10:05:00 | is the billing issue fixed ?" +:+ newline ].

End Ascii7.

(** ** Vocabulary of the statements *)

(** *** Reading a JSON text

    A reader of JSON texts, to say what a written document holds: a
    statement reads the file back instead of naming the encoder. It
    takes the texts of RFC 8259, and [NaN] and [Infinity] as [json]
    writes them; a number or a name is not looked into. *)

Module JsonRead.

(** A JSON value. A number, or one of the names [true], [false], [null],
    [NaN] and [Infinity], is kept as its text. *)
#[local] Unset Elimination Schemes.
Inductive json : Type :=
  | JLit (text : string)
  | JStr (s : string)
  | JArr (items : list json)
  | JObj (members : list (string * json)).
#[local] Set Elimination Schemes.

(** Space, tab, line feed and carriage return. *)
Definition is_ws (c : ascii) : bool :=
  let n := nat_of_ascii c in
  bool_decide (n = 32 ∨ n = 9 ∨ n = 10 ∨ n = 13)%nat.

(** The characters that end a number or a name: white space, the double
    quote, the comma, the colon, brackets and braces. *)
Definition is_delim (c : ascii) : bool :=
  let n := nat_of_ascii c in
  is_ws c
  || bool_decide (n = 34 ∨ n = 44 ∨ n = 58 ∨ n = 91 ∨ n = 93 ∨ n = 123 ∨ n = 125)%nat.

Fixpoint skip_ws (s : string) : string :=
  match s with
  | String c s' => if is_ws c then skip_ws s' else s
  | EmptyString => EmptyString
  end.

(** The first character after the white space, and what follows it. *)
Definition next_char (s : string) : option (ascii * string) :=
  match skip_ws s with
  | EmptyString => None
  | String c r => Some (c, r)
  end.

(** The characters up to the next delimiter, and the rest. *)
Fixpoint read_literal (s : string) : string * string :=
  match s with
  | EmptyString => (EmptyString, EmptyString)
  | String c s' =>
      if is_delim c then (EmptyString, s)
      else let '(t, r) := read_literal s' in (String c t, r)
  end.

(** The character an escape of one letter stands for. *)
Definition unescape (c : ascii) : option ascii :=
  let n := nat_of_ascii c in
  if decide (n = 34 ∨ n = 92 ∨ n = 47)%nat then Some c
  else if decide (n = 98)%nat then Some (ascii_of_nat 8)
  else if decide (n = 102)%nat then Some (ascii_of_nat 12)
  else if decide (n = 110)%nat then Some (ascii_of_nat 10)
  else if decide (n = 114)%nat then Some (ascii_of_nat 13)
  else if decide (n = 116)%nat then Some (ascii_of_nat 9)
  else None.

Definition hex_value (c : ascii) : option nat :=
  let n := nat_of_ascii c in
  if decide (48 ≤ n ≤ 57)%nat then Some (n - 48)%nat
  else if decide (97 ≤ n ≤ 102)%nat then Some (n - 87)%nat
  else if decide (65 ≤ n ≤ 70)%nat then Some (n - 55)%nat
  else None.

(** The characters of a string, read after its opening quote up to its
    closing quote. An escape [\uXXXX] of a character outside ASCII is
    kept as it is written: a [string] has no character for it. *)
Fixpoint read_string (s : string) : option (string * string) :=
  match s with
  | EmptyString => None
  | String c s1 =>
      if decide (nat_of_ascii c = 34%nat) then Some (EmptyString, s1)
      else if decide (nat_of_ascii c = 92%nat) then
        match s1 with
        | EmptyString => None
        | String e s2 =>
            match unescape e with
            | Some d =>
                match read_string s2 with
                | Some (t, r) => Some (String d t, r)
                | None => None
                end
            | None =>
                if decide (nat_of_ascii e = 117%nat) then
                  match s2 with
                  | String h1 (String h2 (String h3 (String h4 s3))) =>
                      match hex_value h1, hex_value h2, hex_value h3, hex_value h4 with
                      | Some a, Some b, Some c', Some d =>
                          match read_string s3 with
                          | Some (t, r) =>
                              let code := (((a * 16 + b) * 16 + c') * 16 + d)%nat in
                              if decide (code < 128)%nat
                              then Some (String (ascii_of_nat code) t, r)
                              else Some (String c (String e (String h1 (String h2
                                           (String h3 (String h4 t))))), r)
                          | None => None
                          end
                      | _, _, _, _ => None
                      end
                  | _ => None
                  end
                else None
            end
        end
      else
        match read_string s1 with
        | Some (t, r) => Some (String c t, r)
        | None => None
        end
  end.

Section containers.
Variable read_value : string → option (json * string).

(** The items of an array after the first bracket, at most [fuel] of
    them, up to the closing bracket. *)
Fixpoint read_items (fuel : nat) (s : string) : option (list json * string) :=
  match fuel with
  | O => None
  | S fuel' =>
      match read_value s with
      | None => None
      | Some (v, r) =>
          match next_char r with
          | None => None
          | Some (c, r') =>
              if decide (c = ","%char) then
                match read_items fuel' r' with
                | Some (vs, r'') => Some (v :: vs, r'')
                | None => None
                end
              else if decide (c = "]"%char) then Some ([v], r')
              else None
          end
      end
  end.

(** A key, after its opening quote, the colon and the value. *)
Definition read_member (s : string) : option ((string * json) * string) :=
  match read_string s with
  | None => None
  | Some (k, r) =>
      match next_char r with
      | None => None
      | Some (c, r') =>
          if decide (c = ":"%char) then
            match read_value r' with
            | Some (v, r'') => Some ((k, v), r'')
            | None => None
            end
          else None
      end
  end.

(** The members of an object after the first brace, at most [fuel] of
    them, up to the closing brace. *)
Fixpoint read_members (fuel : nat) (s : string) : option (list (string * json) * string) :=
  match fuel with
  | O => None
  | S fuel' =>
      match next_char s with
      | None => None
      | Some (q, r) =>
          if decide (nat_of_ascii q = 34%nat) then
            match read_member r with
            | None => None
            | Some (m, r') =>
                match next_char r' with
                | None => None
                | Some (c, r'') =>
                    if decide (c = ","%char) then
                      match read_members fuel' r'' with
                      | Some (ms, r3) => Some (m :: ms, r3)
                      | None => None
                      end
                    else if decide (c = "}"%char) then Some ([m], r'')
                    else None
                end
            end
          else None
      end
  end.

End containers.

(** A value at the head of [s], and the text after it. [fuel] bounds the
    nesting and the number of items of a container. *)
Fixpoint read_value (fuel : nat) (s : string) : option (json * string) :=
  match fuel with
  | O => None
  | S fuel' =>
      match next_char s with
      | None => None
      | Some (c, r) =>
          if decide (c = "{"%char) then
            match next_char r with
            | None => None
            | Some (d, r') =>
                if decide (d = "}"%char) then Some (JObj [], r')
                else match read_members (read_value fuel') fuel' r with
                     | Some (ms, r'') => Some (JObj ms, r'')
                     | None => None
                     end
            end
          else if decide (c = "["%char) then
            match next_char r with
            | None => None
            | Some (d, r') =>
                if decide (d = "]"%char) then Some (JArr [], r')
                else match read_items (read_value fuel') fuel' r with
                     | Some (vs, r'') => Some (JArr vs, r'')
                     | None => None
                     end
            end
          else if decide (nat_of_ascii c = 34%nat) then
            match read_string r with
            | Some (t, r') => Some (JStr t, r')
            | None => None
            end
          else if is_delim c then None
          else let '(t, r') := read_literal (String c r) in Some (JLit t, r')
      end
  end.

(** The value of a whole text: nothing but white space follows it. *)
Definition read (fuel : nat) (text : string) : option json :=
  match read_value fuel text with
  | Some (v, rest) => if decide (skip_ws rest = EmptyString) then Some v else None
  | None => None
  end.

(** [text] is a JSON text, of value [v]. *)
Definition reads (text : string) (v : json) : Prop :=
  ∃ fuel, read fuel text = Some v.

Definition valid (text : string) : Prop := ∃ v, reads text v.

(** A text of characters that are no delimiters, at least one. *)
Fixpoint plain (s : string) : bool :=
  match s with
  | EmptyString => true
  | String c s' => negb (is_delim c) && plain s'
  end.

Definition literal (t : string) : Prop := t ≠ EmptyString ∧ plain t = true.

(** What may follow a value: the end of the text or a delimiter. *)
Definition closes (rest : string) : Prop :=
  match rest with
  | EmptyString => True
  | String c _ => is_delim c = true
  end.

(** [text] is read as [v] with [fuel] or more, whatever follows it. *)
Definition reads_as (fuel : nat) (text : string) (v : json) : Prop :=
  ∀ fuel' rest, (fuel ≤ fuel')%nat → closes rest →
    read_value fuel' (text +:+ rest) = Some (v, rest).

(** The value for a mapping of counts. *)
Definition counts_value (d : dict string Z) : json :=
  JObj ((λ kv, (kv.1, JLit (pretty kv.2))) <$> d).

End JsonRead.

Section vocabulary.
Context {K : Type} `{EqDecision K}.

(** Occurrences of [k] among [elems]. *)
Definition occurrences (k : K) (elems : list K) : nat :=
  length (filter (k =.) elems).

(** The counts a mapping holds for [k], all its items taken together. *)
Definition total_for (k : K) (m : dict K Z) : Z :=
  foldr (λ kv acc, if decide (k = kv.1) then kv.2 + acc else acc) 0 m.

(** No key is stored with a count below one. *)
Definition stored_positive (c : Counter K) : Prop :=
  ∀ k, k ∈ PyDict.keys c → 1 ≤ PyDict.count c k.

End vocabulary.

(** [selected] holds the [k] entries of [table] of highest count: as
    many as asked for, or the whole table; entries of the table, each
    taken once; in descending order of count; no entry left out counts
    more than an entry taken; and among the entries of one count, the
    first of the table are taken, in the order of the table. *)
Definition top_k_of {K : Type} (table : Counter K) (k : nat) (selected : list (K * Z)) : Prop :=
  length selected = min k (length table)
  ∧ (∃ rest, selected ++ rest ≡ₚ table ∧ ∀ x y, x ∈ selected → y ∈ rest → y.2 ≤ x.2)
  ∧ StronglySorted (λ x y, y.2 ≤ x.2) selected
  ∧ ∀ v : Z, filter (λ x, x.2 = v) selected `prefix_of` filter (λ x, x.2 = v) table.

(** [text] has one of [keywords] as a substring, letter case included. *)
Definition mentions (text : string) (keywords : list string) : Prop :=
  ∃ keyword, keyword ∈ keywords ∧ ∃ pre post, text = pre +:+ keyword +:+ post.

(** What one line of the file gives to the run. *)
Section line_vocabulary.
Context `{Capabilities}.

Definition line_timestamp (line : string) : option datetime := (parse_line line).1.

Definition line_text (line : string) : string := (parse_line line).2.

Definition line_words (line : string) : list string :=
  tokenize_and_clean (line_text line) stopwords_english.

(** The n-gram occurrences of a line: its windows of [ngram_size] words. *)
Definition line_ngrams (ngram_size : Z) (line : string) : list (list string) :=
  if decide (1 ≤ ngram_size)
  then (λ i, take (Z.to_nat ngram_size) (drop i (line_words line)))
         <$> seq 0 (S (length (line_words line)) - Z.to_nat ngram_size)
  else [].

Definition is_question (text : string) : Prop :=
  ∃ pre post, text = pre +:+ "?" +:+ post.

Definition is_resolution (text : string) : Prop :=
  mentions text ["resolved"; "will get back to you"; "solution"; "fixed"].

(** The point a line adds to the sentiment series. *)
Definition line_point (line : string) : option (string * score) :=
  (λ timestamp, (isoformat timestamp, polarity_compound (line_text line)))
    <$> line_timestamp line.

(** Everything [analyze_text] collects but the sentiment series. *)
Definition aggregates (st : analysis) :=
  (word_freq st, ngram_freq st, entity_freq st, question_freq st,
   resolutions st, issue_categories st).

End line_vocabulary.

(** The value of a summary document: the seven members in their order,
    a mapping as an object of counts, the series as an array of pairs. *)
Section document_vocabulary.
Context `{Capabilities}.

Definition series_value (series : list (string * score)) : JsonRead.json :=
  JsonRead.JArr
    ((λ p, JsonRead.JArr [JsonRead.JStr p.1; JsonRead.JLit (float_repr p.2)]) <$> series).

Definition summary_value (words ngrams entities questions : dict string Z)
    (series : list (string * score)) (resolved issues : dict string Z) : JsonRead.json :=
  JsonRead.JObj
    [ ("word_freq", JsonRead.counts_value words);
      ("ngram_freq", JsonRead.counts_value ngrams);
      ("entity_freq", JsonRead.counts_value entities);
      ("question_freq", JsonRead.counts_value questions);
      ("sentiment_time_series", series_value series);
      ("resolutions", JsonRead.counts_value resolved);
      ("issue_categories", JsonRead.counts_value issues) ].

End document_vocabulary.

(** The contiguous windows of [n] items of a sequence of length L, at
    the offsets [0 .. L - n]. *)
Definition windows {A} (words : list A) (n : nat) : list (list A) :=
  (λ i, take n (drop i words)) <$> seq 0 (S (length words) - n).

(** The sum of the counts of a counter, [sum(c.values())]. *)
Definition total {K : Type} (c : Counter K) : Z :=
  foldr (λ kv acc, kv.2 + acc) 0 c.

(** ** The [Analyze] button of the window *)

Module PyRepr.

(** [repr] of a list and of a dict, the items already shown. *)
Definition of_list (items : list string) : string :=
  "[" +:+ PyStr.join ", " items +:+ "]".

Definition of_dict (items : list (string * string)) : string :=
  "{" +:+ PyStr.join ", " ((λ kv, kv.1 +:+ ": " +:+ kv.2) <$> items) +:+ "}".

End PyRepr.

Definition line_feed : string := String (ascii_of_nat 10) EmptyString.

Section window.
Context `{Capabilities}.

(** [repr] of a [str], which depends on the Unicode tables. *)
Variable str_repr : string → string.

(** What the callback works on: the text of the results area and the
    file system. *)
Record screen : Type := Screen {
  results_area : string;
  os_world : PyOs.world;
}.

Definition show_counts (d : dict string Z) : string :=
  PyRepr.of_dict ((λ kv, (str_repr kv.1, pretty kv.2)) <$> d).

(** The text shown after a successful analysis. *)
Definition results_text (data : analysis) (top_n : Z) : string :=
  "Word Frequencies: "
    +:+ show_counts (PyDict.of_items (PyDict.most_common (word_freq data) top_n))
    +:+ line_feed
  +:+ "Ngram Frequencies: "
    +:+ PyRepr.of_list ((λ kv, str_repr (PyStr.join " " kv.1))
                       <$> PyDict.most_common (ngram_freq data) top_n)
    +:+ line_feed
  +:+ "Named Entities: "
    +:+ show_counts (PyDict.of_items (PyDict.most_common (entity_freq data) top_n))
    +:+ line_feed
  +:+ "Questions: "
    +:+ show_counts (PyDict.of_items (PyDict.most_common (question_freq data) top_n))
    +:+ line_feed
  +:+ "Issue Categories: " +:+ show_counts (PyDict.of_items (issue_categories data))
    +:+ line_feed.

(** The callback [analyze] of [setup_ui]. The four fields of the window
    are read as they are: [top_n] is also the n-gram size given to
    [analyze_text]. [nlp] is what [setup()] returned. A tuple of seven
    collections is true, [None] is false. The results area is emptied
    and filled before the export is tried. *)
Definition analyze (open_file : string → outcome (list string))
    (nlp : string → list string) (f : PyOs.faults)
    (file_path output_file : string) (top_n save_n : Z) (s : screen)
    : screen * outcome () :=
  let '(printed, results) := analyze_text open_file file_path nlp top_n in
  let w := PyOs.World (PyOs.dirs (os_world s)) (PyOs.files (os_world s))
             (PyOs.stdout (os_world s) ++ printed) in
  match results with
  | Raised e => (Screen (results_area s) w, Raised e)
  | Returned (Some data) =>
      let '(w', r) := save_to_json f data output_file save_n w in
      (Screen (results_text data top_n) w', r)
  | Returned None =>
      (Screen "Analysis was not completed due to an error or file not found." w,
       Returned ())
  end.

End window.

(** * Properties *)

(** ** The definitions at work *)

Example range_example : range 3 = [0; 1; 2]%nat ∧ range (-2) = [].
Proof. done. Qed.

Example generate_ngrams_example :
  (iterate (generate_ngrams ["a"; "b"; "c"] 2)).1 = [["a"; "b"]; ["b"; "c"]]
  ∧ (iterate (generate_ngrams ["a"; "b"; "c"] 4)).1 = []
  ∧ (iterate (generate_ngrams ["a"; "b"; "c"] 0)).1 = [].
Proof. done. Qed.

Example most_common_example :
  PyDict.most_common [("a", 1); ("b", 3); ("c", 1); ("d", 3); ("e", 2)] 4
  = [("b", 3); ("d", 3); ("e", 2); ("a", 1)].
Proof. done. Qed.

Example update_example :
  PyDict.update [("x", 2)] ["y"; "x"; "y"] = [("x", 3); ("y", 2)].
Proof. done. Qed.

Example slice_to_example :
  slice_to [1; 2; 3; 4] 2 = [1; 2] ∧ slice_to [1; 2; 3; 4] 9 = [1; 2; 3; 4]
  ∧ slice_to [1; 2; 3; 4] (-1) = [1; 2; 3].
Proof. done. Qed.

Example split1_example :
  PyStr.split1 "|" "2024-01-01 10:00:00 | a | b" = ["2024-01-01 10:00:00 "; " a | b"]
  ∧ PyStr.split1 "|" "just checking in" = ["just checking in"].
Proof. done. Qed.

Example dirname_example :
  PyOs.dirname "out/run/summary.json" = "out/run"
  ∧ PyOs.dirname "/summary.json" = "/"
  ∧ PyOs.dirname "out//summary.json" = "out"
  ∧ PyOs.dirname "summary.json" = EmptyString.
Proof. done. Qed.

Example ancestors_example :
  PyOs.ancestors "out/run/summary.json" = ["out/run"; "out"]
  ∧ PyOs.ancestors "/summary.json" = ["/"]
  ∧ PyOs.ancestors "out/run/" = ["out/run"; "out"]
  ∧ PyOs.ancestors "summary.json" = [].
Proof. done. Qed.

Example makedirs_example :
  (PyOs.makedirs PyOs.no_faults "a/b" (PyOs.World ∅ {["a" := "text"]} [])).2
  = Raised NotADirectoryError
  ∧ (PyOs.makedirs PyOs.no_faults "a" (PyOs.World ∅ {["a" := "text"]} [])).2
    = Raised FileExistsError
  ∧ (PyOs.makedirs (PyOs.Faults (Some PermissionError) None None) "a/b"
       (PyOs.World ∅ ∅ [])).2
    = Raised PermissionError
  ∧ bool_decide ("a" ∈ PyOs.dirs (PyOs.makedirs PyOs.no_faults "a/b" (PyOs.World ∅ ∅ [])).1)
    = true.
Proof. by vm_compute. Qed.

Example open_w_example :
  (PyOs.open_w PyOs.no_faults "out/" (PyOs.World {["out"]} ∅ [])).2
  = Raised IsADirectoryError
  ∧ (PyOs.open_w PyOs.no_faults "out" (PyOs.World {["out"]} ∅ [])).2
    = Raised IsADirectoryError
  ∧ (PyOs.open_w PyOs.no_faults "a/b.json" (PyOs.World ∅ {["a" := "text"]} [])).2
    = Raised NotADirectoryError
  ∧ PyOs.files (PyOs.open_w PyOs.no_faults "out/b.json"
                  (PyOs.World {["out"]} {["out/b.json" := "text"]} [])).1
    !! "out/b.json"
    = Some EmptyString.
Proof. by vm_compute. Qed.

Example read_example :
  JsonRead.read 4 (PyJson.counts 0 [("a", 1); ("b", -2)])
  = Some (JsonRead.JObj [("a", JsonRead.JLit "1"); ("b", JsonRead.JLit "-2")])
  ∧ JsonRead.read 4 " [1.5e3, [true, null], {}] "
    = Some (JsonRead.JArr
              [ JsonRead.JLit "1.5e3";
                JsonRead.JArr [JsonRead.JLit "true"; JsonRead.JLit "null"];
                JsonRead.JObj [] ])
  ∧ JsonRead.read 4 (PyJson.str "a") = Some (JsonRead.JStr "a")
  ∧ JsonRead.read 4 "[1, 2" = None
  ∧ JsonRead.read 4 "[1, 2,]" = None
  ∧ JsonRead.read 4 "[1, 2] 3" = None
  ∧ JsonRead.read 1 "[[1]]" = None.
Proof. by vm_compute. Qed.

Example parse_line_example :
  parse_line (H := Ascii7.capabilities) "2024-01-01 10:00:00 | help me "
  = (Some "2024-01-01 10:00:00", "help me")
  ∧ parse_line (H := Ascii7.capabilities) " 2024-01-01 | help me "
    = (None, "2024-01-01 | help me").
Proof. done. Qed.

Example analyze_lines_example :
  analyze_lines (H := Ascii7.capabilities) Ascii7.no_entities 2 Ascii7.sample_file
  = Analysis (H := Ascii7.capabilities)
      [("billing", 2); ("issue", 2); ("help", 1); ("just", 1); ("checking", 1); ("fixed", 1)]
      [(["billing"; "issue"], 2); (["issue"; "help"], 1); (["just"; "checking"], 1);
       (["issue"; "fixed"], 1)]
      []
      [("is the billing issue fixed ?", 1)]
      [("2024-01-01T10:00:00", ()); ("2024-01-01T10:05:00", ())]
      [("is the billing issue fixed ?", 1)]
      [("billing", 2); ("technical", 2); ("support", 1)].
Proof. done. Qed.

Example json_text_example :
  json_text (H := Ascii7.capabilities)
    (limited_data (H := Ascii7.capabilities) analysis_init 3)
  = PyJson.object 0
      [ ("word_freq", "{}"); ("ngram_freq", "{}"); ("entity_freq", "{}");
        ("question_freq", "{}"); ("sentiment_time_series", "[]"); ("resolutions", "{}");
        ("issue_categories", "{}") ]
  ∧ PyJson.counts 0 [("a", 1); ("b", -2)]
    = "{" +:+ PyJson.newline_indent 1 +:+ PyJson.str "a" +:+ ": 1,"
      +:+ PyJson.newline_indent 1 +:+ PyJson.str "b" +:+ ": -2"
      +:+ PyJson.newline_indent 0 +:+ "}".
Proof. by vm_compute. Qed.

(** ** The [zip] iterator *)

Section zip_facts.
Context {A : Type}.
Implicit Types (z its : list (list A)) (ws : list A).

Lemma advance_exhausted its :
  [] ∈ its → ∃ its', advance its = (None, its') ∧ [] ∈ its'.
Proof.
  induction its as [|it rest IH]; intros Hin.
  - by apply elem_of_nil in Hin.
  - destruct it as [|x it'].
    + eexists. split; [done | left].
    + apply elem_of_cons in Hin as [|Hin]; [done|].
      destruct (IH Hin) as (rest' & E & Hin').
      exists (it' :: rest'). simpl. rewrite E. split; [done | by right].
Qed.

Lemma advance_None its its' :
  advance its = (None, its') → [] ∈ its'.
Proof.
  revert its'. induction its as [|it rest IH]; intros its'; simpl.
  - discriminate.
  - destruct it as [|x it'].
    + intros [= <-]. left.
    + destruct (advance rest) as [[xs|] rest'] eqn:E; intros [= <-].
      right. by apply IH.
Qed.

Lemma zip_next_None z z' : zip_next z = (None, z') → zip_next z' = (None, z') ∨ [] ∈ z'.
Proof.
  destruct z as [|it rest].
  - intros [= <-]. by left.
  - intros H. right. by eapply advance_None.
Qed.

(** Once [next] has raised [StopIteration] it raises it for ever: the
    exhausted iterator stays in the [zip]. *)
Lemma zip_next_exhausted z :
  [] ∈ z → ∃ z', zip_next z = (None, z') ∧ [] ∈ z'.
Proof.
  intros Hin. destruct z as [|it rest]; [by apply elem_of_nil in Hin|].
  by apply advance_exhausted.
Qed.

Lemma consume_exhausted fuel z :
  [] ∈ z → ∃ z', consume fuel z = ([], z') ∧ [] ∈ z'.
Proof.
  intros Hin. destruct (zip_next_exhausted z Hin) as (z' & E & Hin').
  exists z'. split; [|done]. destruct fuel; simpl; by rewrite E.
Qed.

Lemma zip_next_Some_shorter z t z' :
  zip_next z = (Some t, z') → (length (hd [] z') < length (hd [] z))%nat.
Proof.
  destruct z as [|[|x it] rest]; simpl; try discriminate.
  destruct (advance rest) as [[xs|] rest']; intros [= _ <-]. simpl. lia.
Qed.

(** The fuel of [iterate] is enough for any [zip]: the iteration always
    ends on [StopIteration]. *)
Lemma consume_stops fuel z :
  (length (hd [] z) ≤ fuel)%nat → (zip_next (consume fuel z).2).1 = None.
Proof.
  assert (∀ z z', zip_next z = (None, z') → (zip_next z').1 = None) as Hnone.
  { intros z0 z' E. apply zip_next_None in E as [->|Hin]; [done|].
    by destruct (zip_next_exhausted z' Hin) as (z'' & -> & _). }
  revert z. induction fuel as [|fuel IH]; intros z Hfuel; cbn [consume];
    destruct (zip_next z) as [[t|] z'] eqn:E; cbn [snd]; eauto.
  - apply zip_next_Some_shorter in E. lia.
  - apply zip_next_Some_shorter in E.
    specialize (IH z' ltac:(lia)). by destruct (consume fuel z').
Qed.

Lemma iterate_stops z : (zip_next (iterate z).2).1 = None.
Proof. by apply consume_stops. Qed.

End zip_facts.

(** ** [generate_ngrams] *)

Section ngram_facts.
Context {A : Type}.
Implicit Types (ws : list A) (n k : nat).

Lemma advance_slices ws k n :
  (k + n ≤ length ws)%nat →
  advance ((λ i, drop i ws) <$> seq k n)
  = (Some (take n (drop k ws)), (λ i, drop (S i) ws) <$> seq k n).
Proof.
  revert k. induction n as [|n IH]; intros k Hk.
  - done.
  - destruct (drop k ws) as [|x tl] eqn:E.
    { apply (f_equal length) in E. rewrite length_drop in E. simpl in E. lia. }
    cbn [seq fmap list_fmap advance]. rewrite E.
    rewrite (IH (S k)) by lia.
    assert (drop (S k) ws = tl) as ->; [|done].
    replace (S k) with (k + 1)%nat by lia. by rewrite <-drop_drop, E.
Qed.

Lemma slices_short ws k n :
  (0 < n)%nat → (length ws < k + n)%nat →
  [] ∈ ((λ i, drop i ws) <$> seq k n).
Proof.
  intros Hn Hk. apply list_elem_of_fmap. exists (k + n - 1)%nat. split.
  - symmetry. apply drop_ge. lia.
  - apply elem_of_seq. lia.
Qed.

Lemma slices_tail x ws n :
  ((λ i, drop (S i) (x :: ws)) <$> seq 0 n) = ((λ i, drop i ws) <$> seq 0 n).
Proof. done. Qed.

Lemma windows_nil n : (0 < n)%nat → windows (@nil A) n = [].
Proof. intros Hn. unfold windows. simpl. by replace (1 - n)%nat with 0%nat by lia. Qed.

Lemma windows_cons x ws n :
  (n ≤ S (length ws))%nat →
  windows (x :: ws) n = take n (x :: ws) :: windows ws n.
Proof.
  intros Hn. unfold windows. simpl length.
  replace (S (S (length ws)) - n)%nat with (S (S (length ws) - n)) by lia.
  cbn [seq fmap list_fmap]. f_equal.
  rewrite <-fmap_S_seq, <-list_fmap_compose. done.
Qed.

Lemma windows_short ws n : (length ws < n)%nat → windows ws n = [].
Proof. intros Hn. unfold windows. by replace (S (length ws) - n)%nat with 0%nat by lia. Qed.

Lemma windows_length ws n : length (windows ws n) = (S (length ws) - n)%nat.
Proof. unfold windows. by rewrite length_fmap, length_seq. Qed.

Lemma windows_lookup ws n i :
  (i + n ≤ length ws)%nat → windows ws n !! i = Some (take n (drop i ws)).
Proof.
  intros Hi. unfold windows. rewrite list_lookup_fmap, lookup_seq_lt by lia. done.
Qed.

Lemma windows_Forall_length ws n : Forall (λ w, length w = n) (windows ws n).
Proof.
  unfold windows. apply Forall_fmap, Forall_forall. intros i Hi.
  apply elem_of_seq in Hi. simpl. rewrite length_take, length_drop. lia.
Qed.

Lemma windows_elem ws n w x : w ∈ windows ws n → x ∈ w → x ∈ ws.
Proof.
  unfold windows. intros Hw Hx. apply list_elem_of_fmap in Hw as (i & -> & _).
  by eapply subseteq_drop, subseteq_take.
Qed.

Lemma zip_next_slices ws n :
  (0 < n ≤ length ws)%nat →
  zip_next ((λ i, drop i ws) <$> seq 0 n)
  = (Some (take n ws), (λ i, drop i (tail ws)) <$> seq 0 n).
Proof.
  intros [Hn Hle]. destruct n as [|n]; [lia|].
  unfold zip_next. change (?f <$> seq 0 (S n)) with (f 0%nat :: (f <$> seq 1 n)) at 1.
  change (?f 0%nat :: (?f <$> seq 1 n)) with (f <$> seq 0 (S n)).
  rewrite advance_slices by (simpl; lia).
  destruct ws as [|x ws]; [simpl in Hle; lia|]. by rewrite slices_tail.
Qed.

(** With fuel for one round per word, the rounds are the windows and the
    iteration stops on an exhausted iterator. *)
Lemma consume_slices ws n fuel :
  (0 < n)%nat → (length ws ≤ fuel)%nat →
  ∃ z', consume fuel ((λ i, drop i ws) <$> seq 0 n) = (windows ws n, z') ∧ [] ∈ z'.
Proof.
  intros Hn. revert fuel. induction ws as [|x ws IH]; intros fuel Hfuel.
  - rewrite windows_nil by done. apply consume_exhausted, slices_short; simpl; lia.
  - destruct (decide (n ≤ S (length ws))%nat) as [Hle|Hgt].
    + destruct fuel as [|fuel]; [simpl in Hfuel; lia|].
      destruct (IH fuel) as (z' & E & Hin); [simpl in Hfuel; lia|].
      exists z'. split; [|done].
      cbn [consume]. rewrite zip_next_slices by (simpl; lia).
      simpl tail. rewrite E. by rewrite windows_cons.
    + rewrite windows_short by (simpl; lia).
      apply consume_exhausted, slices_short; simpl; lia.
Qed.

Lemma iterate_generate_ngrams ws (n : Z) :
  1 ≤ n →
  ∃ z', iterate (generate_ngrams ws n) = (windows ws (Z.to_nat n), z') ∧ [] ∈ z'.
Proof.
  intros Hn. unfold iterate, generate_ngrams, range.
  destruct (Z.to_nat n) as [|n'] eqn:En; [lia|].
  apply consume_slices; [lia|].
  cbn [seq fmap list_fmap hd]. rewrite drop_0. done.
Qed.

Lemma iterate_generate_ngrams_nonpos ws (n : Z) :
  n ≤ 0 → iterate (generate_ngrams ws n) = ([], []).
Proof.
  intros Hn. unfold iterate, generate_ngrams, range.
  by replace (Z.to_nat n) with 0%nat by lia.
Qed.

(** The elements [Counter.update] receives from [generate_ngrams]. *)
Lemma ngrams_yielded ws (n : Z) :
  (iterate (generate_ngrams ws n)).1 = if decide (1 ≤ n) then windows ws (Z.to_nat n) else [].
Proof.
  case_decide as Hn.
  - by destruct (iterate_generate_ngrams ws n Hn) as (z' & -> & _).
  - by rewrite iterate_generate_ngrams_nonpos by lia.
Qed.

End ngram_facts.

(** C6: for a token sequence of length L and a window size N >= 1, one
    iteration over [generate_ngrams words N] yields max(0, L - N + 1)
    windows, each of length N, the window at place i being the N tokens
    from offset i, for the offsets 0 .. L - N in this order; it yields
    none when L < N; and the iteration ends on [StopIteration]. *)
Theorem generate_ngrams_windows {A} (words : list A) (n : Z) :
  1 ≤ n →
  let yielded := (iterate (generate_ngrams words n)).1 in
  let L := Z.of_nat (length words) in
  Z.of_nat (length yielded) = Z.max 0 (L - n + 1)
  ∧ Forall (λ w, Z.of_nat (length w) = n) yielded
  ∧ (∀ i : nat, Z.of_nat i ≤ L - n →
       yielded !! i = Some (take (Z.to_nat n) (drop i words)))
  ∧ yielded = (λ i, take (Z.to_nat n) (drop i words)) <$> seq 0 (Z.to_nat (L - n + 1))
  ∧ (L < n → yielded = [])
  ∧ (zip_next (iterate (generate_ngrams words n)).2).1 = None.
Proof.
  intros Hn yielded L. subst yielded L.
  destruct (iterate_generate_ngrams words n Hn) as (z' & E & Hin).
  rewrite E. simpl. repeat split.
  - rewrite windows_length. lia.
  - eapply Forall_impl; [apply windows_Forall_length|]. simpl. intros w ->. lia.
  - intros i Hi. apply windows_lookup. lia.
  - unfold windows. do 2 f_equal. lia.
  - intros Hlt. apply windows_short. lia.
  - by destruct (zip_next_exhausted z' Hin) as (z'' & -> & _).
Qed.

Lemma generate_ngrams_windows_witness :
  let yielded := (iterate (generate_ngrams ["a"; "b"; "c"] 2)).1 in
  Z.of_nat (length yielded) = 2 ∧ yielded = [["a"; "b"]; ["b"; "c"]].
Proof.
  pose proof (generate_ngrams_windows ["a"; "b"; "c"] 2 ltac:(lia)) as (Hlen & _).
  split; [exact Hlen | reflexivity].
Defined.

Lemma iterate_exhausted {A} (z : list (list A)) :
  [] ∈ z → ∃ z', iterate z = ([], z') ∧ [] ∈ z'.
Proof. apply consume_exhausted. Qed.

Lemma iterate_again {A} (z : list (list A)) (k : nat) :
  [] ∈ z → [] ∈ Nat.iter k (λ z, (iterate z).2) z.
Proof.
  intros Hin. induction k as [|k IH]; [done|]. simpl.
  by destruct (iterate_exhausted _ IH) as (z' & -> & Hin').
Qed.

(** C3, as the claim states it, fails: the [zip] object that
    [generate_ngrams] returns for the tokens a, b and N = 1 yields the two
    windows when iterated once and nothing when iterated again. *)
Lemma generate_ngrams_not_restartable :
  let z := generate_ngrams ["a"; "b"] 1 in
  let first := iterate z in
  let second := iterate first.2 in
  first.1 = [["a"]; ["b"]] ∧ second.1 = [] ∧ second.1 ≠ first.1.
Proof. by repeat split. Qed.

(** C3, amended: [generate_ngrams] returns a single-use iterator. For
    every token sequence and window size N >= 1 the first iteration
    yields the windows at the offsets 0 .. L - N, and every later
    iteration of the same object yields nothing; the second iteration
    repeats the first only when there is no window, that is when
    L < N. *)
Theorem generate_ngrams_single_use {A} (words : list A) (n : Z) :
  1 ≤ n →
  let first := iterate (generate_ngrams words n) in
  first.1 = (λ i, take (Z.to_nat n) (drop i words))
              <$> seq 0 (Z.to_nat (Z.of_nat (length words) - n + 1))
  ∧ (∀ k : nat, (iterate (Nat.iter k (λ z, (iterate z).2) first.2)).1 = [])
  ∧ ((iterate first.2).1 = first.1 ↔ Z.of_nat (length words) < n).
Proof.
  intros Hn first. subst first.
  destruct (iterate_generate_ngrams words n Hn) as (z' & E & Hin).
  rewrite E. simpl. split; [|split].
  - unfold windows. do 2 f_equal. lia.
  - intros k. by destruct (iterate_exhausted _ (iterate_again z' k Hin)) as (z'' & -> & _).
  - destruct (iterate_exhausted z' Hin) as (z'' & -> & _). simpl. split.
    + intros Hw. apply (f_equal length) in Hw. rewrite windows_length in Hw.
      simpl in Hw. lia.
    + intros Hlt. symmetry. apply windows_short. lia.
Qed.

Lemma generate_ngrams_single_use_witness :
  (iterate (iterate (generate_ngrams ["a"; "b"; "c"] 2)).2).1 = []
  ∧ (iterate (generate_ngrams ["a"; "b"; "c"] 2)).1 = [["a"; "b"]; ["b"; "c"]].
Proof.
  pose proof (generate_ngrams_single_use ["a"; "b"; "c"] 2 ltac:(lia)) as (Hfirst & Hlater & _).
  split; [exact (Hlater 0%nat) | exact Hfirst].
Defined.

(** ** Strings *)

Lemma append_cons (c : ascii) (a b : string) :
  String c a +:+ b = String c (a +:+ b).
Proof. reflexivity. Qed.

Lemma append_nil_l (a : string) : EmptyString +:+ a = a.
Proof. reflexivity. Qed.

Lemma prefix_spec (a b : string) :
  String.prefix a b = true ↔ ∃ post, b = a +:+ post.
Proof.
  revert b. induction a as [|c a IH]; intros b.
  - destruct b; simpl; split; eauto.
  - destruct b as [|c' b]; simpl.
    + split; [done | by intros [post ?]].
    + destruct (ascii_dec c c') as [->|Hne].
      * rewrite IH. split; intros [post E]; exists post; rewrite append_cons in *; congruence.
      * split; [done | intros [post E]; rewrite append_cons in E; congruence].
Qed.

(** [needle in hay] is the substring test. *)
Lemma contains_spec (needle hay : string) :
  PyStr.contains needle hay = true ↔ ∃ pre post, hay = pre +:+ needle +:+ post.
Proof.
  induction hay as [|c hay IH]; cbn [PyStr.contains]; rewrite orb_true_iff, prefix_spec.
  - split.
    + intros [[post E]|]; [|done]. by exists EmptyString, post.
    + intros (pre & post & E). left. destruct pre; [by exists post|done].
  - rewrite IH. split.
    + intros [[post E]|(pre & post & E)].
      * by exists EmptyString, post.
      * exists (String c pre), post. by rewrite append_cons, E.
    + intros (pre & post & E). destruct pre as [|c' pre].
      * left. by exists post.
      * right. exists pre, post. rewrite append_cons in E. congruence.
Qed.

Lemma contains_char_cons (c d : ascii) (s : string) :
  PyStr.contains (String c EmptyString) (String d s)
  = bool_decide (c = d) || PyStr.contains (String c EmptyString) s.
Proof.
  simpl. destruct (ascii_dec c d) as [->|Hne].
  - rewrite bool_decide_eq_true_2 by done. by destruct s.
  - by rewrite bool_decide_eq_false_2 by done.
Qed.

Lemma append_nil_r (a : string) : a +:+ EmptyString = a.
Proof. induction a as [|c a IH]; [done|]. by rewrite append_cons, IH. Qed.

Lemma append_assoc (a b c : string) : (a +:+ b) +:+ c = a +:+ (b +:+ c).
Proof. induction a as [|x a IH]; [done|]. by rewrite !append_cons, IH. Qed.

Lemma length_append (a b : string) :
  String.length (a +:+ b) = (String.length a + String.length b)%nat.
Proof. induction a as [|x a IH]; [done|]. rewrite append_cons. simpl. by rewrite IH. Qed.

Lemma take_drop_chars (n : nat) (s : string) :
  PyStr.take_chars n s +:+ PyStr.drop_chars n s = s.
Proof.
  revert n. induction s as [|c s IH]; intros [|n]; try done.
  simpl. by rewrite append_cons, IH.
Qed.

Lemma length_drop_chars (n : nat) (s : string) :
  String.length (PyStr.drop_chars n s) = (String.length s - n)%nat.
Proof. revert n. induction s as [|c s IH]; intros [|n]; try done. simpl. apply IH. Qed.

(** ** Reading a JSON text *)

Section reader_facts.
Import JsonRead.
Implicit Types (s r x t rest : string) (c : ascii) (v : json).

Lemma skip_ws_app s x :
  skip_ws s ≠ EmptyString → skip_ws (s +:+ x) = skip_ws s +:+ x.
Proof.
  induction s as [|c s IH]; [done|]. rewrite append_cons. cbn [skip_ws].
  destruct (is_ws c); [done|]. by rewrite append_cons.
Qed.

Lemma next_char_app s x c r :
  next_char s = Some (c, r) → next_char (s +:+ x) = Some (c, r +:+ x).
Proof.
  unfold next_char. intros Hs.
  rewrite skip_ws_app by (intros E; by rewrite E in Hs).
  destruct (skip_ws s) as [|c' r']; [done|]. rewrite append_cons. by injection Hs as -> ->.
Qed.

Lemma next_char_not_ws s c r : next_char s = Some (c, r) → is_ws c = false.
Proof.
  unfold next_char. induction s as [|d s IH]; [done|]. cbn [skip_ws].
  destruct (is_ws d) eqn:E; [done|]. by intros [= <- <-].
Qed.

Lemma next_char_nonempty s c r : next_char s = Some (c, r) → s ≠ EmptyString.
Proof. by intros Hs ->. Qed.

Lemma next_char_cons c s : is_ws c = false → next_char (String c s) = Some (c, s).
Proof. unfold next_char. cbn [skip_ws]. by intros ->. Qed.

Lemma next_char_ws c s : is_ws c = true → next_char (String c s) = next_char s.
Proof. unfold next_char. cbn [skip_ws]. by intros ->. Qed.

Lemma read_string_app_le (n : nat) s x t r :
  (String.length s ≤ n)%nat →
  read_string s = Some (t, r) → read_string (s +:+ x) = Some (t, r +:+ x).
Proof.
  revert s t r. induction n as [|n IH]; intros s t r Hn.
  { destruct s; [done|simpl in Hn; lia]. }
  destruct s as [|c s1]; [done|]. rewrite append_cons. cbn [read_string].
  simpl in Hn.
  case_decide; [by intros [= <- <-]|].
  case_decide.
  - destruct s1 as [|e s2]; [done|]. rewrite append_cons. simpl in Hn.
    destruct (unescape e) as [d|].
    + destruct (read_string s2) as [[t' r']|] eqn:E; [|done].
      intros [= <- <-]. by rewrite (IH s2 t' r') by (done || lia).
    + case_decide; [|done].
      destruct s2 as [|h1 [|h2 [|h3 [|h4 s3]]]]; try done.
      rewrite !append_cons. simpl in Hn.
      destruct (hex_value h1), (hex_value h2), (hex_value h3), (hex_value h4); try done.
      destruct (read_string s3) as [[t' r']|] eqn:E; [|done].
      rewrite (IH s3 t' r') by (done || lia).
      by case_decide; intros [= <- <-].
  - destruct (read_string s1) as [[t' r']|] eqn:E; [|done].
    intros [= <- <-]. by rewrite (IH s1 t' r') by (done || lia).
Qed.

Lemma read_string_app s x t r :
  read_string s = Some (t, r) → read_string (s +:+ x) = Some (t, r +:+ x).
Proof. by apply (read_string_app_le (String.length s)). Qed.

Lemma read_literal_app s x t r :
  read_literal s = (t, r) → r ≠ EmptyString → read_literal (s +:+ x) = (t, r +:+ x).
Proof.
  revert t. induction s as [|c s IH]; intros t; [by intros [= <- <-]|].
  rewrite append_cons. cbn [read_literal].
  destruct (is_delim c); [by intros [= <- <-]|].
  destruct (read_literal s) as [t' r'] eqn:E. intros [= <- <-] Hr.
  by rewrite (IH t' eq_refl Hr).
Qed.

Lemma read_literal_plain t rest :
  plain t = true → closes rest → read_literal (t +:+ rest) = (t, rest).
Proof.
  intros Ht Hrest. induction t as [|c t IH].
  - rewrite append_nil_l. destruct rest as [|d rest]; [done|].
    cbn [read_literal]. simpl in Hrest. by rewrite Hrest.
  - rewrite append_cons. cbn [read_literal]. cbn [plain] in Ht.
    apply andb_true_iff in Ht as [Hc Ht]. apply negb_true_iff in Hc. rewrite Hc.
    by rewrite IH.
Qed.

(** *** More fuel, same value *)

Section containers_mono.
Variables rv rv' : string → option (json * string).
Hypothesis rv_mono : ∀ s p, rv s = Some p → rv' s = Some p.

Lemma read_items_mono fuel fuel' s p :
  (fuel ≤ fuel')%nat → read_items rv fuel s = Some p → read_items rv' fuel' s = Some p.
Proof.
  revert fuel' s p. induction fuel as [|fuel IH]; intros fuel' s p Hle; [done|].
  destruct fuel' as [|fuel']; [lia|]. cbn [read_items].
  destruct (rv s) as [[v r]|] eqn:E; [|done]. rewrite (rv_mono _ _ E).
  destruct (next_char r) as [[c r']|]; [|done].
  case_decide; [|done].
  destruct (read_items rv fuel r') as [[vs r'']|] eqn:E'; [|done].
  by rewrite (IH fuel' _ _ ltac:(lia) E').
Qed.

Lemma read_member_mono s p : read_member rv s = Some p → read_member rv' s = Some p.
Proof.
  unfold read_member. destruct (read_string s) as [[k r]|]; [|done].
  destruct (next_char r) as [[c r']|]; [|done]. case_decide; [|done].
  destruct (rv r') as [[v r'']|] eqn:E; [|done]. by rewrite (rv_mono _ _ E).
Qed.

Lemma read_members_mono fuel fuel' s p :
  (fuel ≤ fuel')%nat → read_members rv fuel s = Some p → read_members rv' fuel' s = Some p.
Proof.
  revert fuel' s p. induction fuel as [|fuel IH]; intros fuel' s p Hle; [done|].
  destruct fuel' as [|fuel']; [lia|]. cbn [read_members].
  destruct (next_char s) as [[q r]|]; [|done]. case_decide; [|done].
  destruct (read_member rv r) as [[m r']|] eqn:E; [|done].
  rewrite (read_member_mono _ _ E).
  destruct (next_char r') as [[c r'']|]; [|done].
  case_decide; [|done].
  destruct (read_members rv fuel r'') as [[ms r3]|] eqn:E'; [|done].
  by rewrite (IH fuel' _ _ ltac:(lia) E').
Qed.

End containers_mono.

Lemma read_value_mono fuel fuel' s p :
  (fuel ≤ fuel')%nat → read_value fuel s = Some p → read_value fuel' s = Some p.
Proof.
  revert fuel' s p. induction fuel as [|fuel IH]; intros fuel' s p Hle; [done|].
  destruct fuel' as [|fuel']; [lia|]. cbn [read_value].
  destruct (next_char s) as [[c r]|]; [|done].
  repeat case_decide; try done.
  - destruct (next_char r) as [[d r']|]; [|done]. case_decide; [done|].
    destruct (read_members _ fuel r) as [[ms r'']|] eqn:E; [|done].
    rewrite (read_members_mono (read_value fuel) (read_value fuel')
               (λ s p, IH fuel' s p ltac:(lia)) fuel fuel' _ _ ltac:(lia) E).
    done.
  - destruct (next_char r) as [[d r']|]; [|done]. case_decide; [done|].
    destruct (read_items _ fuel r) as [[vs r'']|] eqn:E; [|done].
    rewrite (read_items_mono (read_value fuel) (read_value fuel')
               (λ s p, IH fuel' s p ltac:(lia)) fuel fuel' _ _ ltac:(lia) E).
    done.
Qed.

Lemma read_mono fuel fuel' text v :
  (fuel ≤ fuel')%nat → read fuel text = Some v → read fuel' text = Some v.
Proof.
  unfold read. intros Hle.
  destruct (read_value fuel text) as [[v' rest]|] eqn:E; [|done].
  by rewrite (read_value_mono _ _ _ _ Hle E).
Qed.

(** A text has one value at most. *)
Lemma reads_functional text v1 v2 : reads text v1 → reads text v2 → v1 = v2.
Proof.
  intros [f1 H1] [f2 H2].
  apply (read_mono f1 (f1 `max` f2)) in H1; [|lia].
  apply (read_mono f2 (f1 `max` f2)) in H2; [|lia]. congruence.
Qed.

(** *** More text after a value, same value *)

Section containers_app.
Variable rv : string → option (json * string).
Hypothesis rv_app :
  ∀ s v r x, rv s = Some (v, r) → r ≠ EmptyString → rv (s +:+ x) = Some (v, r +:+ x).

Lemma read_items_app fuel s x vs r :
  read_items rv fuel s = Some (vs, r) → read_items rv fuel (s +:+ x) = Some (vs, r +:+ x).
Proof.
  revert s vs r. induction fuel as [|fuel IH]; intros s vs r; [done|]. cbn [read_items].
  destruct (rv s) as [[v r0]|] eqn:E; [|done].
  destruct (next_char r0) as [[c r']|] eqn:E'; [|done].
  rewrite (rv_app _ _ _ x E) by by eapply next_char_nonempty.
  rewrite (next_char_app _ x _ _ E').
  case_decide.
  - destruct (read_items rv fuel r') as [[vs' r'']|] eqn:E''; [|done].
    intros [= <- <-]. by rewrite (IH _ _ _ E'').
  - case_decide; [|done]. by intros [= <- <-].
Qed.

Lemma read_member_app s x m r :
  read_member rv s = Some (m, r) → r ≠ EmptyString →
  read_member rv (s +:+ x) = Some (m, r +:+ x).
Proof.
  unfold read_member. destruct (read_string s) as [[k r0]|] eqn:E; [|done].
  rewrite (read_string_app _ x _ _ E).
  destruct (next_char r0) as [[c r']|] eqn:E'; [|done].
  rewrite (next_char_app _ x _ _ E'). case_decide; [|done].
  destruct (rv r') as [[v r'']|] eqn:E''; [|done].
  intros [= <- <-] Hr. by rewrite (rv_app _ _ _ x E'' Hr).
Qed.

Lemma read_members_app fuel s x ms r :
  read_members rv fuel s = Some (ms, r) →
  read_members rv fuel (s +:+ x) = Some (ms, r +:+ x).
Proof.
  revert s ms r. induction fuel as [|fuel IH]; intros s ms r; [done|]. cbn [read_members].
  destruct (next_char s) as [[q r0]|] eqn:E0; [|done].
  rewrite (next_char_app _ x _ _ E0). case_decide; [|done].
  destruct (read_member rv r0) as [[m r1]|] eqn:E1; [|done].
  destruct (next_char r1) as [[c r2]|] eqn:E2; [|done].
  rewrite (read_member_app _ x _ _ E1) by by eapply next_char_nonempty.
  rewrite (next_char_app _ x _ _ E2).
  case_decide.
  - destruct (read_members rv fuel r2) as [[ms' r3]|] eqn:E3; [|done].
    intros [= <- <-]. by rewrite (IH _ _ _ E3).
  - case_decide; [|done]. by intros [= <- <-].
Qed.

End containers_app.

Lemma read_value_app fuel s x v r :
  read_value fuel s = Some (v, r) → r ≠ EmptyString ∨ (∀ t, v ≠ JLit t) →
  read_value fuel (s +:+ x) = Some (v, r +:+ x).
Proof.
  revert s x v r. induction fuel as [|fuel IH]; intros s x v r; [done|]. cbn [read_value].
  destruct (next_char s) as [[c r0]|] eqn:E0; [|done].
  rewrite (next_char_app _ x _ _ E0).
  assert (∀ s v r x, read_value fuel s = Some (v, r) → r ≠ EmptyString →
            read_value fuel (s +:+ x) = Some (v, r +:+ x)) as IH'.
  { intros s' v' r' x' Hs' Hr'. apply IH; [done|by left]. }
  repeat case_decide.
  - destruct (next_char r0) as [[d r1]|] eqn:E1; [|done].
    rewrite (next_char_app _ x _ _ E1). case_decide; [by intros [= <- <-]|].
    destruct (read_members _ fuel r0) as [[ms r2]|] eqn:E2; [|done].
    intros [= <- <-] _. by rewrite (read_members_app _ IH' _ _ x _ _ E2).
  - destruct (next_char r0) as [[d r1]|] eqn:E1; [|done].
    rewrite (next_char_app _ x _ _ E1). case_decide; [by intros [= <- <-]|].
    destruct (read_items _ fuel r0) as [[vs r2]|] eqn:E2; [|done].
    intros [= <- <-] _. by rewrite (read_items_app _ IH' _ _ x _ _ E2).
  - destruct (read_string r0) as [[t r1]|] eqn:E1; [|done].
    intros [= <- <-] _. by rewrite (read_string_app _ x _ _ E1).
  - destruct (is_delim c); [done|].
    destruct (read_literal (String c r0)) as [t r1] eqn:E1.
    intros [= <- <-] [Hr|Hv]; [|by destruct (Hv t)].
    rewrite <-append_cons. by rewrite (read_literal_app _ x _ _ E1 Hr).
Qed.

(** The first character says whether an object follows. *)
Lemma read_value_object fuel s v r :
  read_value fuel s = Some (v, r) →
  (∃ r0, next_char s = Some ("{"%char, r0)) ↔ (∃ ms, v = JObj ms).
Proof.
  destruct fuel as [|fuel]; [done|]. cbn [read_value].
  destruct (next_char s) as [[c r0]|] eqn:E0; [|done].
  repeat case_decide.
  - subst c. destruct (next_char r0) as [[d r1]|]; [|done].
    case_decide.
    + intros [= <- <-]. split; eauto.
    + destruct (read_members _ fuel r0) as [[ms r2]|]; [|done].
      intros [= <- <-]. split; eauto.
  - destruct (next_char r0) as [[d r1]|]; [|done].
    case_decide.
    + intros [= <- <-]. split; [intros [? [= ? ?]]; done|intros [? ?]; done].
    + destruct (read_items _ fuel r0) as [[ms r2]|]; [|done].
      intros [= <- <-]. split; [intros [? [= ? ?]]; done|intros [? ?]; done].
  - destruct (read_string r0) as [[t r1]|]; [|done].
    intros [= <- <-]. split; [intros [? [= ? ?]]; done|intros [? ?]; done].
  - destruct (is_delim c); [done|].
    destruct (read_literal (String c r0)) as [t r1].
    intros [= <- <-]. split; [intros [? [= ? ?]]; done|intros [? ?]; done].
Qed.

(** No strict prefix of the text of an object is a JSON text. *)
Lemma object_prefix_not_valid fuel text ms (n : nat) :
  read_value fuel text = Some (JObj ms, EmptyString) →
  (n < String.length text)%nat → ¬ valid (PyStr.take_chars n text).
Proof.
  intros Htext Hn (v & fuel' & Hp). unfold read in Hp.
  destruct (read_value fuel' (PyStr.take_chars n text)) as [[v' rest]|] eqn:E; [|done].
  case_decide as Hrest; [|done]. injection Hp as ->.
  pose proof (take_drop_chars n text) as Hsplit.
  assert (PyStr.drop_chars n text ≠ EmptyString) as Hx.
  { intros Hx. apply (f_equal String.length) in Hx. rewrite length_drop_chars in Hx.
    simpl in Hx. lia. }
  assert (∃ ms', v = JObj ms') as [ms' ->].
  { apply (read_value_object _ _ _ _ E).
    destruct (next_char (PyStr.take_chars n text)) as [[c r0]|] eqn:E0.
    - pose proof (next_char_app _ (PyStr.drop_chars n text) _ _ E0) as E1.
      rewrite Hsplit in E1.
      destruct (proj2 (read_value_object _ _ _ _ Htext) (ex_intro _ ms eq_refl)) as [r1 E2].
      rewrite E1 in E2. injection E2 as -> _. eauto.
    - destruct fuel'; [done|]. cbn [read_value] in E. by rewrite E0 in E. }
  apply (read_value_app _ _ (PyStr.drop_chars n text)) in E; [|by right].
  rewrite Hsplit in E.
  apply (read_value_mono fuel' (fuel `max` fuel')) in E; [|lia].
  apply (read_value_mono fuel (fuel `max` fuel')) in Htext; [|lia].
  rewrite E in Htext. injection Htext as _ Hnil.
  destruct rest; [by rewrite append_nil_l in Hnil|by rewrite append_cons in Hnil].
Qed.

(** *** What is written is read back *)

Lemma read_string_escape_char c t :
  read_string (PyJson.escape_char c +:+ t)
  = match read_string t with
    | Some (s, r) => Some (String c s, r)
    | None => None
    end.
Proof. destruct c as [[] [] [] [] [] [] [] []]; reflexivity. Qed.

Lemma read_string_escape s rest :
  read_string (PyJson.escape s +:+ PyJson.quote +:+ rest) = Some (s, rest).
Proof.
  induction s as [|c s IH]; [done|].
  cbn [PyJson.escape]. by rewrite append_assoc, read_string_escape_char, IH.
Qed.

Lemma is_ws_delim c : is_ws c = true → is_delim c = true.
Proof. unfold is_delim. by intros ->. Qed.

Lemma next_char_spaces n s : next_char (PyJson.spaces n +:+ s) = next_char s.
Proof. induction n as [|n IH]; [done|]. cbn [PyJson.spaces]. by rewrite append_cons, next_char_ws. Qed.

Lemma next_char_indent level s : next_char (PyJson.newline_indent level +:+ s) = next_char s.
Proof.
  unfold PyJson.newline_indent. rewrite append_cons, next_char_ws by done.
  apply next_char_spaces.
Qed.

Lemma closes_indent level s : closes (PyJson.newline_indent level +:+ s).
Proof. done. Qed.

Lemma read_value_next fuel s s' : next_char s = next_char s' → read_value fuel s = read_value fuel s'.
Proof. destruct fuel as [|fuel]; [done|]. cbn [read_value]. by intros ->. Qed.

(** A value does not begin with a closing bracket or brace. *)
Lemma read_value_first fuel s p :
  read_value fuel s = Some p →
  ∃ c r, next_char s = Some (c, r) ∧ c ≠ "]"%char ∧ c ≠ "}"%char.
Proof.
  destruct fuel as [|fuel]; [done|]. cbn [read_value].
  destruct (next_char s) as [[c r]|]; [|done]. intros Hp. exists c, r.
  split; [done|]. split; intros ->; by vm_compute in Hp.
Qed.

Lemma reads_as_mono fuel fuel' t v : (fuel ≤ fuel')%nat → reads_as fuel t v → reads_as fuel' t v.
Proof. intros Hle Ht f rest Hf. apply Ht. lia. Qed.

Lemma reads_as_str s : reads_as 1 (PyJson.str s) (JStr s).
Proof.
  intros [|fuel] rest Hf Hrest; [lia|]. unfold PyJson.str.
  rewrite !append_assoc. cbn [read_value].
  change (PyJson.quote +:+ ?x) with (String (ascii_of_nat 34) x).
  rewrite next_char_cons by done.
  rewrite decide_False by done. rewrite decide_False by done. rewrite decide_True by done.
  change (String (ascii_of_nat 34) rest) with (PyJson.quote +:+ rest).
  by rewrite read_string_escape.
Qed.

Lemma reads_as_literal t : literal t → reads_as 1 t (JLit t).
Proof.
  intros [Hne Hplain] [|fuel] rest Hf Hrest; [lia|].
  destruct t as [|c t]; [done|]. rewrite append_cons. cbn [read_value].
  pose proof Hplain as Hc. cbn [plain] in Hc. apply andb_true_iff in Hc as [Hc _].
  apply negb_true_iff in Hc.
  assert (is_ws c = false) as Hws.
  { destruct (is_ws c) eqn:E; [|done]. by rewrite (is_ws_delim c E) in Hc. }
  rewrite next_char_cons by done.
  rewrite decide_False by (intros ->; done).
  rewrite decide_False by (intros ->; done).
  rewrite decide_False.
  2:{ intros E. unfold is_delim in Hc. rewrite E in Hc. by rewrite orb_true_r in Hc. }
  rewrite Hc. rewrite <-append_cons. by rewrite read_literal_plain.
Qed.

Lemma read_items_join fuel loop level (t : string) (ts : list string) v (vs : list json)
    rest :
  Forall2 (reads_as fuel) (t :: ts) (v :: vs) → (length ts < loop)%nat →
  read_items (read_value fuel) loop
    (PyJson.newline_indent (S level)
     +:+ PyStr.join ("," +:+ PyJson.newline_indent (S level)) (t :: ts)
     +:+ PyJson.newline_indent level +:+ "]" +:+ rest)
  = Some (v :: vs, rest).
Proof.
  revert loop t v vs. induction ts as [|t2 ts IH]; intros loop t v vs Hall Hloop.
  - apply Forall2_cons in Hall as [Ht Hts]. apply Forall2_nil_inv_l in Hts as ->.
    destruct loop as [|loop]; [simpl in Hloop; lia|]. cbn [read_items PyStr.join].
    rewrite (read_value_next _ _ _ (next_char_indent _ _)).
    rewrite (Ht fuel _ ltac:(lia) (closes_indent _ _)).
    rewrite next_char_indent. by vm_compute.
  - apply Forall2_cons in Hall as [Ht Hts].
    destruct vs as [|v2 vs]; [by apply Forall2_nil_inv_r in Hts|].
    destruct loop as [|loop]; [simpl in Hloop; lia|]. cbn [read_items].
    rewrite (read_value_next _ _ _ (next_char_indent _ _)).
    change (PyStr.join ?sep (t :: t2 :: ts)) with (t +:+ sep +:+ PyStr.join sep (t2 :: ts)).
    rewrite !append_assoc.
    change ("," +:+ ?x) with (String ","%char x).
    rewrite (Ht fuel _ ltac:(lia)) by done.
    rewrite next_char_cons by done. rewrite decide_True by done.
    rewrite (IH loop t2 v2 vs Hts) by (simpl in Hloop; lia). done.
Qed.

Lemma read_member_text fuel fuel' (k vt : string) v rest :
  reads_as fuel vt v → (fuel ≤ fuel')%nat → closes rest →
  read_member (read_value fuel')
    (PyJson.escape k +:+ PyJson.quote +:+ ": " +:+ vt +:+ rest)
  = Some ((k, v), rest).
Proof.
  intros Hv Hle Hrest. unfold read_member. rewrite read_string_escape.
  change (": " +:+ ?x) with (String ":"%char (String " "%char x)).
  rewrite next_char_cons by done. rewrite decide_True by done.
  rewrite (read_value_next _ _ (vt +:+ rest)) by (by rewrite next_char_ws).
  by rewrite (Hv fuel' rest Hle Hrest).
Qed.

Lemma read_members_join fuel loop level (m : string * string) (ms : list (string * string))
    (mv : string * json) (mvs : list (string * json)) rest :
  Forall2 (λ m mv, m.1 = mv.1 ∧ reads_as fuel m.2 mv.2) (m :: ms) (mv :: mvs) →
  (length ms < loop)%nat →
  read_members (read_value fuel) loop
    (PyJson.newline_indent (S level)
     +:+ PyStr.join ("," +:+ PyJson.newline_indent (S level))
           ((λ kv, PyJson.str kv.1 +:+ ": " +:+ kv.2) <$> m :: ms)
     +:+ PyJson.newline_indent level +:+ "}" +:+ rest)
  = Some (mv :: mvs, rest).
Proof.
  set (f := λ kv : string * string, PyJson.str kv.1 +:+ ": " +:+ kv.2).
  revert loop m mv mvs. induction ms as [|m2 ms IH]; intros loop [k vt] [k' v] mvs Hall Hloop.
  - apply Forall2_cons in Hall as [[Hk Ht] Hts]. apply Forall2_nil_inv_l in Hts as ->.
    cbn in Hk, Ht. subst k'.
    destruct loop as [|loop]; [simpl in Hloop; lia|].
    cbn [read_members PyStr.join fmap list_fmap].
    rewrite next_char_indent. unfold f, PyJson.str. cbn [fst snd]. rewrite !append_assoc.
    change (PyJson.quote +:+ ?x) with (String (ascii_of_nat 34) x) at 1.
    rewrite next_char_cons by done. rewrite decide_True by done.
    rewrite (read_member_text fuel fuel k vt v) by done.
    rewrite next_char_indent. by vm_compute.
  - apply Forall2_cons in Hall as [[Hk Ht] Hts]. cbn in Hk, Ht. subst k'.
    destruct mvs as [|mv2 mvs]; [by apply Forall2_nil_inv_r in Hts|].
    destruct loop as [|loop]; [simpl in Hloop; lia|]. cbn [read_members].
    rewrite next_char_indent.
    rewrite !fmap_cons.
    change (PyStr.join ?sep (?a :: ?b :: ?l)) with (a +:+ sep +:+ PyStr.join sep (b :: l)).
    rewrite <-fmap_cons.
    unfold f at 1. unfold PyJson.str. cbn [fst snd]. rewrite !append_assoc.
    change (PyJson.quote +:+ ?x) with (String (ascii_of_nat 34) x) at 1.
    rewrite next_char_cons by done. rewrite decide_True by done.
    change ("," +:+ ?x) with (String ","%char x).
    rewrite (read_member_text fuel fuel k vt v) by done.
    rewrite next_char_cons by done. rewrite decide_True by done.
    by rewrite (IH loop m2 mv2 mvs Hts ltac:(simpl in Hloop; lia)).
Qed.

Lemma read_items_first fuel loop s p :
  read_items (read_value fuel) loop s = Some p →
  ∃ c r, next_char s = Some (c, r) ∧ c ≠ "]"%char.
Proof.
  destruct loop as [|loop]; [done|]. cbn [read_items].
  destruct (read_value fuel s) as [q|] eqn:E; [|done]. intros _.
  apply read_value_first in E as (c & r & Hc & Hne & _). eauto.
Qed.

Lemma read_members_first rv loop s p :
  read_members rv loop s = Some p →
  ∃ c r, next_char s = Some (c, r) ∧ c ≠ "}"%char.
Proof.
  destruct loop as [|loop]; [done|]. cbn [read_members].
  destruct (next_char s) as [[c r]|]; [|done]. case_decide as Hc; [|done]. intros _.
  exists c, r. split; [done|]. by intros ->.
Qed.

Lemma reads_as_array fuel level (ts : list string) (vs : list json) :
  Forall2 (reads_as fuel) ts vs →
  reads_as (S (fuel `max` length ts)) (PyJson.array level ts) (JArr vs).
Proof.
  intros Hall [|fuel'] rest Hf Hrest; [lia|].
  unfold PyJson.array, PyJson.container. destruct ts as [|t ts].
  - apply Forall2_nil_inv_l in Hall as ->. by vm_compute.
  - destruct vs as [|v vs]; [by apply Forall2_nil_inv_r in Hall|].
    rewrite !append_assoc. change ("[" +:+ ?x) with (String "["%char x).
    cbn [read_value]. rewrite next_char_cons by done.
    rewrite decide_False by done. rewrite decide_True by done.
    assert (Forall2 (reads_as fuel') (t :: ts) (v :: vs)) as Hall'.
    { eapply Forall2_impl; [exact Hall|]. intros t' v' Ht'. eapply reads_as_mono; [|exact Ht'].
      lia. }
    pose proof (read_items_join fuel' fuel' level t ts v vs rest Hall'
                  ltac:(simpl in Hf; lia)) as Hitems.
    destruct (read_items_first _ _ _ _ Hitems) as (c & r & Hc & Hne).
    rewrite Hc. rewrite decide_False by done. by rewrite Hitems.
Qed.

Lemma reads_as_object fuel level (ms : list (string * string)) (mvs : list (string * json)) :
  Forall2 (λ m mv, m.1 = mv.1 ∧ reads_as fuel m.2 mv.2) ms mvs →
  reads_as (S (fuel `max` length ms)) (PyJson.object level ms) (JObj mvs).
Proof.
  intros Hall [|fuel'] rest Hf Hrest; [lia|].
  unfold PyJson.object. destruct ms as [|m ms].
  - apply Forall2_nil_inv_l in Hall as ->. by vm_compute.
  - destruct mvs as [|mv mvs]; [by apply Forall2_nil_inv_r in Hall|].
    change (PyJson.container "{" "}" level (?f <$> m :: ms))
      with ("{" +:+ PyJson.newline_indent (S level)
            +:+ PyStr.join ("," +:+ PyJson.newline_indent (S level)) (f <$> m :: ms)
            +:+ PyJson.newline_indent level +:+ "}").
    rewrite !append_assoc. change ("{" +:+ ?x) with (String "{"%char x).
    cbn [read_value]. rewrite next_char_cons by done.
    rewrite decide_True by done.
    assert (Forall2 (λ m mv, m.1 = mv.1 ∧ reads_as fuel' m.2 mv.2) (m :: ms) (mv :: mvs))
      as Hall'.
    { eapply Forall2_impl; [exact Hall|]. intros m' mv' [Hk Ht']. split; [done|].
      eapply reads_as_mono; [|exact Ht']. lia. }
    pose proof (read_members_join fuel' fuel' level m ms mv mvs rest Hall'
                  ltac:(simpl in Hf; lia)) as Hmembers.
    destruct (read_members_first _ _ _ _ Hmembers) as (c & r & Hc & Hne).
    rewrite Hc. rewrite decide_False by done. by rewrite Hmembers.
Qed.

(** *** Numbers *)

Lemma pretty_N_char_plain (x : N) : is_delim (pretty_N_char x) = false.
Proof. unfold pretty_N_char. by repeat case_match. Qed.

Lemma pretty_N_go_literal (x : N) (s : string) :
  plain s = true → (0 < x)%N ∨ s ≠ EmptyString → literal (pretty_N_go x s).
Proof.
  revert s. induction (N.lt_wf_0 x) as [x _ IH]; intros s Hs Hx.
  assert (x = 0 ∨ 0 < x)%N as [->|Hpos] by lia.
  - rewrite pretty_N_go_0. destruct Hx as [Hx|Hx]; [lia|]. done.
  - rewrite pretty_N_go_step by done. apply IH.
    + by apply N.div_lt.
    + cbn [plain]. by rewrite pretty_N_char_plain, Hs.
    + by right.
Qed.

Lemma pretty_Z_literal (n : Z) : literal (pretty n).
Proof.
  destruct n as [|p|p].
  - done.
  - change (literal (pretty_N_go (N.pos p) EmptyString)). apply pretty_N_go_literal; [done|].
    left. lia.
  - change (literal (String "-"%char (pretty_N_go (N.pos p) EmptyString))).
    destruct (pretty_N_go_literal (N.pos p) EmptyString eq_refl) as [Hne Hplain]; [left; lia|].
    split; [done|]. cbn [plain]. by rewrite Hplain.
Qed.

Lemma reads_as_counts level (d : list (string * Z)) :
  reads_as (S (1 `max` length d)) (PyJson.counts level d) (counts_value d).
Proof.
  unfold PyJson.counts, counts_value.
  pose proof (reads_as_object 1 level ((λ kv, (kv.1, PyJson.int kv.2)) <$> d)
                ((λ kv, (kv.1, JLit (pretty kv.2))) <$> d)) as Hobj.
  rewrite length_fmap in Hobj. apply Hobj.
  apply Forall2_fmap, Forall_Forall2_diag, Forall_forall. intros [k n] _. cbn.
  split; [done|]. apply reads_as_literal, pretty_Z_literal.
Qed.

End reader_facts.

(** ** Dictionaries and counters *)

Section dict_facts.
Context {K : Type} `{EqDecision K}.
Implicit Types (k : K) (c : Counter K) (elems : list K).

Lemma lookup_set {V} k k' (v : V) (d : dict K V) :
  PyDict.lookup k (PyDict.set k' v d) = if decide (k = k') then Some v else PyDict.lookup k d.
Proof.
  induction d as [|[k0 v0] d IH]; simpl.
  - done.
  - destruct (decide (k' = k0)) as [->|Hne]; simpl.
    + by destruct (decide (k = k0)).
    + rewrite IH. destruct (decide (k = k0)) as [->|]; [|done].
      by rewrite decide_False by done.
Qed.

Lemma count_set c k k' v :
  PyDict.count (PyDict.set k' v c) k = if decide (k = k') then v else PyDict.count c k.
Proof. unfold PyDict.count. rewrite lookup_set. by case_decide. Qed.

Lemma keys_set_fresh {V} k (v : V) (d : dict K V) :
  k ∉ PyDict.keys d → PyDict.set k v d = d ++ [(k, v)].
Proof.
  unfold PyDict.keys. induction d as [|[k0 v0] d IH]; simpl; intros Hk.
  - done.
  - apply not_elem_of_cons in Hk as [Hne Hk].
    rewrite decide_False by done. by rewrite IH.
Qed.

Lemma keys_set_present {V} k (v : V) (d : dict K V) :
  k ∈ PyDict.keys d → PyDict.keys (PyDict.set k v d) = PyDict.keys d.
Proof.
  unfold PyDict.keys. induction d as [|[k0 v0] d IH]; simpl; intros Hk.
  - by apply elem_of_nil in Hk.
  - destruct (decide (k = k0)) as [->|Hne]; [done|]. simpl. f_equal.
    apply IH. by apply elem_of_cons in Hk as [|].
Qed.

(** A key is stored at most once: it keeps its place when it is already
    there, and goes last when it is new. *)
Lemma keys_set {V} k (v : V) (d : dict K V) :
  PyDict.keys (PyDict.set k v d)
  = if decide (k ∈ PyDict.keys d) then PyDict.keys d else PyDict.keys d ++ [k].
Proof.
  case_decide as Hk.
  - by apply keys_set_present.
  - rewrite keys_set_fresh by done. unfold PyDict.keys. by rewrite fmap_app.
Qed.

Lemma NoDup_keys_set {V} k (v : V) (d : dict K V) :
  NoDup (PyDict.keys d) → NoDup (PyDict.keys (PyDict.set k v d)).
Proof.
  intros Hd. rewrite keys_set. case_decide as Hk; [done|].
  apply NoDup_app. split_and!; [done| |apply NoDup_singleton].
  intros x Hx ->%list_elem_of_singleton. done.
Qed.

Lemma elem_of_keys_set {V} k k' (v : V) (d : dict K V) :
  k ∈ PyDict.keys (PyDict.set k' v d) ↔ k = k' ∨ k ∈ PyDict.keys d.
Proof.
  rewrite keys_set. case_decide as Hk.
  - split; [by right | by intros [->|]].
  - rewrite elem_of_app, list_elem_of_singleton. tauto.
Qed.

Lemma occurrences_cons k x elems :
  occurrences k (x :: elems)
  = ((if decide (k = x) then 1 else 0) + occurrences k elems)%nat.
Proof. unfold occurrences. rewrite filter_cons. by case_decide. Qed.

Lemma occurrences_singleton k x :
  occurrences k [x] = if decide (k = x) then 1%nat else 0%nat.
Proof. rewrite occurrences_cons. unfold occurrences. simpl. case_decide; lia. Qed.

Lemma occurrences_app k l1 l2 :
  occurrences k (l1 ++ l2) = (occurrences k l1 + occurrences k l2)%nat.
Proof. unfold occurrences. by rewrite filter_app, length_app. Qed.

(** [Counter.update] adds, to the count of every key, the number of its
    occurrences in the batch. *)
Lemma count_update c elems k :
  PyDict.count (PyDict.update c elems) k = PyDict.count c k + Z.of_nat (occurrences k elems).
Proof.
  unfold PyDict.update. revert c. induction elems as [|x elems IH]; intros c; simpl.
  - unfold occurrences. simpl. lia.
  - rewrite IH, count_set, occurrences_cons. case_decide; [subst|]; lia.
Qed.

Lemma NoDup_keys_update c elems :
  NoDup (PyDict.keys c) → NoDup (PyDict.keys (PyDict.update c elems)).
Proof.
  unfold PyDict.update. revert c. induction elems as [|x elems IH]; intros c Hc; simpl.
  - done.
  - by apply IH, NoDup_keys_set.
Qed.

Lemma elem_of_keys_update c elems k :
  k ∈ PyDict.keys (PyDict.update c elems) ↔ k ∈ PyDict.keys c ∨ k ∈ elems.
Proof.
  unfold PyDict.update. revert c. induction elems as [|x elems IH]; intros c; simpl.
  - rewrite elem_of_nil. tauto.
  - rewrite IH, elem_of_keys_set, elem_of_cons. tauto.
Qed.

Lemma count_update_mapping c (m : dict K Z) k :
  PyDict.count (PyDict.update_mapping c m) k = PyDict.count c k + total_for k m.
Proof.
  unfold PyDict.update_mapping. revert c. induction m as [|[k0 v0] m IH]; intros c; simpl.
  - lia.
  - rewrite IH, count_set. simpl. case_decide; [subst|]; lia.
Qed.

Lemma NoDup_keys_update_mapping c (m : dict K Z) :
  NoDup (PyDict.keys c) → NoDup (PyDict.keys (PyDict.update_mapping c m)).
Proof.
  unfold PyDict.update_mapping. revert c. induction m as [|x m IH]; intros c Hc; simpl.
  - done.
  - by apply IH, NoDup_keys_set.
Qed.

End dict_facts.

(** ** [categorize_issues] *)

Lemma existsb_contains_mentions (text : string) (keywords : list string) :
  existsb (λ keyword, PyStr.contains keyword text) keywords = true ↔ mentions text keywords.
Proof.
  rewrite existsb_exists. unfold mentions.
  split; intros (kw & Hin & Hc); exists kw.
  - by rewrite list_elem_of_In, <-contains_spec.
  - by rewrite <-list_elem_of_In, contains_spec.
Qed.

Lemma categorize_issues_count (text : string) (cfg : dict string (list string)) (c : string) :
  PyDict.count (categorize_issues text cfg) c
  = Z.of_nat (length (filter
      (λ ck, c = ck.1 ∧ existsb (λ keyword, PyStr.contains keyword text) ck.2 = true) cfg)).
Proof.
  unfold categorize_issues.
  enough (∀ acc, PyDict.count (fold_left
      (λ categories ck,
         if existsb (λ keyword, PyStr.contains keyword text) ck.2
         then PyDict.update categories [ck.1] else categories) cfg acc) c
    = PyDict.count acc c + Z.of_nat (length (filter
      (λ ck, c = ck.1 ∧ existsb (λ keyword, PyStr.contains keyword text) ck.2 = true) cfg)))
    as Hgen.
  { rewrite Hgen. done. }
  induction cfg as [|[k kws] cfg IH]; intros acc; cbn [fold_left].
  - simpl. lia.
  - rewrite IH, filter_cons. cbn [fst snd].
    destruct (existsb _ kws) eqn:E.
    + rewrite count_update, occurrences_singleton.
      destruct (decide (c = k)) as [->|Hne].
      * rewrite decide_True by done. cbn [length]. rewrite Nat2Z.inj_succ. lia.
      * rewrite decide_False by tauto. lia.
    + rewrite decide_False by (intros [_ ?]; done). lia.
Qed.

(** C8: for every line text and every category of the built-in
    configuration, [categorize_issues] counts the category once when the
    text contains one of its keywords as a case-sensitive substring,
    however many of them match, and not at all otherwise; the tally of
    the run grows by that much. A line can count for no category, for
    one, or for several. *)
Theorem categorize_issues_once :
  (∀ (text : string) (tally : Counter string) (category : string) (keywords : list string),
      (category, keywords) ∈ issue_keywords →
      let found := categorize_issues text issue_keywords in
      (mentions text keywords →
         PyDict.count found category = 1
         ∧ PyDict.count (PyDict.update_mapping tally found) category
           = PyDict.count tally category + 1)
      ∧ (¬ mentions text keywords →
         PyDict.count found category = 0
         ∧ PyDict.count (PyDict.update_mapping tally found) category
           = PyDict.count tally category))
  ∧ categorize_issues "thank you" issue_keywords = []
  ∧ categorize_issues "invoice and payment and charge" issue_keywords = [("billing", 1)]
  ∧ categorize_issues "I have a billing issue, please help" issue_keywords
    = [("billing", 1); ("technical", 1); ("support", 1)]
  ∧ categorize_issues "Billing ISSUE" issue_keywords = [].
Proof.
  split; [|by repeat split].
  intros text tally category keywords Hin found.
  assert (PyDict.count found category
          = if existsb (λ keyword, PyStr.contains keyword text) keywords then 1 else 0)
    as Hfound.
  { subst found. rewrite categorize_issues_count.
    unfold issue_keywords in *.
    repeat (apply elem_of_cons in Hin as [[= -> ->]|Hin]);
      [| | |by apply elem_of_nil in Hin];
      rewrite !filter_cons, filter_nil; cbn [fst snd];
      repeat (rewrite (decide_False (P := _ = _ ∧ _)) by (intros [[=] _]));
      (destruct (existsb _ _) eqn:E;
       [ rewrite decide_True by done | rewrite decide_False by (intros [_ ?]; done) ]);
      done. }
  assert (total_for category found = PyDict.count found category) as Htotal.
  { subst found. unfold categorize_issues, issue_keywords. cbn [fold_left fst snd].
    repeat (destruct (existsb _ _)); unfold PyDict.update; simpl;
      unfold total_for, PyDict.count; simpl;
      repeat case_decide; simplify_eq; done. }
  rewrite count_update_mapping, Htotal, Hfound.
  split; intros Hm.
  - apply existsb_contains_mentions in Hm as ->. done.
  - destruct (existsb _ keywords) eqn:E.
    + by apply existsb_contains_mentions in E.
    + split; [done | lia].
Qed.

Lemma categorize_issues_once_witness :
  PyDict.count (categorize_issues "the payment problem" issue_keywords) "billing" = 1
  ∧ PyDict.count (categorize_issues "the payment problem" issue_keywords) "support" = 0.
Proof.
  destruct categorize_issues_once as [Hall _]. split.
  - refine (proj1 (proj1 (Hall "the payment problem" [] "billing"
              ["invoice"; "billing"; "charge"; "payment"] _) _)).
    + by left.
    + exists "payment". split; [by vm_compute; repeat constructor|].
      by exists "the ", " problem".
  - refine (proj1 (proj2 (Hall "the payment problem" [] "support"
              ["help"; "support"; "service"; "assistance"] _) _)).
    + by right; right; left.
    + rewrite <-existsb_contains_mentions. by vm_compute.
Defined.

(** ** The analysis loop *)

Section fold_facts.
Context {S L K : Type} `{EqDecision K}.
Context (step : S → L → S) (table : S → Counter K) (batch : L → list K).
Hypothesis table_step : ∀ st line, table (step st line) = PyDict.update (table st) (batch line).

Lemma fold_count (lines : list L) (st : S) (k : K) :
  PyDict.count (table (fold_left step lines st)) k
  = PyDict.count (table st) k
    + Z.of_nat (sum_list_with (λ line, occurrences k (batch line)) lines).
Proof.
  revert st. induction lines as [|line lines IH]; intros st; simpl.
  - lia.
  - rewrite IH, table_step, count_update. lia.
Qed.

Lemma fold_NoDup_keys (lines : list L) (st : S) :
  NoDup (PyDict.keys (table st)) → NoDup (PyDict.keys (table (fold_left step lines st))).
Proof.
  revert st. induction lines as [|line lines IH]; intros st Hst; simpl.
  - done.
  - apply IH. rewrite table_step. by apply NoDup_keys_update.
Qed.

Lemma fold_keys (lines : list L) (st : S) (k : K) :
  k ∈ PyDict.keys (table (fold_left step lines st)) →
  k ∈ PyDict.keys (table st) ∨ ∃ line, line ∈ lines ∧ k ∈ batch line.
Proof.
  revert st. induction lines as [|line lines IH]; intros st; simpl.
  - by left.
  - intros Hk. apply IH in Hk as [Hk|(line' & Hin & Hk)].
    + rewrite table_step in Hk. apply elem_of_keys_update in Hk as [Hk|Hk]; [by left|].
      right. exists line. split; [left | done].
    + right. exists line'. split; [by right | done].
Qed.

End fold_facts.

Lemma sum_list_with_take_le {L} (f : L → nat) (lines : list L) (i j : nat) :
  (i ≤ j)%nat → (sum_list_with f (take i lines) ≤ sum_list_with f (take j lines))%nat.
Proof.
  revert i j. induction lines as [|line lines IH]; intros [|i] [|j] Hij; simpl; try lia.
  specialize (IH i j). lia.
Qed.

Lemma sum_list_with_indicator {L} (P : L → Prop) `{∀ x, Decision (P x)} (lines : list L) :
  sum_list_with (λ line, if decide (P line) then 1%nat else 0%nat) lines
  = length (filter P lines).
Proof.
  induction lines as [|line lines IH]; simpl; [done|].
  rewrite filter_cons, IH. by case_decide.
Qed.

Section run_facts.
Context `{Capabilities}.
Implicit Types (st : analysis) (line : string) (nlp : string → list string) (n : Z).

Lemma word_freq_step nlp n st line :
  word_freq (process_line nlp n st line) = PyDict.update (word_freq st) (line_words line).
Proof. unfold process_line, line_words, line_text. by destruct (parse_line line). Qed.

Lemma ngram_freq_step nlp n st line :
  ngram_freq (process_line nlp n st line) = PyDict.update (ngram_freq st) (line_ngrams n line).
Proof.
  unfold process_line, line_ngrams, line_words, line_text.
  destruct (parse_line line) as [ts text]. cbn [ngram_freq snd].
  by rewrite ngrams_yielded.
Qed.

Lemma entity_freq_step nlp n st line :
  entity_freq (process_line nlp n st line)
  = PyDict.update (entity_freq st) (nlp (line_text line)).
Proof. unfold process_line, line_text. by destruct (parse_line line). Qed.

Lemma question_freq_step nlp n st line :
  question_freq (process_line nlp n st line)
  = PyDict.update (question_freq st)
      (if PyStr.contains "?" (line_text line) then [line_text line] else []).
Proof. unfold process_line, line_text. by destruct (parse_line line). Qed.

Lemma resolutions_step nlp n st line :
  resolutions (process_line nlp n st line)
  = PyDict.update (resolutions st)
      (if existsb (λ phrase, PyStr.contains phrase (line_text line)) resolution_phrases
       then [line_text line] else []).
Proof.
  unfold process_line, line_text. destruct (parse_line line) as [ts text].
  cbn [resolutions snd]. by destruct (existsb _ _).
Qed.

Lemma sentiment_time_series_step nlp n st line :
  sentiment_time_series (process_line nlp n st line)
  = sentiment_time_series st ++ option_list (line_point line).
Proof.
  unfold process_line, line_point, line_text, line_timestamp.
  destruct (parse_line line) as [[ts|] text]; simpl; [done|].
  by rewrite app_nil_r.
Qed.

Lemma aggregates_step nlp n st st' line line' :
  aggregates st = aggregates st' → line_text line = line_text line' →
  aggregates (process_line nlp n st line) = aggregates (process_line nlp n st' line').
Proof.
  unfold aggregates, line_text, process_line.
  destruct (parse_line line) as [ts text], (parse_line line') as [ts' text'].
  simpl. by intros [= -> -> -> -> -> ->] ->.
Qed.

Lemma aggregates_fold nlp n lines lines' st st' :
  aggregates st = aggregates st' → line_text <$> lines = line_text <$> lines' →
  aggregates (fold_left (process_line nlp n) lines st)
  = aggregates (fold_left (process_line nlp n) lines' st').
Proof.
  revert lines' st st'. induction lines as [|line lines IH]; intros [|line' lines'] st st' Hst;
    simpl; try done.
  intros [= Hline Hlines]. apply IH; [|done]. by apply aggregates_step.
Qed.

Lemma sentiment_time_series_fold nlp n lines st :
  sentiment_time_series (fold_left (process_line nlp n) lines st)
  = sentiment_time_series st ++ omap line_point lines.
Proof.
  revert st. induction lines as [|line lines IH]; intros st; simpl.
  - by rewrite app_nil_r.
  - rewrite IH, sentiment_time_series_step, <-app_assoc. f_equal.
    by destruct (line_point line).
Qed.

Lemma length_omap_filter {X Y} (f : X → option Y) (l : list X) :
  length (omap f l) = length (filter (λ x, is_Some (f x)) l).
Proof.
  induction l as [|x l IH]; [done|].
  rewrite filter_cons. cbn [omap list_omap]. destruct (f x) as [y|] eqn:E.
  - rewrite decide_True by eauto. simpl. f_equal. exact IH.
  - rewrite decide_False by (by intros [? ?]). exact IH.
Qed.

End run_facts.

Lemma sum_list_with_ext {L} (f g : L → nat) (lines : list L) :
  (∀ line, f line = g line) → sum_list_with f lines = sum_list_with g lines.
Proof. intros Hfg. induction lines as [|line lines IH]; simpl; [done|]. by rewrite Hfg, IH. Qed.

Section count_facts.
Context `{Capabilities}.
Implicit Types (line : string) (nlp : string → list string) (n : Z).

(** The triggered batch of the question and resolution counters holds
    the text of the line, once, when the trigger holds. *)
Lemma occurrences_trigger (trigger : bool) (q text : string) :
  occurrences q (if trigger then [text] else [])
  = if decide (q = text ∧ trigger = true) then 1%nat else 0%nat.
Proof.
  destruct trigger.
  - rewrite occurrences_singleton. destruct (decide (q = text)).
    + by rewrite decide_True.
    + by rewrite decide_False by tauto.
  - by rewrite decide_False by (by intros [_ ?]).
Qed.

Lemma count_word_freq nlp n (lines : list string) (w : string) :
  PyDict.count (word_freq (analyze_lines nlp n lines)) w
  = Z.of_nat (sum_list_with (λ line, occurrences w (line_words line)) lines).
Proof.
  unfold analyze_lines.
  rewrite (fold_count _ word_freq line_words (word_freq_step nlp n)). done.
Qed.

Lemma count_ngram_freq nlp n (lines : list string) (g : list string) :
  PyDict.count (ngram_freq (analyze_lines nlp n lines)) g
  = Z.of_nat (sum_list_with (λ line, occurrences g (line_ngrams n line)) lines).
Proof.
  unfold analyze_lines.
  rewrite (fold_count _ ngram_freq (line_ngrams n) (ngram_freq_step nlp n)). done.
Qed.

Lemma count_entity_freq nlp n (lines : list string) (e : string) :
  PyDict.count (entity_freq (analyze_lines nlp n lines)) e
  = Z.of_nat (sum_list_with (λ line, occurrences e (nlp (line_text line))) lines).
Proof.
  unfold analyze_lines.
  rewrite (fold_count _ entity_freq (λ line, nlp (line_text line)) (entity_freq_step nlp n)).
  done.
Qed.

Lemma count_question_freq nlp n (lines : list string) (q : string) :
  PyDict.count (question_freq (analyze_lines nlp n lines)) q
  = Z.of_nat (length (filter
      (λ line, q = line_text line ∧ PyStr.contains "?" (line_text line) = true) lines)).
Proof.
  unfold analyze_lines.
  rewrite (fold_count _ question_freq _ (question_freq_step nlp n)).
  rewrite <-sum_list_with_indicator. change (PyDict.count [] ?k) with 0.
  rewrite Z.add_0_l. f_equal.
  apply sum_list_with_ext. intros line. apply occurrences_trigger.
Qed.

Lemma count_resolutions nlp n (lines : list string) (r : string) :
  PyDict.count (resolutions (analyze_lines nlp n lines)) r
  = Z.of_nat (length (filter
      (λ line, r = line_text line
               ∧ existsb (λ phrase, PyStr.contains phrase (line_text line))
                   resolution_phrases = true) lines)).
Proof.
  unfold analyze_lines.
  rewrite (fold_count _ resolutions _ (resolutions_step nlp n)).
  rewrite <-sum_list_with_indicator. change (PyDict.count [] ?k) with 0.
  rewrite Z.add_0_l. f_equal.
  apply sum_list_with_ext. intros line. apply occurrences_trigger.
Qed.

Lemma filter_take_length_le {L} (P : L → Prop) `{∀ x, Decision (P x)}
    (lines : list L) (i j : nat) :
  (i ≤ j)%nat → (length (filter P (take i lines)) ≤ length (filter P (take j lines)))%nat.
Proof.
  intros Hij. rewrite <-!sum_list_with_indicator. by apply sum_list_with_take_le.
Qed.

End count_facts.

(** C9: at every point of a run of [analyze_text], that is after any
    number [i] of lines of the file, every count of the five frequency
    tables is the number of contributing occurrences in the lines
    processed so far: occurrences of the word among the cleaned words of
    a line, of the n-gram among the windows of a line, of the entity
    among the entities recognised in the text of a line, and, for the
    question and resolution tables, lines whose text is the key and
    contains a question mark, or one of the resolution phrases. Every
    count is a non-negative integer and none decreases as the run goes
    on. *)
Theorem counts_are_occurrences `{Capabilities}
    (nlp : string → list string) (n : Z) (lines : list string) :
  let after (i : nat) := analyze_lines nlp n (take i lines) in
  (∀ i w, PyDict.count (word_freq (after i)) w
          = Z.of_nat (sum_list_with (λ line, occurrences w (line_words line)) (take i lines)))
  ∧ (∀ i g, PyDict.count (ngram_freq (after i)) g
          = Z.of_nat (sum_list_with (λ line, occurrences g (line_ngrams n line)) (take i lines)))
  ∧ (∀ i e, PyDict.count (entity_freq (after i)) e
          = Z.of_nat (sum_list_with (λ line, occurrences e (nlp (line_text line)))
                        (take i lines)))
  ∧ (∀ i q, PyDict.count (question_freq (after i)) q
          = Z.of_nat (length (filter
              (λ line, q = line_text line ∧ PyStr.contains "?" (line_text line) = true)
              (take i lines))))
  ∧ (∀ i r, PyDict.count (resolutions (after i)) r
          = Z.of_nat (length (filter
              (λ line, r = line_text line
                       ∧ existsb (λ phrase, PyStr.contains phrase (line_text line))
                           resolution_phrases = true)
              (take i lines))))
  ∧ (∀ i w g e q r,
        0 ≤ PyDict.count (word_freq (after i)) w
        ∧ 0 ≤ PyDict.count (ngram_freq (after i)) g
        ∧ 0 ≤ PyDict.count (entity_freq (after i)) e
        ∧ 0 ≤ PyDict.count (question_freq (after i)) q
        ∧ 0 ≤ PyDict.count (resolutions (after i)) r)
  ∧ (∀ i j w g e q r, (i ≤ j)%nat →
        PyDict.count (word_freq (after i)) w ≤ PyDict.count (word_freq (after j)) w
        ∧ PyDict.count (ngram_freq (after i)) g ≤ PyDict.count (ngram_freq (after j)) g
        ∧ PyDict.count (entity_freq (after i)) e ≤ PyDict.count (entity_freq (after j)) e
        ∧ PyDict.count (question_freq (after i)) q ≤ PyDict.count (question_freq (after j)) q
        ∧ PyDict.count (resolutions (after i)) r ≤ PyDict.count (resolutions (after j)) r)
  ∧ (∀ text, PyStr.contains "?" text = true ↔ is_question text)
  ∧ (∀ text, existsb (λ phrase, PyStr.contains phrase text) resolution_phrases = true
             ↔ is_resolution text)
  ∧ after 0%nat = analysis_init
  ∧ (∀ i line, lines !! i = Some line → after (S i) = process_line nlp n (after i) line)
  ∧ (∀ open_file file_path, open_file file_path = Returned lines →
       analyze_text open_file file_path nlp n = ([], Returned (Some (after (length lines))))).
Proof.
  intros after. subst after. cbn beta.
  split_and!.
  - intros. apply count_word_freq.
  - intros. apply count_ngram_freq.
  - intros. apply count_entity_freq.
  - intros. apply count_question_freq.
  - intros. apply count_resolutions.
  - intros. rewrite count_word_freq, count_ngram_freq, count_entity_freq,
      count_question_freq, count_resolutions. lia.
  - intros i j w g e q r Hij.
    rewrite !count_word_freq, !count_ngram_freq, !count_entity_freq,
      !count_question_freq, !count_resolutions.
    split_and!; apply inj_le;
      first [ by apply sum_list_with_take_le | by apply filter_take_length_le ].
  - intros text. apply contains_spec.
  - intros text. apply existsb_contains_mentions.
  - done.
  - intros i line Hi. rewrite (take_S_r _ _ _ Hi).
    unfold analyze_lines. by rewrite fold_left_app.
  - intros open_file file_path Hopen. unfold analyze_text.
    by rewrite Hopen, firstn_all.
Qed.

Lemma counts_are_occurrences_witness :
  let after i :=
    analyze_lines (H := Ascii7.capabilities) Ascii7.no_entities 2 (take i Ascii7.sample_file) in
  PyDict.count (word_freq (after 1%nat)) "billing"
  ≤ PyDict.count (word_freq (after 3%nat)) "billing"
  ∧ PyDict.count (word_freq (after 3%nat)) "billing" = 2.
Proof.
  destruct (counts_are_occurrences (H := Ascii7.capabilities)
              Ascii7.no_entities 2 Ascii7.sample_file)
    as (Hword & _ & _ & _ & _ & _ & Hmono & _).
  split.
  - refine (proj1 (Hmono 1%nat 3%nat "billing" [] "billing" "billing" "billing" _)). lia.
  - rewrite (Hword 3%nat "billing"). reflexivity.
Defined.

(** ** Opening the input file *)

(** C2, as the claim states it, fails: when [open] raises
    [PermissionError] for an unreadable file, [analyze_text] raises it
    to the caller and returns nothing. *)
Lemma analyze_text_unreadable_raises :
  analyze_text (H := Ascii7.capabilities) (λ _, Raised PermissionError) "secret.log"
    Ascii7.no_entities 2
  = ([], Raised PermissionError)
  ∧ analyze_text (H := Ascii7.capabilities) (λ _, Raised PermissionError) "secret.log"
      Ascii7.no_entities 2
    ≠ ([], Returned None).
Proof. by split. Qed.

(** C2, amended: for every file path that does not exist, that is when
    [open] raises [FileNotFoundError], [analyze_text] prints a message and
    returns [None] instead of raising; any other error of [open], such as
    the one of an unreadable file, is raised to the caller. In both cases
    no result is produced. *)
Theorem analyze_text_open_error `{Capabilities}
    (open_file : string → outcome (list string)) (file_path : string)
    (nlp : string → list string) (n : Z) (e : PyExc) :
  open_file file_path = Raised e →
  analyze_text open_file file_path nlp n
  = (if decide (e = FileNotFoundError)
     then (["Error: The file at " +:+ file_path +:+ " was not found."], Returned None)
     else ([], Raised e))
  ∧ ∀ st, (analyze_text open_file file_path nlp n).2 ≠ Returned (Some st).
Proof.
  intros Hopen. unfold analyze_text. rewrite Hopen. by destruct e.
Qed.

Lemma analyze_text_open_error_witness :
  analyze_text (H := Ascii7.capabilities) (λ _, Raised FileNotFoundError) "missing.log"
    Ascii7.no_entities 2
  = (["Error: The file at missing.log was not found."], Returned None).
Proof.
  exact (proj1 (analyze_text_open_error (H := Ascii7.capabilities)
                  (λ _, Raised FileNotFoundError) "missing.log" Ascii7.no_entities 2
                  FileNotFoundError eq_refl)).
Defined.

(** ** The export *)

Section of_items_facts.
Context {K : Type} `{EqDecision K}.

Lemma of_items_app {V} (acc items : dict K V) :
  NoDup (PyDict.keys (acc ++ items)) →
  fold_left (λ d kv, PyDict.set kv.1 kv.2 d) items acc = acc ++ items.
Proof.
  revert acc. induction items as [|[k v] items IH]; intros acc Hnd; simpl.
  - by rewrite app_nil_r.
  - rewrite keys_set_fresh.
    + rewrite IH; rewrite <-app_assoc; done.
    + unfold PyDict.keys in *. rewrite fmap_app in Hnd.
      apply NoDup_app in Hnd as (_ & Hdisj & _).
      intros Hk. apply (Hdisj k Hk). simpl. left.
Qed.

(** A dict built from items of distinct keys holds these items, in
    their order. *)
Lemma of_items_NoDup {V} (items : dict K V) :
  NoDup (PyDict.keys items) → PyDict.of_items items = items.
Proof. intros Hnd. unfold PyDict.of_items. by rewrite of_items_app. Qed.

End of_items_facts.

(** *** Writing the file *)

Lemma length_take_chars (n : nat) (s : string) :
  String.length (PyStr.take_chars n s) = min n (String.length s).
Proof.
  revert n. induction s as [|c s IH]; intros [|n]; simpl; [done..|]. by rewrite IH.
Qed.

Lemma dirname_bare (name : string) :
  PyStr.contains "/" name = false → PyOs.dirname name = EmptyString.
Proof.
  intros Hno. unfold PyOs.dirname.
  assert (PyOs.upto_last_slash name = EmptyString) as ->; [|done].
  destruct name as [|c name]; [done|]. cbn [PyOs.upto_last_slash]. by rewrite Hno.
Qed.

Section save_facts.
Context `{Capabilities}.
Implicit Types (f : PyOs.faults) (data : analysis) (w : PyOs.world) (ld : limited).

Lemma save_to_json_unfold f data output_file save_n w :
  save_to_json f data output_file save_n w
  = match PyOs.makedirs f (PyOs.dirname output_file) w with
    | (w1, Raised e) => (w1, Raised e)
    | (w1, Returned _) =>
        match PyOs.open_w f output_file w1 with
        | (w2, Raised e) => (w2, Raised e)
        | (w2, Returned _) =>
            match PyOs.write_text f output_file (json_text (limited_data data save_n)) w2 with
            | (w3, Raised e) => (w3, Raised e)
            | (w3, Returned _) =>
                PyOs.print ("JSON file saved successfully at " +:+ output_file) w3
            end
        end
    end.
Proof.
  unfold save_to_json, mbind, io_bind, PyOs.bind.
  destruct (PyOs.makedirs _ _ w) as [w1 [[]|e]]; [|done].
  destruct (PyOs.open_w _ _ w1) as [w2 [[]|e]]; [|done].
  by destruct (PyOs.write_text _ _ _ w2) as [w3 [[]|e]].
Qed.

Lemma makedirs_files f name w w' r :
  PyOs.makedirs f name w = (w', r) →
  PyOs.files w' = PyOs.files w ∧ PyOs.stdout w' = PyOs.stdout w
  ∧ match r with
    | Raised _ => w' = w
    | Returned _ => name ≠ EmptyString ∧ name ∈ PyOs.dirs w'
    end.
Proof.
  unfold PyOs.makedirs. repeat case_decide; try (by intros [= <- <-]).
  destruct (PyOs.mkdir_fault f); intros [= <- <-]; [done|].
  cbn [PyOs.dirs PyOs.files PyOs.stdout].
  split_and!; [done..|]. rewrite !elem_of_union, elem_of_singleton. tauto.
Qed.

Lemma open_w_files f path w w' r :
  PyOs.open_w f path w = (w', r) →
  PyOs.stdout w' = PyOs.stdout w ∧ PyOs.dirs w' = PyOs.dirs w
  ∧ match r with
    | Raised _ => w' = w
    | Returned _ =>
        PyOs.files w' = <[path := EmptyString]> (PyOs.files w)
        ∧ (path ∉ PyOs.dirs w) ∧ PyOs.ends_with_slash path = false
    end.
Proof.
  unfold PyOs.open_w. repeat case_decide; try (by intros [= <- <-]).
  destruct (PyOs.open_fault f); [by intros [= <- <-]|].
  destruct (PyOs.ends_with_slash path); by intros [= <- <-].
Qed.

Lemma write_text_files f path text w w' r :
  PyOs.write_text f path text w = (w', r) →
  PyOs.stdout w' = PyOs.stdout w ∧ PyOs.dirs w' = PyOs.dirs w
  ∧ match r with
    | Raised e =>
        e = OSError
        ∧ ∃ n, PyOs.write_limit f = Some n ∧ (n < String.length text)%nat
               ∧ PyOs.files w' = <[path := PyStr.take_chars n text]> (PyOs.files w)
    | Returned _ => PyOs.files w' = <[path := text]> (PyOs.files w)
    end.
Proof.
  unfold PyOs.write_text. destruct (PyOs.write_limit f) as [n|]; [case_decide|];
    intros [= <- <-]; simpl; eauto 10.
Qed.

(** A run that returns has made the directory, written the whole
    document and printed the confirmation. *)
Lemma save_to_json_returned f data output_file save_n w w' :
  save_to_json f data output_file save_n w = (w', Returned ()) →
  PyOs.files w' = <[output_file := json_text (limited_data data save_n)]> (PyOs.files w)
  ∧ PyOs.stdout w' = PyOs.stdout w ++ ["JSON file saved successfully at " +:+ output_file]
  ∧ PyOs.dirname output_file ≠ EmptyString
  ∧ PyOs.dirname output_file ∈ PyOs.dirs w'
  ∧ (output_file ∉ PyOs.dirs w') ∧ PyOs.ends_with_slash output_file = false.
Proof.
  rewrite save_to_json_unfold.
  destruct (PyOs.makedirs f _ w) as [w1 [[]|e1]] eqn:E1; [|done].
  destruct (PyOs.open_w f _ w1) as [w2 [[]|e2]] eqn:E2; [|done].
  destruct (PyOs.write_text f _ _ w2) as [w3 [[]|e3]] eqn:E3; [|done].
  apply makedirs_files in E1 as (Hf1 & Ho1 & Hne & Hd1).
  apply open_w_files in E2 as (Ho2 & Hd2 & Hf2 & Hp & Hp').
  apply write_text_files in E3 as (Ho3 & Hd3 & Hf3).
  intros [= <-]. cbn [PyOs.print PyOs.dirs PyOs.files PyOs.stdout].
  rewrite Hf3, Hf2, insert_insert_eq, Hf1, Hd3, Hd2, Ho3, Ho2, Ho1.
  by split_and!.
Qed.

(** The document is a JSON text: read back, it gives the seven members
    with the entries of [limited_data], in their order. *)
Lemma json_text_reads ld :
  Forall (λ p, JsonRead.literal (float_repr p.2)) (ld_sentiment_time_series ld) →
  ∃ fuel,
    JsonRead.read_value fuel (json_text ld)
    = Some (summary_value (ld_word_freq ld) (ld_ngram_freq ld) (ld_entity_freq ld)
              (ld_question_freq ld) (ld_sentiment_time_series ld) (ld_resolutions ld)
              (ld_issue_categories ld), EmptyString).
Proof.
  intros Hfloat. unfold json_text, summary_value.
  set (F := (4 + length (ld_word_freq ld) + length (ld_ngram_freq ld)
             + length (ld_entity_freq ld) + length (ld_question_freq ld)
             + length (ld_sentiment_time_series ld) + length (ld_resolutions ld)
             + length (ld_issue_categories ld))%nat).
  assert (∀ level (d : list (string * Z)), (length d < F)%nat →
            JsonRead.reads_as F (PyJson.counts level d) (JsonRead.counts_value d)) as Hcounts.
  { intros level d Hd. eapply reads_as_mono; [|apply reads_as_counts]. lia. }
  match goal with
  | |- ∃ fuel, JsonRead.read_value fuel (PyJson.object 0 ?ms) = Some (JsonRead.JObj ?mvs, _) =>
      pose proof (reads_as_object F 0 ms mvs) as Hobj
  end.
  exists (S (F `max` 7)). rewrite <-(append_nil_r (PyJson.object 0 _)).
  apply Hobj; [|done..].
  repeat match goal with |- Forall2 _ _ _ => constructor end;
    (split; [done|]); cbn [snd]; try (apply Hcounts; subst F; lia).
  unfold series_value.
  eapply reads_as_mono; [|apply (reads_as_array 3)].
  - rewrite length_fmap. subst F. lia.
  - apply Forall2_fmap, Forall_Forall2_diag.
    eapply Forall_impl; [exact Hfloat|]. intros [t x] Hx. cbn [fst snd] in *.
    apply (reads_as_array 1 2 [PyJson.str t; float_repr x]
             [JsonRead.JStr t; JsonRead.JLit (float_repr x)]).
    repeat match goal with |- Forall2 _ _ _ => constructor end.
    + apply reads_as_str.
    + by apply reads_as_literal.
Qed.

Lemma json_text_is_read ld :
  Forall (λ p, JsonRead.literal (float_repr p.2)) (ld_sentiment_time_series ld) →
  JsonRead.reads (json_text ld)
    (summary_value (ld_word_freq ld) (ld_ngram_freq ld) (ld_entity_freq ld)
       (ld_question_freq ld) (ld_sentiment_time_series ld) (ld_resolutions ld)
       (ld_issue_categories ld)).
Proof.
  intros [fuel Hread]%json_text_reads. exists fuel. unfold JsonRead.read. by rewrite Hread.
Qed.

(** What a failed write leaves of the document is no JSON text. *)
Lemma json_text_prefix_not_valid ld (n : nat) :
  Forall (λ p, JsonRead.literal (float_repr p.2)) (ld_sentiment_time_series ld) →
  (n < String.length (json_text ld))%nat →
  ¬ JsonRead.valid (PyStr.take_chars n (json_text ld)).
Proof.
  intros [fuel Hread]%json_text_reads Hn. by eapply object_prefix_not_valid.
Qed.

End save_facts.

(** C5 fails on the code for an output path without a directory part:
    [os.path.dirname] gives the empty string, [os.makedirs] refuses it
    with [FileNotFoundError], and [save_to_json] raises before the file is
    opened, whatever the data and the state of the file system, with no
    fault of the operating system. *)
Theorem save_to_json_bare_filename `{Capabilities}
    (f : PyOs.faults) (data : analysis) (output_file : string) (save_n : Z) (w : PyOs.world) :
  PyStr.contains "/" output_file = false →
  save_to_json f data output_file save_n w = (w, Raised FileNotFoundError).
Proof.
  intros Hbare. rewrite save_to_json_unfold, dirname_bare by done. done.
Qed.

Lemma save_to_json_bare_filename_witness :
  save_to_json (H := Ascii7.capabilities) PyOs.no_faults
    (analyze_lines (H := Ascii7.capabilities) Ascii7.no_entities 2 Ascii7.sample_file)
    "summary.json" 10 (PyOs.World ∅ ∅ [])
  = (PyOs.World ∅ ∅ [], Raised FileNotFoundError).
Proof.
  apply (save_to_json_bare_filename (H := Ascii7.capabilities)). reflexivity.
Defined.

Example save_to_json_refused_example :
  (save_to_json (H := Ascii7.capabilities) PyOs.no_faults analysis_init "out/" 5
     (PyOs.World ∅ ∅ [])).2
  = Raised IsADirectoryError
  ∧ (save_to_json (H := Ascii7.capabilities) PyOs.no_faults analysis_init "a/b/c.json" 5
       (PyOs.World ∅ {["a" := "text"]} [])).2
    = Raised NotADirectoryError.
Proof. by vm_compute. Qed.

(** C10: when [save_to_json] is called with K = 0 and returns, the file
    at the output path is a JSON text of seven members: [word_freq],
    [ngram_freq], [entity_freq], [question_freq] and [resolutions] are
    empty objects, [sentiment_time_series] is an empty array, and
    [issue_categories] holds every category of the tally with its count,
    in the order of the tally. The tally is a [Counter]: it holds each
    category once. *)
Theorem save_to_json_zero `{Capabilities}
    (f : PyOs.faults) (data : analysis) (output_file : string) (w w' : PyOs.world) :
  NoDup (PyDict.keys (issue_categories data)) →
  save_to_json f data output_file 0 w = (w', Returned ()) →
  (∃ written,
     PyOs.files w' !! output_file = Some written
     ∧ JsonRead.reads written
         (JsonRead.JObj
            [ ("word_freq", JsonRead.JObj []); ("ngram_freq", JsonRead.JObj []);
              ("entity_freq", JsonRead.JObj []); ("question_freq", JsonRead.JObj []);
              ("sentiment_time_series", JsonRead.JArr []);
              ("resolutions", JsonRead.JObj []);
              ("issue_categories",
                JsonRead.JObj
                  ((λ kv, (kv.1, JsonRead.JLit (pretty kv.2))) <$> issue_categories data)) ]))
  ∧ limited_data data 0 = Limited [] [] [] [] [] [] (issue_categories data)
  ∧ (∀ category, PyDict.lookup category (ld_issue_categories (limited_data data 0))
                 = PyDict.lookup category (issue_categories data))
  ∧ json_text (limited_data data 0)
    = PyJson.object 0
        [ ("word_freq", "{}"); ("ngram_freq", "{}"); ("entity_freq", "{}");
          ("question_freq", "{}"); ("sentiment_time_series", "[]"); ("resolutions", "{}");
          ("issue_categories", PyJson.counts 1 (issue_categories data)) ].
Proof.
  intros Hnd Hrun.
  assert (limited_data data 0 = Limited [] [] [] [] [] [] (issue_categories data)) as E.
  { unfold limited_data, PyDict.most_common.
    by rewrite (of_items_NoDup (issue_categories data)). }
  split; [|by rewrite E].
  apply save_to_json_returned in Hrun as (Hfiles & _).
  exists (json_text (limited_data data 0)). split.
  - by rewrite Hfiles, lookup_insert_eq.
  - rewrite E. by apply (json_text_is_read (Limited [] [] [] [] [] [] (issue_categories data))).
Qed.

Lemma save_to_json_zero_witness :
  let data := analyze_lines (H := Ascii7.capabilities) Ascii7.no_entities 2 Ascii7.sample_file in
  let run := save_to_json (H := Ascii7.capabilities) PyOs.no_faults data "out/summary.json" 0
               (PyOs.World ∅ ∅ []) in
  ∃ written,
    PyOs.files run.1 !! "out/summary.json" = Some written
    ∧ JsonRead.reads written
        (JsonRead.JObj
           [ ("word_freq", JsonRead.JObj []); ("ngram_freq", JsonRead.JObj []);
             ("entity_freq", JsonRead.JObj []); ("question_freq", JsonRead.JObj []);
             ("sentiment_time_series", JsonRead.JArr []);
             ("resolutions", JsonRead.JObj []);
             ("issue_categories",
               JsonRead.JObj
                 [ ("billing", JsonRead.JLit "2"); ("technical", JsonRead.JLit "2");
                   ("support", JsonRead.JLit "1") ]) ]).
Proof.
  intros data run.
  exact (proj1 (save_to_json_zero (H := Ascii7.capabilities) PyOs.no_faults data
                  "out/summary.json" (PyOs.World ∅ ∅ []) run.1
                  ltac:(apply (bool_decide_unpack _); vm_compute; exact I)
                  ltac:(by vm_compute))).
Defined.

(** C4: [save_to_json] neither buffers the document nor writes to a
    temporary file, and yet no failed run leaves the output path with a
    half-written file that reads as JSON. A run that fails during
    directory creation, or when the file is opened, leaves every file as
    it was. A run that fails during the write leaves, at the output
    path, the characters written before the failure: a strict prefix of
    the document; the document is a JSON text and none of its strict
    prefixes is. So whatever a failed run leaves at the output path was
    there before the run or is no JSON text. A failed run prints no
    confirmation.
    The assumption is on the external [repr] of a float: it writes a
    number, that is some characters with no white space, quote, comma,
    colon, bracket or brace among them. *)
Theorem save_to_json_failure `{Capabilities}
    (f : PyOs.faults) (data : analysis) (output_file : string) (save_n : Z)
    (w w' : PyOs.world) (e : PyExc) :
  (∀ x, JsonRead.literal (float_repr x)) →
  save_to_json f data output_file save_n w = (w', Raised e) →
  let doc := json_text (limited_data data save_n) in
  JsonRead.valid doc
  ∧ (∀ n, (n < String.length doc)%nat → ¬ JsonRead.valid (PyStr.take_chars n doc))
  ∧ PyOs.stdout w' = PyOs.stdout w
  ∧ ( ((PyOs.makedirs f (PyOs.dirname output_file) w).2 = Raised e
       ∧ PyOs.files w' = PyOs.files w)
    ∨ (∃ w1, PyOs.makedirs f (PyOs.dirname output_file) w = (w1, Returned ())
             ∧ PyOs.open_w f output_file w1 = (w1, Raised e)
             ∧ PyOs.files w' = PyOs.files w)
    ∨ (∃ n, PyOs.write_limit f = Some n ∧ (n < String.length doc)%nat ∧ e = OSError
            ∧ PyOs.files w' = <[output_file := PyStr.take_chars n doc]> (PyOs.files w)
            ∧ PyOs.files w' !! output_file = Some (PyStr.take_chars n doc)
            ∧ PyStr.take_chars n doc ≠ doc
            ∧ ¬ JsonRead.valid (PyStr.take_chars n doc)) )
  ∧ (∀ left_there, PyOs.files w' !! output_file = Some left_there →
       PyOs.files w !! output_file = Some left_there ∨ ¬ JsonRead.valid left_there).
Proof.
  rewrite save_to_json_unfold. intros Hfloat Hrun doc. subst doc.
  assert (Forall (λ p, JsonRead.literal (float_repr p.2))
            (ld_sentiment_time_series (limited_data data save_n))) as Hseries.
  { apply Forall_forall. intros p _. apply Hfloat. }
  split; [eexists; by apply json_text_is_read|].
  split; [intros n Hn; by apply json_text_prefix_not_valid|].
  destruct (PyOs.makedirs f _ w) as [w1 [[]|e1]] eqn:E1.
  - apply makedirs_files in E1 as (Hf1 & Ho1 & _).
    destruct (PyOs.open_w f _ w1) as [w2 [[]|e2]] eqn:E2.
    + pose proof E2 as E2'. apply open_w_files in E2' as (Ho2 & _ & Hf2 & _).
      destruct (PyOs.write_text f _ _ w2) as [w3 [[]|e3]] eqn:E3.
      * discriminate Hrun.
      * injection Hrun as <- <-.
        apply write_text_files in E3 as (Ho3 & _ & -> & n & Hn & Hlt & Hf3).
        assert (PyOs.files w3
                = <[output_file := PyStr.take_chars n (json_text (limited_data data save_n))]>
                    (PyOs.files w)) as Hf.
        { by rewrite Hf3, Hf2, insert_insert_eq, Hf1. }
        pose proof (json_text_prefix_not_valid _ n Hseries Hlt) as Hinvalid.
        split_and!; [congruence| |].
        -- right. right. exists n. split_and!; [done..| | |done].
           ++ by rewrite Hf, lookup_insert_eq.
           ++ intros Heq. apply (f_equal String.length) in Heq.
              rewrite length_take_chars in Heq. lia.
        -- intros left_there. rewrite Hf, lookup_insert_eq. intros [= <-]. by right.
    + injection Hrun as <- <-.
      pose proof E2 as E2'. apply open_w_files in E2' as (Ho2 & _ & ->).
      split_and!; [done| |].
      * right. left. exists w1. done.
      * intros left_there. rewrite Hf1. by left.
  - injection Hrun as <- <-.
    apply makedirs_files in E1 as (Hf1 & Ho1 & _). split_and!; [done|by left|].
    intros left_there. rewrite Hf1. by left.
Qed.

Lemma save_to_json_failure_witness :
  let w := PyOs.World {["out"]} {["out/summary.json" := "previous"]} [] in
  let run := save_to_json (H := Ascii7.capabilities) (PyOs.Faults None None (Some 1%nat))
               analysis_init "out/summary.json" 0 w in
  PyOs.stdout run.1 = []
  ∧ PyOs.files run.1 !! "out/summary.json" = Some "{"
  ∧ ¬ JsonRead.valid "{".
Proof.
  intros w run.
  destruct (save_to_json_failure (H := Ascii7.capabilities)
              (PyOs.Faults None None (Some 1%nat)) analysis_init "out/summary.json" 0
              w run.1 OSError ltac:(by intros []) ltac:(by vm_compute))
    as (_ & _ & Hout & _ & Hleft).
  split_and!; [exact Hout | by vm_compute |].
  destruct (Hleft "{" ltac:(by vm_compute)) as [Hbefore|Hinvalid]; [|exact Hinvalid].
  by vm_compute in Hbefore.
Defined.

(** ** [most_common] *)

Section sort_facts.
Context {K : Type} `{EqDecision K}.
Implicit Types (x y : K * Z) (l c : list (K * Z)).

Lemma insert_desc_Permutation x l : PyDict.insert_desc x l ≡ₚ x :: l.
Proof.
  induction l as [|y l IH]; simpl; [done|].
  case_decide; [done|]. by rewrite IH, Permutation_swap.
Qed.

Lemma sorted_desc_Permutation c : PyDict.sorted_desc c ≡ₚ c.
Proof.
  unfold PyDict.sorted_desc. induction c as [|x c IH]; simpl; [done|].
  by rewrite insert_desc_Permutation, IH.
Qed.

Lemma insert_desc_sorted x l :
  StronglySorted (λ a b, b.2 ≤ a.2) l →
  StronglySorted (λ a b, b.2 ≤ a.2) (PyDict.insert_desc x l).
Proof.
  induction l as [|y l IH]; simpl; intros Hl.
  - by repeat constructor.
  - apply StronglySorted_cons in Hl as [Hy Hl]. case_decide as Hle.
    + apply StronglySorted_cons. split.
      * constructor; [done|]. eapply Forall_impl; [exact Hy|]. simpl. lia.
      * by apply StronglySorted_cons.
    + apply StronglySorted_cons. split; [|by apply IH].
      rewrite insert_desc_Permutation. constructor; [simpl; lia | done].
Qed.

Lemma sorted_desc_sorted c : StronglySorted (λ a b, b.2 ≤ a.2) (PyDict.sorted_desc c).
Proof.
  unfold PyDict.sorted_desc. induction c as [|x c IH]; simpl; [constructor|].
  by apply insert_desc_sorted.
Qed.

(** The sort is stable: the entries of one count keep their order. *)
Lemma filter_insert_desc (v : Z) x l :
  filter (λ a, a.2 = v) (PyDict.insert_desc x l) = filter (λ a, a.2 = v) (x :: l).
Proof.
  induction l as [|y l IH]; simpl; [done|].
  case_decide as Hle; [done|].
  rewrite (filter_cons _ y), IH, !filter_cons.
  repeat case_decide; try done. lia.
Qed.

Lemma filter_sorted_desc (v : Z) c :
  filter (λ a, a.2 = v) (PyDict.sorted_desc c) = filter (λ a, a.2 = v) c.
Proof.
  unfold PyDict.sorted_desc. induction c as [|x c IH]; simpl; [done|].
  by rewrite filter_insert_desc, !filter_cons, IH.
Qed.

(** [most_common] gives the entries of highest count, ties in the order
    of the table. *)
Lemma most_common_top_k c (n : Z) :
  top_k_of c (Z.to_nat n) (PyDict.most_common c n).
Proof.
  unfold PyDict.most_common, top_k_of.
  pose proof (sorted_desc_Permutation c) as Hperm.
  pose proof (sorted_desc_sorted c) as Hsorted.
  rewrite <-(take_drop (Z.to_nat n) (PyDict.sorted_desc c)) in Hsorted.
  split_and!.
  - by rewrite length_take, Hperm.
  - exists (drop (Z.to_nat n) (PyDict.sorted_desc c)). split.
    + by rewrite take_drop.
    + intros x y Hx Hy.
      by apply (StronglySorted_app_1_elem_of _ _ _ x y Hsorted).
  - by eapply StronglySorted_app_1_l.
  - intros v. rewrite <-(filter_sorted_desc v c).
    rewrite <-(take_drop (Z.to_nat n) (PyDict.sorted_desc c)) at 2.
    rewrite filter_app. by eexists.
Qed.

Lemma most_common_NoDup_keys c (n : Z) :
  NoDup (PyDict.keys c) → NoDup (PyDict.keys (PyDict.most_common c n)).
Proof.
  intros Hnd. unfold PyDict.most_common, PyDict.keys in *.
  rewrite <-(sorted_desc_Permutation c),
    <-(take_drop (Z.to_nat n) (PyDict.sorted_desc c)), fmap_app in Hnd.
  by apply NoDup_app in Hnd as (Hnd & _).
Qed.

Lemma most_common_keys c (n : Z) k :
  k ∈ PyDict.keys (PyDict.most_common c n) → k ∈ PyDict.keys c.
Proof.
  unfold PyDict.most_common, PyDict.keys. intros Hk.
  apply list_elem_of_fmap in Hk as (kv & -> & Hin).
  apply list_elem_of_fmap. exists kv. split; [done|].
  rewrite <-(sorted_desc_Permutation c). by eapply subseteq_take.
Qed.

(** What [dict(c.most_common(n))] holds. *)
Lemma of_items_most_common c (n : Z) :
  NoDup (PyDict.keys c) →
  PyDict.of_items (PyDict.most_common c n) = PyDict.most_common c n.
Proof. intros Hnd. by apply of_items_NoDup, most_common_NoDup_keys. Qed.

End sort_facts.

(** *** The selection is determined

    [top_k_of] leaves no choice: two selections from one table are the
    same list. *)

Lemma desc_counts_unique (a b ra rb : list Z) :
  length a = length b →
  StronglySorted (λ x y, y ≤ x) a → StronglySorted (λ x y, y ≤ x) b →
  a ++ ra ≡ₚ b ++ rb →
  (∀ x y, x ∈ a → y ∈ ra → y ≤ x) → (∀ x y, x ∈ b → y ∈ rb → y ≤ x) →
  a = b.
Proof.
  revert b. induction a as [|x a IH]; intros [|y b] Hlen Ha Hb Hperm Hra Hrb;
    try done.
  apply StronglySorted_cons in Ha as [Hxa Ha].
  apply StronglySorted_cons in Hb as [Hyb Hb].
  assert (∀ l r z, Forall (λ u, u ≤ z) l → (∀ u, u ∈ r → u ≤ z) →
                   ∀ u, u ∈ (z :: l) ++ r → u ≤ z) as Htop.
  { intros l r z Hl Hr u Hu. rewrite Forall_forall in Hl.
    apply elem_of_app in Hu as [Hu|Hu]; [|by apply Hr].
    apply elem_of_cons in Hu as [->|Hu]; [lia | by apply Hl]. }
  assert (x = y) as <-.
  { apply Z.le_antisymm.
    - apply (Htop b rb y Hyb); [intros u Hu; apply (Hrb y u); [left|done]|].
      rewrite <-Hperm. left.
    - apply (Htop a ra x Hxa); [intros u Hu; apply (Hra x u); [left|done]|].
      rewrite Hperm. left. }
  f_equal. apply IH; [by injection Hlen|done..| | |].
  - by apply (Permutation_cons_inv (a := x)).
  - intros u v Hu Hv. apply Hra; [by right|done].
  - intros u v Hu Hv. apply Hrb; [by right|done].
Qed.

Section top_k_unique.
Context {K : Type}.
Implicit Types (s c : list (K * Z)).

Lemma filter_count_length (v : Z) s :
  length (filter (λ x, x.2 = v) s) = length (filter (v =.) s.*2).
Proof.
  induction s as [|x s IH]; [done|]. rewrite fmap_cons, !filter_cons.
  destruct (decide (x.2 = v)) as [E|E].
  - rewrite decide_True by done. simpl. by rewrite IH.
  - by rewrite decide_False by done.
Qed.

Lemma filters_determine s1 s2 :
  s1.*2 = s2.*2 →
  (∀ v : Z, filter (λ x, x.2 = v) s1 = filter (λ x, x.2 = v) s2) →
  s1 = s2.
Proof.
  revert s2. induction s1 as [|x s1 IH]; intros [|y s2] Hcounts Hfilter; try done.
  rewrite !fmap_cons in Hcounts. injection Hcounts as Hxy Hcounts.
  assert (x = y) as <-.
  { specialize (Hfilter x.2). rewrite !filter_cons in Hfilter.
    rewrite decide_True in Hfilter by done. rewrite decide_True in Hfilter by done.
    by injection Hfilter. }
  f_equal. apply IH; [done|]. intros v. specialize (Hfilter v).
  rewrite !filter_cons in Hfilter. by case_decide; simplify_eq.
Qed.

Lemma top_k_of_unique c (k : nat) s1 s2 :
  top_k_of c k s1 → top_k_of c k s2 → s1 = s2.
Proof.
  intros (Hlen1 & (r1 & Hperm1 & Hrest1) & Hsort1 & Hties1)
         (Hlen2 & (r2 & Hperm2 & Hrest2) & Hsort2 & Hties2).
  assert (s1.*2 = s2.*2) as Hcounts.
  { apply (desc_counts_unique _ _ r1.*2 r2.*2).
    - rewrite !length_fmap. congruence.
    - eapply StronglySorted_fmap; [|exact Hsort1]. done.
    - eapply StronglySorted_fmap; [|exact Hsort2]. done.
    - by rewrite <-!fmap_app, Hperm1, Hperm2.
    - intros x y (px & -> & Hx)%list_elem_of_fmap (py & -> & Hy)%list_elem_of_fmap.
      by apply Hrest1.
    - intros x y (px & -> & Hx)%list_elem_of_fmap (py & -> & Hy)%list_elem_of_fmap.
      by apply Hrest2. }
  apply filters_determine; [done|]. intros v.
  destruct (Hties1 v) as [k1 E1], (Hties2 v) as [k2 E2].
  assert (length (filter (λ x, x.2 = v) s1) = length (filter (λ x, x.2 = v) s2)) as Hl.
  { by rewrite !filter_count_length, Hcounts. }
  rewrite <-(take_app_length (filter (λ x, x.2 = v) s1) k1), <-E1, Hl, E2.
  by rewrite take_app_length.
Qed.

End top_k_unique.

(** ** [ngram_to_string] *)

Lemma no_underscore_cons (c : ascii) (s : string) :
  PyStr.contains "_" (String c s) = false ↔ c ≠ "_"%char ∧ PyStr.contains "_" s = false.
Proof.
  rewrite contains_char_cons, orb_false_iff, bool_decide_eq_false. split; intros [? ?]; split; congruence.
Qed.

Lemma append_underscore_inj (a b u v : string) :
  PyStr.contains "_" a = false → PyStr.contains "_" b = false →
  a +:+ "_" +:+ u = b +:+ "_" +:+ v → a = b ∧ u = v.
Proof.
  revert b. induction a as [|c a IH]; intros [|c' b] Ha Hb E.
  - change (String "_" u = String "_" v) in E. by injection E as ->.
  - change (String "_" u = String c' (b +:+ "_" +:+ v)) in E. injection E as <- _.
    by apply no_underscore_cons in Hb as [? _].
  - change (String c (a +:+ "_" +:+ u) = String "_" v) in E. injection E as -> _.
    by apply no_underscore_cons in Ha as [? _].
  - change (String c (a +:+ "_" +:+ u) = String c' (b +:+ "_" +:+ v)) in E.
    injection E as -> E.
    apply no_underscore_cons in Ha as [_ Ha]. apply no_underscore_cons in Hb as [_ Hb].
    destruct (IH b Ha Hb E) as [-> ->]. done.
Qed.

(** Tuples of one length whose words have no underscore are told apart
    by their joined form. *)
Lemma join_underscore_inj (l1 l2 : list string) :
  length l1 = length l2 →
  Forall (λ w, PyStr.contains "_" w = false) l1 →
  Forall (λ w, PyStr.contains "_" w = false) l2 →
  PyStr.join "_" l1 = PyStr.join "_" l2 → l1 = l2.
Proof.
  revert l2. induction l1 as [|x l1 IH]; intros [|y l2] Hlen H1 H2 E; try done.
  apply Forall_cons in H1 as [Hx H1]. apply Forall_cons in H2 as [Hy H2].
  destruct l1 as [|x' l1], l2 as [|y' l2]; try (simpl in Hlen; lia).
  - simpl in E. by subst.
  - cbn [PyStr.join] in E.
    apply (append_underscore_inj x y) in E as [-> E]; [|done..].
    f_equal. apply IH; [simpl in *; lia|done..].
Qed.

Section ngram_keys.
Context `{Capabilities}.
Hypothesis isalpha_no_underscore : ∀ w, str_isalpha w = true → PyStr.contains "_" w = false.

Lemma line_words_alpha line w : w ∈ line_words line → PyStr.contains "_" w = false.
Proof.
  unfold line_words, tokenize_and_clean. intros Hw.
  apply list_elem_of_filter in Hw as [[_ Halpha] _]. by apply isalpha_no_underscore.
Qed.

Lemma line_ngrams_shape (n : Z) line g :
  g ∈ line_ngrams n line →
  length g = Z.to_nat n ∧ Forall (λ w, PyStr.contains "_" w = false) g.
Proof.
  unfold line_ngrams. case_decide as Hn; [|by intros ?%elem_of_nil].
  intros Hg. apply list_elem_of_fmap in Hg as (i & -> & Hi). apply elem_of_seq in Hi.
  split.
  - rewrite length_take, length_drop. lia.
  - apply Forall_forall. intros w Hw. apply (line_words_alpha line).
    by eapply subseteq_drop, subseteq_take.
Qed.

Lemma ngram_keys_shape nlp (n : Z) (lines : list string) g :
  g ∈ PyDict.keys (ngram_freq (analyze_lines nlp n lines)) →
  length g = Z.to_nat n ∧ Forall (λ w, PyStr.contains "_" w = false) g.
Proof.
  unfold analyze_lines. intros Hg.
  apply (fold_keys _ ngram_freq (line_ngrams n) (ngram_freq_step nlp n)) in Hg
    as [Hg|(line & _ & Hg)].
  - by apply elem_of_nil in Hg.
  - by eapply line_ngrams_shape.
Qed.

(** The n-gram keys of a run are written to distinct JSON keys. *)
Lemma ngram_keys_rendered_NoDup nlp (n : Z) (lines : list string) (save_n : Z) :
  NoDup (PyDict.keys
           ((λ kv, (ngram_to_string kv.1, kv.2))
              <$> PyDict.most_common (ngram_freq (analyze_lines nlp n lines)) save_n)).
Proof.
  unfold PyDict.keys. rewrite <-list_fmap_compose.
  change (fst ∘ _) with (ngram_to_string ∘ (fst : list string * Z → list string)).
  rewrite list_fmap_compose. apply NoDup_fmap_2_strong.
  - intros g1 g2 Hg1%most_common_keys Hg2%most_common_keys E.
    apply ngram_keys_shape in Hg1 as [Hl1 Hw1]. apply ngram_keys_shape in Hg2 as [Hl2 Hw2].
    apply join_underscore_inj; [congruence|done..].
  - apply most_common_NoDup_keys. unfold analyze_lines.
    apply (fold_NoDup_keys _ ngram_freq (line_ngrams n) (ngram_freq_step nlp n)).
    constructor.
Qed.

End ngram_keys.

Section run_keys.
Context `{Capabilities}.

(** Every table of a run holds a key once. *)
Lemma analyze_lines_NoDup_keys nlp (n : Z) (lines : list string) :
  let data := analyze_lines nlp n lines in
  NoDup (PyDict.keys (word_freq data)) ∧ NoDup (PyDict.keys (ngram_freq data))
  ∧ NoDup (PyDict.keys (entity_freq data)) ∧ NoDup (PyDict.keys (question_freq data))
  ∧ NoDup (PyDict.keys (resolutions data)).
Proof.
  unfold analyze_lines. split_and!.
  - apply (fold_NoDup_keys _ word_freq _ (word_freq_step nlp n)). constructor.
  - apply (fold_NoDup_keys _ ngram_freq _ (ngram_freq_step nlp n)). constructor.
  - apply (fold_NoDup_keys _ entity_freq _ (entity_freq_step nlp n)). constructor.
  - apply (fold_NoDup_keys _ question_freq _ (question_freq_step nlp n)). constructor.
  - apply (fold_NoDup_keys _ resolutions _ (resolutions_step nlp n)). constructor.
Qed.

End run_keys.

Lemma analyze_text_returned `{Capabilities}
    (open_file : string → outcome (list string)) (file_path : string)
    (nlp : string → list string) (n : Z) (printed : list string) (data : analysis) :
  analyze_text open_file file_path nlp n = (printed, Returned (Some data)) →
  ∃ lines, open_file file_path = Returned lines ∧ data = analyze_lines nlp n lines.
Proof.
  unfold analyze_text. destruct (open_file file_path) as [lines|e].
  - intros [= _ <-]. by exists lines.
  - by destruct e.
Qed.

(** C1: for the word, n-gram, entity, question and resolution tables of
    a result of [analyze_text] and every K >= 0, a call of [save_to_json]
    that returns has written, at the output path, a JSON text whose
    members [word_freq], [ngram_freq], [entity_freq], [question_freq] and
    [resolutions] hold min(K, number of keys) entries of the table each:
    the K entries of highest count, in descending order of count, with
    the entries of equal count taken and ordered as they were first seen.
    Every entry is written as its key with its count; the n-gram entries
    are written under their joined keys, which are distinct. The
    assumptions are on two external routines: [str.isalpha] rejects a
    word with an underscore, and [repr] of a float writes a number, that
    is some characters with no white space, quote, comma, colon, bracket
    or brace among them. *)
Theorem save_to_json_top_k `{Capabilities}
    (open_file : string → outcome (list string)) (file_path : string)
    (nlp : string → list string) (n : Z) (printed : list string) (data : analysis)
    (save_n : Z) (f : PyOs.faults) (output_file : string) (fs fs' : PyOs.world) :
  (∀ w, str_isalpha w = true → PyStr.contains "_" w = false) →
  (∀ x, JsonRead.literal (float_repr x)) →
  analyze_text open_file file_path nlp n = (printed, Returned (Some data)) →
  0 ≤ save_n →
  save_to_json f data output_file save_n fs = (fs', Returned ()) →
  let k := Z.to_nat save_n in
  ∃ words ngrams entities questions resolved written,
    (top_k_of (word_freq data) k words ∧ NoDup (PyDict.keys (word_freq data)))
    ∧ (top_k_of (ngram_freq data) k ngrams
       ∧ length ngrams = min k (length (ngram_freq data))
       ∧ NoDup (PyDict.keys ((λ kv, (PyStr.join "_" kv.1, kv.2)) <$> ngrams))
       ∧ NoDup (PyDict.keys (ngram_freq data)))
    ∧ (top_k_of (entity_freq data) k entities ∧ NoDup (PyDict.keys (entity_freq data)))
    ∧ (top_k_of (question_freq data) k questions
       ∧ NoDup (PyDict.keys (question_freq data)))
    ∧ (top_k_of (resolutions data) k resolved ∧ NoDup (PyDict.keys (resolutions data)))
    ∧ PyOs.files fs' !! output_file = Some written
    ∧ JsonRead.reads written
        (summary_value words ((λ kv, (PyStr.join "_" kv.1, kv.2)) <$> ngrams) entities
           questions (slice_to (sentiment_time_series data) save_n) resolved
           (PyDict.of_items (issue_categories data)))
    ∧ limited_data data save_n
      = Limited words ((λ kv, (PyStr.join "_" kv.1, kv.2)) <$> ngrams) entities questions
          (slice_to (sentiment_time_series data) save_n) resolved
          (PyDict.of_items (issue_categories data)).
Proof.
  intros Halpha Hfloat Hrun Hk Hsave k. subst k.
  apply analyze_text_returned in Hrun as (lines & _ & ->).
  destruct (analyze_lines_NoDup_keys nlp n lines) as (Hw & Hg & He & Hq & Hr).
  pose proof (ngram_keys_rendered_NoDup Halpha nlp n lines save_n) as Hnd.
  set (data := analyze_lines nlp n lines) in *.
  assert (limited_data data save_n
          = Limited (PyDict.most_common (word_freq data) save_n)
              ((λ kv, (PyStr.join "_" kv.1, kv.2))
                 <$> PyDict.most_common (ngram_freq data) save_n)
              (PyDict.most_common (entity_freq data) save_n)
              (PyDict.most_common (question_freq data) save_n)
              (slice_to (sentiment_time_series data) save_n)
              (PyDict.most_common (resolutions data) save_n)
              (PyDict.of_items (issue_categories data))) as E.
  { unfold limited_data. rewrite !of_items_most_common by done.
    by rewrite (of_items_NoDup _ Hnd). }
  apply save_to_json_returned in Hsave as (Hfiles & _).
  exists (PyDict.most_common (word_freq data) save_n),
    (PyDict.most_common (ngram_freq data) save_n),
    (PyDict.most_common (entity_freq data) save_n),
    (PyDict.most_common (question_freq data) save_n),
    (PyDict.most_common (resolutions data) save_n),
    (json_text (limited_data data save_n)).
  split_and!; try done; try apply most_common_top_k.
  - by rewrite Hfiles, lookup_insert_eq.
  - rewrite E. apply (json_text_is_read (Limited _ _ _ _ _ _ _)).
    apply Forall_forall. intros p _. apply Hfloat.
Qed.

Lemma save_to_json_top_k_witness :
  let data := analyze_lines (H := Ascii7.capabilities) Ascii7.no_entities 2 Ascii7.sample_file in
  let run := save_to_json (H := Ascii7.capabilities) PyOs.no_faults data "out/summary.json" 2
               (PyOs.World ∅ ∅ []) in
  ∃ written,
    PyOs.files run.1 !! "out/summary.json" = Some written
    ∧ JsonRead.reads written
        (summary_value (H := Ascii7.capabilities)
           [("billing", 2); ("issue", 2)] [("billing_issue", 2); ("issue_help", 1)] []
           [("is the billing issue fixed ?", 1)]
           [("2024-01-01T10:00:00", ()); ("2024-01-01T10:05:00", ())]
           [("is the billing issue fixed ?", 1)]
           [("billing", 2); ("technical", 2); ("support", 1)])
    ∧ top_k_of (word_freq data) 2 [("billing", 2); ("issue", 2)].
Proof.
  intros data run.
  assert (∀ w, Ascii7.isalpha w = true → PyStr.contains "_" w = false) as Halpha.
  { intros w. destruct w as [|c w]; [done|]. unfold Ascii7.isalpha.
    generalize (String c w). clear. intros w. induction w as [|c w IH]; [done|].
    cbn [Ascii7.all_chars]. rewrite andb_true_iff. intros [Hc Hw].
    apply no_underscore_cons. split; [|by apply IH].
    intros ->. by vm_compute in Hc. }
  destruct (save_to_json_top_k (H := Ascii7.capabilities)
              (λ _, Returned Ascii7.sample_file) "support.log" Ascii7.no_entities 2 []
              data 2 PyOs.no_faults "out/summary.json" (PyOs.World ∅ ∅ []) run.1
              Halpha ltac:(by intros []) eq_refl ltac:(lia) ltac:(by vm_compute))
    as (words & ngrams & entities & questions & resolved & written
        & (Hwords & _) & _ & _ & _ & _ & Hfile & Hreads & E).
  exists written.
  pose proof (f_equal ld_word_freq E) as Ew.
  pose proof (f_equal ld_ngram_freq E) as Eg.
  pose proof (f_equal ld_entity_freq E) as Ee.
  pose proof (f_equal ld_question_freq E) as Eq.
  pose proof (f_equal ld_resolutions E) as Er.
  cbn [ld_word_freq ld_ngram_freq ld_entity_freq ld_question_freq ld_resolutions]
    in Ew, Eg, Ee, Eq, Er.
  rewrite <-Ew, <-Eg, <-Ee, <-Eq, <-Er in Hreads. rewrite <-Ew in Hwords.
  split_and!; [exact Hfile | exact Hreads | exact Hwords].
Defined.

(** * Further properties of the code *)

(** ** [split] and [parse_line] *)

Lemma prefix_char_cons (c d : ascii) (s : string) :
  String.prefix (String c EmptyString) (String d s) = bool_decide (c = d).
Proof.
  simpl. destruct (ascii_dec c d) as [->|Hne].
  - rewrite bool_decide_eq_true_2 by done. by destruct s.
  - by rewrite bool_decide_eq_false_2.
Qed.

Lemma partition_char_first (c : ascii) (before after : string) :
  PyStr.contains (String c EmptyString) before = false →
  PyStr.partition (String c EmptyString) (before +:+ String c after) = Some (before, after).
Proof.
  induction before as [|d before IH]; intros Hno.
  - rewrite append_nil_l. cbn [PyStr.partition]. rewrite prefix_char_cons.
    by rewrite bool_decide_eq_true_2.
  - rewrite contains_char_cons in Hno. apply orb_false_iff in Hno as [Hd Hno].
    rewrite append_cons. cbn [PyStr.partition]. rewrite prefix_char_cons, Hd.
    by rewrite IH.
Qed.

Lemma partition_char_None (c : ascii) (s : string) :
  PyStr.contains (String c EmptyString) s = false →
  PyStr.partition (String c EmptyString) s = None.
Proof.
  induction s as [|d s IH]; intros Hno; [done|].
  rewrite contains_char_cons in Hno. apply orb_false_iff in Hno as [Hd Hno].
  cbn [PyStr.partition]. rewrite prefix_char_cons, Hd. by rewrite IH.
Qed.

Lemma contains_char_split (c : ascii) (s : string) :
  PyStr.contains (String c EmptyString) s = true →
  ∃ before after, s = before +:+ String c after
                  ∧ PyStr.contains (String c EmptyString) before = false.
Proof.
  induction s as [|d s IH]; intros Hc; [done|].
  rewrite contains_char_cons in Hc. destruct (decide (c = d)) as [->|Hne].
  - by exists EmptyString, s.
  - rewrite bool_decide_eq_false_2 in Hc by done.
    destruct (IH Hc) as (before & after & -> & Hno).
    exists (String d before), after. split; [done|].
    by rewrite contains_char_cons, bool_decide_eq_false_2, Hno.
Qed.

(** X1: [line.split(sep, 1)] for a one-character separator gives one
    part, the line itself, when the separator does not occur, and
    otherwise two parts: the text before the first separator, which has
    none, and all the text after it, later separators included. Joining
    the parts with the separator gives the line back. *)
Theorem split1_first_separator (c : ascii) (s : string) :
  let sep := String c EmptyString in
  PyStr.join sep (PyStr.split1 sep s) = s
  ∧ (PyStr.contains sep s = false → PyStr.split1 sep s = [s])
  ∧ (PyStr.contains sep s = true →
       ∃ before after, PyStr.split1 sep s = [before; after]
                       ∧ s = before +:+ sep +:+ after
                       ∧ PyStr.contains sep before = false)
  ∧ (∀ before after, PyStr.contains sep before = false →
       PyStr.split1 sep (before +:+ sep +:+ after) = [before; after]).
Proof.
  intros sep. subst sep.
  assert (∀ before after, PyStr.contains (String c EmptyString) before = false →
            PyStr.split1 (String c EmptyString) (before +:+ String c after)
            = [before; after]) as Hsplit.
  { intros before after Hno. unfold PyStr.split1. by rewrite partition_char_first. }
  assert (PyStr.contains (String c EmptyString) s = false →
            PyStr.split1 (String c EmptyString) s = [s]) as Hnone.
  { intros Hno. unfold PyStr.split1. by rewrite partition_char_None. }
  split_and!; [|done| |done].
  - destruct (PyStr.contains (String c EmptyString) s) eqn:Hc.
    + apply contains_char_split in Hc as (before & after & -> & Hno).
      by rewrite Hsplit.
    + by rewrite Hnone.
  - intros Hc. apply contains_char_split in Hc as (before & after & -> & Hno).
    exists before, after. by rewrite Hsplit.
Qed.

Lemma split1_first_separator_witness :
  PyStr.split1 "|" "2024-01-01 10:00:00 | a | b" = ["2024-01-01 10:00:00 "; " a | b"].
Proof.
  destruct (split1_first_separator "|" "2024-01-01 10:00:00 | a | b")
    as (_ & _ & _ & Hsplit).
  exact (Hsplit "2024-01-01 10:00:00 " " a | b" eq_refl).
Defined.

(** X2: [parse_line] gives a timestamp only when the line has a bar and
    the stripped text before the first bar parses as a timestamp; the
    text is then the stripped rest of the line, later bars included. In
    every other case, no bar or a text before the first bar that is not a
    timestamp, the timestamp is absent and the text is the whole stripped
    line, with what stands before the bar and the bar itself. *)
Theorem parse_line_cases `{Capabilities} (line : string) :
  (PyStr.contains "|" line = false → parse_line line = (None, str_strip line))
  ∧ (∀ before after, line = before +:+ "|" +:+ after →
       PyStr.contains "|" before = false →
       parse_line line
       = match strptime (str_strip before) with
         | Some timestamp => (Some timestamp, str_strip after)
         | None => (None, str_strip line)
         end)
  ∧ (∀ timestamp text, parse_line line = (Some timestamp, text) →
       ∃ before after, line = before +:+ "|" +:+ after
                       ∧ PyStr.contains "|" before = false
                       ∧ strptime (str_strip before) = Some timestamp
                       ∧ text = str_strip after)
  ∧ ((parse_line line).1 = None → (parse_line line).2 = str_strip line).
Proof.
  assert (PyStr.contains "|" line = false → parse_line line = (None, str_strip line))
    as Hnone.
  { intros Hno. unfold parse_line, PyStr.split1. by rewrite partition_char_None. }
  assert (∀ before after, line = before +:+ "|" +:+ after →
            PyStr.contains "|" before = false →
            parse_line line
            = match strptime (str_strip before) with
              | Some timestamp => (Some timestamp, str_strip after)
              | None => (None, str_strip line)
              end) as Hbar.
  { intros before after -> Hno. unfold parse_line, PyStr.split1.
    change (before +:+ "|" +:+ after) with (before +:+ String "|" after).
    by rewrite partition_char_first. }
  split_and!; [done|done| |].
  - intros timestamp text Hparse.
    destruct (PyStr.contains "|" line) eqn:Hc.
    + apply contains_char_split in Hc as (before & after & E & Hno).
      exists before, after. rewrite (Hbar before after E Hno) in Hparse.
      destruct (strptime (str_strip before)); by simplify_eq.
    + rewrite Hnone in Hparse by done. discriminate.
  - destruct (PyStr.contains "|" line) eqn:Hc.
    + apply contains_char_split in Hc as (before & after & E & Hno).
      rewrite (Hbar before after E Hno).
      by destruct (strptime (str_strip before)).
    + by rewrite Hnone.
Qed.

Lemma parse_line_cases_witness :
  parse_line (H := Ascii7.capabilities) "soon | 2024-01-01 10:00:00 | late"
  = (None, "soon | 2024-01-01 10:00:00 | late")
  ∧ parse_line (H := Ascii7.capabilities) "no bar here " = (None, "no bar here").
Proof.
  destruct (parse_line_cases (H := Ascii7.capabilities)
              "soon | 2024-01-01 10:00:00 | late") as (_ & Hbar & _).
  destruct (parse_line_cases (H := Ascii7.capabilities) "no bar here ") as (Hnone & _).
  split.
  - exact (Hbar "soon " " 2024-01-01 10:00:00 | late" eq_refl eq_refl).
  - exact (Hnone eq_refl).
Defined.

Lemma occurrences_pos {K} `{EqDecision K} (k : K) (l : list K) :
  (0 < occurrences k l)%nat ↔ k ∈ l.
Proof.
  induction l as [|x l IH].
  - rewrite elem_of_nil. unfold occurrences. simpl. lia.
  - rewrite occurrences_cons, elem_of_cons. case_decide.
    + split; [by left | lia].
    + rewrite <-IH. simpl. tauto.
Qed.

Lemma occurrences_absent {K} `{EqDecision K} (k : K) (l : list K) :
  k ∉ l → occurrences k l = 0%nat.
Proof. rewrite <-occurrences_pos. lia. Qed.

(** ** [tokenize_and_clean] *)

(** X3: [tokenize_and_clean] keeps the raw tokens of the lower-cased text
    that are alphabetic and no stop word, and only them, in their order
    and as many times as they occur; the stop words matter as a set, not
    as a list. *)
Theorem tokenize_and_clean_keeps `{Capabilities} (text : string) (stop_words : list string) :
  let raw := word_tokenize (str_lower text) in
  let kept := tokenize_and_clean text stop_words in
  kept `sublist_of` raw
  ∧ (∀ w, w ∈ kept ↔ w ∈ raw ∧ (w ∉ stop_words) ∧ str_isalpha w = true)
  ∧ (∀ w, w ∉ stop_words → str_isalpha w = true →
       occurrences w kept = occurrences w raw)
  ∧ (∀ w, w ∈ stop_words ∨ str_isalpha w = false → occurrences w kept = 0%nat)
  ∧ (∀ stop_words' : list string,
       (∀ w, w ∈ stop_words ↔ w ∈ stop_words') →
       tokenize_and_clean text stop_words' = kept).
Proof.
  intros raw kept. subst raw kept. unfold tokenize_and_clean. split_and!.
  - apply sublist_filter.
  - intros w. rewrite list_elem_of_filter. tauto.
  - intros w Hstop Halpha. unfold occurrences. f_equal.
    apply list_filter_filter_l. by intros x <-.
  - intros w Hw. apply occurrences_absent. rewrite list_elem_of_filter.
    intros [[Hstop Halpha] _]. destruct Hw as [Hw|Hw]; [done | congruence].
  - intros stop_words' Hsame. apply list_filter_iff. intros w.
    by rewrite Hsame.
Qed.

Lemma tokenize_and_clean_keeps_witness :
  tokenize_and_clean (H := Ascii7.capabilities) "The bug is in the the Bug report 2"
    ["the"; "is"; "in"]
  = ["bug"; "bug"; "report"]
  ∧ tokenize_and_clean (H := Ascii7.capabilities) "The bug is in the the Bug report 2"
      ["in"; "the"; "in"; "is"]
    = tokenize_and_clean (H := Ascii7.capabilities) "The bug is in the the Bug report 2"
        ["the"; "is"; "in"].
Proof.
  destruct (tokenize_and_clean_keeps (H := Ascii7.capabilities)
              "The bug is in the the Bug report 2" ["the"; "is"; "in"])
    as (_ & _ & _ & _ & Hset).
  split; [reflexivity|].
  apply Hset. intros w. rewrite !elem_of_cons, !elem_of_nil. tauto.
Defined.

(** ** The keys of the tables *)

Section key_facts.
Context {K : Type} `{EqDecision K}.
Implicit Types (k : K) (c : Counter K) (elems : list K).

Lemma lookup_None_keys {V} k (d : dict K V) :
  PyDict.lookup k d = None ↔ k ∉ PyDict.keys d.
Proof.
  unfold PyDict.keys. induction d as [|[k0 v0] d IH]; simpl.
  - split; [intros _; apply not_elem_of_nil | done].
  - rewrite not_elem_of_cons. case_decide as Hk; [subst|]; split; try done.
    + by intros [? _].
    + intros Hnone. split; [done | by apply IH].
    + intros [_ Hd]. by apply IH.
Qed.

Lemma count_absent c k : k ∉ PyDict.keys c → PyDict.count c k = 0.
Proof. intros Hk. unfold PyDict.count. by apply lookup_None_keys in Hk as ->. Qed.

Lemma stored_positive_count_nonneg c k : stored_positive c → 0 ≤ PyDict.count c k.
Proof.
  intros Hc. destruct (decide (k ∈ PyDict.keys c)) as [Hk|Hk].
  - specialize (Hc k Hk). lia.
  - by rewrite count_absent.
Qed.

Lemma stored_positive_update c elems :
  stored_positive c → stored_positive (PyDict.update c elems).
Proof.
  unfold PyDict.update. revert c. induction elems as [|x elems IH]; intros c Hc; [done|].
  simpl. apply IH. intros k Hk. rewrite count_set.
  pose proof (stored_positive_count_nonneg c x Hc).
  case_decide as Hkx; [lia|]. apply Hc.
  apply elem_of_keys_set in Hk as [|]; done.
Qed.

Lemma stored_positive_iff c k :
  stored_positive c → (k ∈ PyDict.keys c ↔ 1 ≤ PyDict.count c k).
Proof.
  intros Hc. split; [apply Hc|]. intros Hk.
  destruct (decide (k ∈ PyDict.keys c)) as [|Hno]; [done|].
  rewrite count_absent in Hk by done. lia.
Qed.

End key_facts.

Section fold_key_facts.
Context {S L K : Type} `{EqDecision K}.
Context (step : S → L → S) (table : S → Counter K) (batch : L → list K).
Hypothesis table_step : ∀ st line, table (step st line) = PyDict.update (table st) (batch line).

Lemma fold_stored_positive (lines : list L) (st : S) :
  stored_positive (table st) → stored_positive (table (fold_left step lines st)).
Proof.
  revert st. induction lines as [|line lines IH]; intros st Hst; [done|].
  simpl. apply IH. rewrite table_step. by apply stored_positive_update.
Qed.

Lemma fold_keys_iff (lines : list L) (st : S) (k : K) :
  k ∈ PyDict.keys (table (fold_left step lines st))
  ↔ k ∈ PyDict.keys (table st) ∨ ∃ line, line ∈ lines ∧ k ∈ batch line.
Proof.
  revert st. induction lines as [|line lines IH]; intros st; simpl.
  - split; [by left|]. intros [|(line & Hin & _)]; [done|]. by apply elem_of_nil in Hin.
  - rewrite IH, table_step, elem_of_keys_update. split.
    + intros [[Hk|Hk]|(line' & Hin & Hk)]; [by left| |].
      * right. exists line. split; [left|done].
      * right. exists line'. split; [by right|done].
    + intros [Hk|(line' & Hin & Hk)]; [by left; left|].
      apply elem_of_cons in Hin as [->|Hin]; [by left; right|].
      right. by exists line'.
  Qed.

(** The keys stay in the order they were first stored: more lines only
    add keys at the end. *)
Lemma fold_keys_prefix (lines : list L) (st : S) :
  PyDict.keys (table st) `prefix_of` PyDict.keys (table (fold_left step lines st)).
Proof.
  assert (∀ (c : Counter K) elems,
            PyDict.keys c `prefix_of` PyDict.keys (PyDict.update c elems)) as Hupdate.
  { intros c elems. unfold PyDict.update. revert c.
    induction elems as [|x elems IH]; intros c; [done|]. simpl.
    etrans; [|apply IH]. rewrite keys_set. case_decide; [done|]. by eexists. }
  revert st. induction lines as [|line lines IH]; intros st; [done|].
  simpl. etrans; [|apply IH]. rewrite table_step. apply Hupdate.
Qed.

End fold_key_facts.

Section run_key_facts.
Context `{Capabilities}.
Implicit Types (nlp : string → list string) (n : Z) (lines : list string).

Lemma stored_positive_nil {K} `{EqDecision K} : stored_positive (@nil (K * Z)).
Proof. intros k Hk. by apply elem_of_nil in Hk. Qed.

Lemma line_ngrams_elem n line g :
  g ∈ line_ngrams n line
  ↔ 1 ≤ n ∧ ∃ i : nat, (i + Z.to_nat n ≤ length (line_words line))%nat
                       ∧ g = take (Z.to_nat n) (drop i (line_words line)).
Proof.
  unfold line_ngrams. case_decide as Hn.
  - rewrite list_elem_of_fmap. split.
    + intros (i & -> & Hi%elem_of_seq). split; [done|]. exists i. split; [lia|done].
    + intros (_ & i & Hi & ->). exists i. split; [done|]. apply elem_of_seq. lia.
  - rewrite elem_of_nil. split; [done | by intros [? _]].
Qed.

End run_key_facts.

(** X4: the five frequency tables of a run never hold a key with a count
    of zero or less: a key is stored exactly when its count is at least
    one, and the count of any other key reads zero. *)
Theorem tables_store_counted_keys `{Capabilities}
    (nlp : string → list string) (n : Z) (lines : list string) :
  let st := analyze_lines nlp n lines in
  (∀ w, w ∈ PyDict.keys (word_freq st) ↔ 1 ≤ PyDict.count (word_freq st) w)
  ∧ (∀ g, g ∈ PyDict.keys (ngram_freq st) ↔ 1 ≤ PyDict.count (ngram_freq st) g)
  ∧ (∀ e, e ∈ PyDict.keys (entity_freq st) ↔ 1 ≤ PyDict.count (entity_freq st) e)
  ∧ (∀ q, q ∈ PyDict.keys (question_freq st) ↔ 1 ≤ PyDict.count (question_freq st) q)
  ∧ (∀ r, r ∈ PyDict.keys (resolutions st) ↔ 1 ≤ PyDict.count (resolutions st) r)
  ∧ (∀ w, w ∉ PyDict.keys (word_freq st) → PyDict.count (word_freq st) w = 0).
Proof.
  intros st. subst st. unfold analyze_lines. split_and!.
  - intros w. apply stored_positive_iff.
    apply (fold_stored_positive _ word_freq _ (word_freq_step nlp n)), stored_positive_nil.
  - intros g. apply stored_positive_iff.
    apply (fold_stored_positive _ ngram_freq _ (ngram_freq_step nlp n)), stored_positive_nil.
  - intros e. apply stored_positive_iff.
    apply (fold_stored_positive _ entity_freq _ (entity_freq_step nlp n)), stored_positive_nil.
  - intros q. apply stored_positive_iff.
    apply (fold_stored_positive _ question_freq _ (question_freq_step nlp n)),
      stored_positive_nil.
  - intros r. apply stored_positive_iff.
    apply (fold_stored_positive _ resolutions _ (resolutions_step nlp n)),
      stored_positive_nil.
  - intros w. apply count_absent.
Qed.

(** X5: where the keys of the tables of a run come from. A word is a key
    exactly when it is a cleaned word of some line, so it is alphabetic
    and no stop word. An n-gram is a key exactly when the n-gram size is
    at least one and it is a window of that many consecutive cleaned words
    of some line. An entity is a key exactly when it was recognised in
    the text of some line. A question, or a resolution, is a key exactly
    when it is the text of some line and contains a question mark, or one
    of the resolution phrases. *)
Theorem table_keys_come_from_lines `{Capabilities}
    (nlp : string → list string) (n : Z) (lines : list string) :
  let st := analyze_lines nlp n lines in
  (∀ w, w ∈ PyDict.keys (word_freq st)
        ↔ ∃ line, line ∈ lines
                  ∧ w ∈ word_tokenize (str_lower (parse_line line).2)
                  ∧ (w ∉ stopwords_english) ∧ str_isalpha w = true)
  ∧ (∀ g, g ∈ PyDict.keys (ngram_freq st)
        ↔ 1 ≤ n
          ∧ ∃ line (i : nat),
              line ∈ lines
              ∧ (i + Z.to_nat n ≤ length (line_words line))%nat
              ∧ g = take (Z.to_nat n) (drop i (line_words line)))
  ∧ (∀ g, g ∈ PyDict.keys (ngram_freq st) →
        Z.of_nat (length g) = n
        ∧ Forall (λ w, (w ∉ stopwords_english) ∧ str_isalpha w = true) g)
  ∧ (∀ e, e ∈ PyDict.keys (entity_freq st)
        ↔ ∃ line, line ∈ lines ∧ e ∈ nlp (parse_line line).2)
  ∧ (∀ q, q ∈ PyDict.keys (question_freq st)
        ↔ PyStr.contains "?" q = true ∧ ∃ line, line ∈ lines ∧ (parse_line line).2 = q)
  ∧ (∀ r, r ∈ PyDict.keys (resolutions st)
        ↔ existsb (λ phrase, PyStr.contains phrase r) resolution_phrases = true
          ∧ ∃ line, line ∈ lines ∧ (parse_line line).2 = r).
Proof.
  intros st. subst st. unfold analyze_lines.
  assert (∀ g, g ∈ PyDict.keys
                 (ngram_freq (fold_left (process_line nlp n) lines analysis_init))
        ↔ 1 ≤ n
          ∧ ∃ line (i : nat),
              line ∈ lines
              ∧ (i + Z.to_nat n ≤ length (line_words line))%nat
              ∧ g = take (Z.to_nat n) (drop i (line_words line))) as Hngram.
  { intros g.
    rewrite (fold_keys_iff _ ngram_freq _ (ngram_freq_step nlp n)). simpl.
    rewrite elem_of_nil. split.
    - intros [[]|(line & Hin & (Hn & i & Hi & ->)%line_ngrams_elem)].
      split; [done|]. by exists line, i.
    - intros (Hn & line & i & Hin & Hi & ->). right. exists line. split; [done|].
      apply line_ngrams_elem. split; [done|]. by exists i. }
  split_and!.
  - intros w. rewrite (fold_keys_iff _ word_freq _ (word_freq_step nlp n)). simpl.
    rewrite elem_of_nil. unfold line_words, line_text, tokenize_and_clean.
    setoid_rewrite list_elem_of_filter. split.
    + intros [[]|(line & Hin & [Hstop Halpha] & Hw)]. by exists line.
    + intros (line & Hin & Hw & Hstop & Halpha). right. by exists line.
  - done.
  - intros g (Hn & line & i & Hin & Hi & ->)%Hngram. split.
    + rewrite length_take, length_drop. lia.
    + apply Forall_forall. intros w Hw.
      assert (w ∈ line_words line) as Hline by (by eapply subseteq_drop, subseteq_take).
      unfold line_words, tokenize_and_clean in Hline.
      by apply list_elem_of_filter in Hline as [? _].
  - intros e. rewrite (fold_keys_iff _ entity_freq _ (entity_freq_step nlp n)). simpl.
    rewrite elem_of_nil. unfold line_text. split; [by intros [[]|?] | by right].
  - intros q. rewrite (fold_keys_iff _ question_freq _ (question_freq_step nlp n)). simpl.
    rewrite elem_of_nil. unfold line_text. split.
    + intros [[]|(line & Hin & Hq)].
      destruct (PyStr.contains "?" (parse_line line).2) eqn:Hc.
      * apply list_elem_of_singleton in Hq as ->. split; [done|]. by exists line.
      * by apply elem_of_nil in Hq.
    + intros (Hc & line & Hin & <-). right. exists line. split; [done|].
      rewrite Hc. by left.
  - intros r. rewrite (fold_keys_iff _ resolutions _ (resolutions_step nlp n)).
    change (PyDict.keys (resolutions analysis_init)) with (@nil string).
    rewrite elem_of_nil. unfold line_text. split.
    + intros [[]|(line & Hin & Hr)].
      destruct (existsb _ resolution_phrases) eqn:Hc in Hr.
      * apply list_elem_of_singleton in Hr as ->. split; [done|]. by exists line.
      * by apply elem_of_nil in Hr.
    + intros (Hc & line & Hin & <-). right. exists line. split; [done|].
      rewrite Hc. by left.
Qed.

(** X6: the keys of the five tables stay in the order in which they were
    first met: after more lines, the keys a table had are still its first
    keys, in the same order. *)
Theorem table_keys_keep_their_order `{Capabilities}
    (nlp : string → list string) (n : Z) (lines more : list string) :
  let before := analyze_lines nlp n lines in
  let after := analyze_lines nlp n (lines ++ more) in
  PyDict.keys (word_freq before) `prefix_of` PyDict.keys (word_freq after)
  ∧ PyDict.keys (ngram_freq before) `prefix_of` PyDict.keys (ngram_freq after)
  ∧ PyDict.keys (entity_freq before) `prefix_of` PyDict.keys (entity_freq after)
  ∧ PyDict.keys (question_freq before) `prefix_of` PyDict.keys (question_freq after)
  ∧ PyDict.keys (resolutions before) `prefix_of` PyDict.keys (resolutions after).
Proof.
  intros before after. subst before after. unfold analyze_lines.
  rewrite fold_left_app. split_and!.
  - apply (fold_keys_prefix _ word_freq _ (word_freq_step nlp n)).
  - apply (fold_keys_prefix _ ngram_freq _ (ngram_freq_step nlp n)).
  - apply (fold_keys_prefix _ entity_freq _ (entity_freq_step nlp n)).
  - apply (fold_keys_prefix _ question_freq _ (question_freq_step nlp n)).
  - apply (fold_keys_prefix _ resolutions _ (resolutions_step nlp n)).
Qed.

(** ** [categorize_issues] and the issue tally *)

Section mapping_facts.
Context {K : Type} `{EqDecision K}.
Implicit Types (k : K) (c m : list (K * Z)).

Lemma total_for_absent k m : k ∉ PyDict.keys m → total_for k m = 0.
Proof.
  unfold PyDict.keys. induction m as [|[k0 v0] m IH]; simpl; [done|].
  intros [Hne Hk]%not_elem_of_cons. rewrite decide_False by done. by apply IH.
Qed.

(** For a mapping, which holds a key once, the counts added by
    [Counter.update] are the counts of the mapping. *)
Lemma total_for_NoDup k m : NoDup (PyDict.keys m) → total_for k m = PyDict.count m k.
Proof.
  unfold PyDict.keys, PyDict.count. induction m as [|[k0 v0] m IH]; simpl; [done|].
  intros [Hk0 Hnd]%NoDup_cons. case_decide as Hk.
  - subst. rewrite total_for_absent by done. simpl. lia.
  - by apply IH.
Qed.

Lemma filter_none {X} (P : X → Prop) `{∀ x, Decision (P x)} (l : list X) :
  (∀ x, x ∈ l → ¬ P x) → filter P l = [].
Proof.
  induction l as [|x l IH]; intros Hl; [done|].
  rewrite filter_cons, decide_False by (apply Hl; left).
  apply IH. intros y Hy. apply Hl. by right.
Qed.

Lemma filter_key_NoDup {V} (P : V → Prop) `{∀ v, Decision (P v)}
    (cfg : list (K * V)) k v :
  NoDup (PyDict.keys cfg) → (k, v) ∈ cfg →
  length (filter (λ kv, k = kv.1 ∧ P kv.2) cfg) = if decide (P v) then 1%nat else 0%nat.
Proof.
  unfold PyDict.keys. induction cfg as [|[k0 v0] cfg IH]; intros Hnd Hin.
  - by apply elem_of_nil in Hin.
  - rewrite fmap_cons in Hnd. apply NoDup_cons in Hnd as [Hk0 Hnd].
    rewrite filter_cons. cbn [fst snd].
    apply elem_of_cons in Hin as [[= -> ->]|Hin].
    + assert (filter (λ kv : K * V, k0 = kv.1 ∧ P kv.2) cfg = []) as ->.
      { apply filter_none. intros [k1 v1] Hin1 [-> _].
        apply Hk0, list_elem_of_fmap. by exists (k1, v1). }
      destruct (decide (P v0)).
      * by rewrite decide_True.
      * by rewrite decide_False by tauto.
    + rewrite decide_False; [by apply IH|]. intros [-> _].
      apply Hk0, list_elem_of_fmap. by exists (k0, v).
Qed.

Lemma NoDup_keys_functional {V} (cfg : list (K * V)) k (v1 v2 : V) :
  NoDup (PyDict.keys cfg) → (k, v1) ∈ cfg → (k, v2) ∈ cfg → v1 = v2.
Proof.
  unfold PyDict.keys. induction cfg as [|[k0 v0] cfg IH]; intros Hnd Hin1 Hin2.
  - by apply elem_of_nil in Hin1.
  - rewrite fmap_cons in Hnd. apply NoDup_cons in Hnd as [Hk0 Hnd].
    apply elem_of_cons in Hin1 as [E1|Hin1]; apply elem_of_cons in Hin2 as [E2|Hin2].
    + congruence.
    + exfalso. injection E1 as -> _. apply Hk0, list_elem_of_fmap. by exists (k0, v2).
    + exfalso. injection E2 as -> _. apply Hk0, list_elem_of_fmap. by exists (k0, v1).
    + by apply IH.
Qed.

End mapping_facts.

Lemma fmap_sublist {X Y} (f : X → Y) (l1 l2 : list X) :
  l1 `sublist_of` l2 → f <$> l1 `sublist_of` f <$> l2.
Proof.
  induction 1; simpl; [constructor | by apply sublist_skip | by apply sublist_cons].
Qed.

Lemma categorize_issues_explicit (text : string) (cfg : dict string (list string)) :
  NoDup (PyDict.keys cfg) →
  categorize_issues text cfg
  = (λ ck, (ck.1, 1))
      <$> filter (λ ck, existsb (λ keyword, PyStr.contains keyword text) ck.2 = true) cfg.
Proof.
  unfold categorize_issues.
  enough (∀ acc : list (string * Z),
            NoDup (PyDict.keys acc ++ PyDict.keys cfg) →
            fold_left
              (λ categories ck,
                 if existsb (λ keyword, PyStr.contains keyword text) ck.2
                 then PyDict.update categories [ck.1] else categories) cfg acc
            = acc ++ ((λ ck, (ck.1, 1))
                        <$> filter (λ ck, existsb (λ keyword, PyStr.contains keyword text) ck.2
                                          = true) cfg)) as Hgen.
  { intros Hnd. by rewrite Hgen. }
  unfold PyDict.keys. induction cfg as [|[k kws] cfg IH]; intros acc Hnd.
  - cbn [fold_left]. by rewrite filter_nil, fmap_nil, app_nil_r.
  - cbn [fold_left fst snd]. rewrite filter_cons. cbn [fst snd].
    rewrite fmap_cons in Hnd. cbn [fst] in Hnd.
    assert (k ∉ acc.*1) as Hfresh.
    { apply NoDup_app in Hnd as (_ & Hdisj & _). intros Hk. apply (Hdisj k Hk). left. }
    destruct (existsb _ kws) eqn:E.
    + rewrite decide_True by done.
      unfold PyDict.update. cbn [fold_left].
      rewrite keys_set_fresh, count_absent by done.
      rewrite IH; [by rewrite <-app_assoc|].
      rewrite fmap_app, <-app_assoc. exact Hnd.
    + rewrite decide_False by done. apply IH.
      apply NoDup_app in Hnd as (Hacc & Hdisj & [_ Hcfg]%NoDup_cons).
      apply NoDup_app. split_and!; [done| |done].
      intros x Hx Hin. apply (Hdisj x Hx). by right.
Qed.

(** X7: for any configuration, that is a dict of categories with their
    keywords, [categorize_issues] returns the categories with a keyword
    in the text, in the order of the configuration, each with the count
    one. A category counts once however many of its keywords occur, a
    category without keywords never counts, and a category with the empty
    keyword counts for every text. *)
Theorem categorize_issues_any_configuration
    (text : string) (cfg : dict string (list string)) :
  NoDup (PyDict.keys cfg) →
  categorize_issues text cfg
  = (λ ck, (ck.1, 1))
      <$> filter (λ ck, existsb (λ keyword, PyStr.contains keyword text) ck.2 = true) cfg
  ∧ PyDict.keys (categorize_issues text cfg) `sublist_of` PyDict.keys cfg
  ∧ (∀ category keywords, (category, keywords) ∈ cfg →
       PyDict.count (categorize_issues text cfg) category
       = if existsb (λ keyword, PyStr.contains keyword text) keywords then 1 else 0)
  ∧ (∀ category keywords, (category, keywords) ∈ cfg →
       (category ∈ PyDict.keys (categorize_issues text cfg) ↔ mentions text keywords))
  ∧ (∀ category, (category, []) ∈ cfg →
       category ∉ PyDict.keys (categorize_issues text cfg))
  ∧ (∀ category keywords, (category, keywords) ∈ cfg → EmptyString ∈ keywords →
       category ∈ PyDict.keys (categorize_issues text cfg)).
Proof.
  intros Hnd. pose proof (categorize_issues_explicit text cfg Hnd) as Hexp.
  assert (∀ category keywords, (category, keywords) ∈ cfg →
            (category ∈ PyDict.keys (categorize_issues text cfg)
             ↔ existsb (λ keyword, PyStr.contains keyword text) keywords = true)) as Hkey.
  { intros category keywords Hin. rewrite Hexp. unfold PyDict.keys.
    rewrite <-list_fmap_compose. rewrite list_elem_of_fmap.
    setoid_rewrite list_elem_of_filter. split.
    - intros ([c kws] & E & Hmatch & Hin'). cbn in E, Hmatch. subst c.
      by rewrite (NoDup_keys_functional cfg category keywords kws Hnd Hin Hin').
    - intros Hmatch. by exists (category, keywords). }
  split_and!.
  - done.
  - rewrite Hexp. unfold PyDict.keys. rewrite <-list_fmap_compose.
    change (fst ∘ _) with (fst : string * list string → string).
    apply fmap_sublist, sublist_filter.
  - intros category keywords Hin. rewrite categorize_issues_count.
    pose proof (filter_key_NoDup
                  (λ kws, existsb (λ keyword, PyStr.contains keyword text) kws = true)
                  cfg category keywords Hnd Hin) as Hf.
    cbv beta in Hf. rewrite Hf. by destruct (existsb _ keywords).
  - intros category keywords Hin. by rewrite (Hkey _ _ Hin), existsb_contains_mentions.
  - intros category Hin. by rewrite (Hkey _ _ Hin).
  - intros category keywords Hin Hempty. rewrite (Hkey _ _ Hin).
    apply existsb_exists. exists EmptyString. split; [by apply list_elem_of_In|].
    by destruct text.
Qed.

Lemma categorize_issues_any_configuration_witness :
  categorize_issues "slow and late"
    [("speed", ["slow"; "late"]); ("none", []); ("all", [EmptyString]); ("price", ["cost"])]
  = [("speed", 1); ("all", 1)].
Proof.
  refine (eq_trans (proj1 (categorize_issues_any_configuration "slow and late"
    [("speed", ["slow"; "late"]); ("none", []); ("all", [EmptyString]); ("price", ["cost"])]
    _)) _).
  - apply (bool_decide_unpack _). vm_compute. exact I.
  - reflexivity.
Defined.

Lemma categorize_issues_NoDup_keys (text : string) (cfg : dict string (list string)) :
  NoDup (PyDict.keys cfg) → NoDup (PyDict.keys (categorize_issues text cfg)).
Proof.
  intros Hnd. rewrite categorize_issues_explicit by done.
  unfold PyDict.keys in *. rewrite <-list_fmap_compose.
  change (fst ∘ _) with (fst : string * list string → string).
  eapply sublist_NoDup; [exact Hnd | apply fmap_sublist, sublist_filter].
Qed.

Lemma categorize_issues_keys (text : string) (cfg : dict string (list string)) c :
  NoDup (PyDict.keys cfg) →
  c ∈ PyDict.keys (categorize_issues text cfg) → c ∈ PyDict.keys cfg.
Proof.
  intros Hnd. rewrite categorize_issues_explicit by done.
  unfold PyDict.keys. rewrite <-list_fmap_compose.
  change (fst ∘ _) with (fst : string * list string → string).
  intros ([k kws] & -> & [_ Hin]%list_elem_of_filter)%list_elem_of_fmap.
  apply list_elem_of_fmap. by exists (k, kws).
Qed.

Lemma issue_keywords_NoDup : NoDup (PyDict.keys issue_keywords).
Proof. apply (bool_decide_unpack _). by vm_compute. Qed.

Lemma elem_of_keys_update_mapping {K} `{EqDecision K} (c m : list (K * Z)) k :
  k ∈ PyDict.keys (PyDict.update_mapping c m) ↔ k ∈ PyDict.keys c ∨ k ∈ PyDict.keys m.
Proof.
  unfold PyDict.update_mapping. revert c.
  induction m as [|[k0 v0] m IH]; intros c; cbn [fold_left].
  - change (PyDict.keys (@nil (K * Z))) with (@nil K). rewrite elem_of_nil. tauto.
  - rewrite IH, elem_of_keys_set.
    change (PyDict.keys ((k0, v0) :: m)) with (k0 :: PyDict.keys m).
    rewrite elem_of_cons. cbn [fst]. tauto.
Qed.

Section issue_facts.
Context `{Capabilities}.
Implicit Types (nlp : string → list string) (n : Z) (st : analysis).

Lemma issue_categories_step nlp n st line :
  issue_categories (process_line nlp n st line)
  = PyDict.update_mapping (issue_categories st)
      (categorize_issues (line_text line) issue_keywords).
Proof. unfold process_line, line_text. by destruct (parse_line line). Qed.

Lemma issue_count_step nlp n st line category keywords :
  (category, keywords) ∈ issue_keywords →
  PyDict.count (issue_categories (process_line nlp n st line)) category
  = PyDict.count (issue_categories st) category
    + (if existsb (λ keyword, PyStr.contains keyword (line_text line)) keywords
       then 1 else 0).
Proof.
  intros Hin. rewrite issue_categories_step, count_update_mapping. f_equal.
  rewrite total_for_NoDup
    by apply categorize_issues_NoDup_keys, issue_keywords_NoDup.
  rewrite categorize_issues_count.
  pose proof (filter_key_NoDup
                (λ kws, existsb (λ keyword, PyStr.contains keyword (line_text line)) kws
                        = true)
                issue_keywords category keywords issue_keywords_NoDup Hin) as Hf.
  cbv beta in Hf. rewrite Hf. by destruct (existsb _ keywords).
Qed.

Lemma issue_count_fold nlp n (lines : list string) st category keywords :
  (category, keywords) ∈ issue_keywords →
  PyDict.count (issue_categories (fold_left (process_line nlp n) lines st)) category
  = PyDict.count (issue_categories st) category
    + Z.of_nat (length (filter
        (λ line, existsb (λ keyword, PyStr.contains keyword (line_text line)) keywords = true)
        lines)).
Proof.
  intros Hin. revert st. induction lines as [|line lines IH]; intros st.
  - simpl. lia.
  - cbn [fold_left]. rewrite IH, (issue_count_step _ _ _ _ _ _ Hin), filter_cons.
    destruct (existsb _ keywords) eqn:E.
    + rewrite decide_True by done. cbn [length]. lia.
    + rewrite decide_False by done. lia.
Qed.

Lemma issue_keys_fold nlp n (lines : list string) st c :
  c ∈ PyDict.keys (issue_categories (fold_left (process_line nlp n) lines st)) →
  c ∈ PyDict.keys (issue_categories st) ∨ c ∈ PyDict.keys issue_keywords.
Proof.
  revert st. induction lines as [|line lines IH]; intros st; [by left|].
  cbn [fold_left]. intros [Hc|Hc]%IH; [|by right].
  rewrite issue_categories_step in Hc.
  apply elem_of_keys_update_mapping in Hc as [Hc|Hc]; [by left|right].
  eapply categorize_issues_keys; [apply issue_keywords_NoDup | done].
Qed.

End issue_facts.

(** ** The sentiment series and the lines without a timestamp *)

(** C7: when the file opens, [analyze_text] returns a result whose
    sentiment series has one entry for each line whose timestamp was
    parsed and no other, in the order of the file: the ISO form of the
    timestamp with the compound score of the text of the line. Its length
    is the number T of such lines among the M lines of the file. A line
    without a timestamp leaves the series as it is and is analysed as a
    whole. Every line, with a timestamp or without, adds to the other
    collections: its words to the word counts, its windows of words to
    the n-gram counts, its entities to the entity counts, its text to
    the questions when it has a question mark and to the resolutions when
    it has a resolution phrase, and one to each issue category it
    mentions. So these collections depend on the texts of the lines only:
    they are the same for two files whose lines have the same texts,
    timestamped or not. *)
Theorem sentiment_series_of_timestamped_lines `{Capabilities}
    (open_file : string → outcome (list string)) (file_path : string)
    (nlp : string → list string) (n : Z) (lines : list string) :
  open_file file_path = Returned lines →
  ∃ st, analyze_text open_file file_path nlp n = ([], Returned (Some st))
    ∧ sentiment_time_series st
      = omap (M := list) (λ line : string, match parse_line line with
                      | (Some timestamp, text) =>
                          Some (isoformat timestamp, polarity_compound text)
                      | (None, _) => None
                      end) lines
    ∧ length (sentiment_time_series st)
      = length (filter (λ line, is_Some (parse_line line).1) lines)
    ∧ (length (sentiment_time_series st) ≤ length lines)%nat
    ∧ (∀ done line, (parse_line line).1 = None →
         sentiment_time_series (analyze_lines nlp n (done ++ [line]))
         = sentiment_time_series (analyze_lines nlp n done))
    ∧ (∀ lines' : list string,
         (λ line : string, (parse_line line).2) <$> lines'
         = (λ line : string, (parse_line line).2) <$> lines →
         aggregates (analyze_lines nlp n lines') = aggregates st)
    ∧ (∀ line, (parse_line line).1 = None → (parse_line line).2 = str_strip line)
    ∧ (∀ (done : list string) (line : string),
         let before := analyze_lines nlp n done in
         let after := analyze_lines nlp n (done ++ [line]) in
         let text := (parse_line line).2 in
         (∀ word, PyDict.count (word_freq after) word
                  = PyDict.count (word_freq before) word
                    + Z.of_nat (occurrences word
                                  (tokenize_and_clean text stopwords_english)))
         ∧ (∀ ngram, PyDict.count (ngram_freq after) ngram
                     = PyDict.count (ngram_freq before) ngram
                       + Z.of_nat (occurrences ngram
                           (if decide (1 ≤ n)
                            then windows (tokenize_and_clean text stopwords_english)
                                   (Z.to_nat n)
                            else [])))
         ∧ (∀ entity, PyDict.count (entity_freq after) entity
                      = PyDict.count (entity_freq before) entity
                        + Z.of_nat (occurrences entity (nlp text)))
         ∧ (∀ question, PyDict.count (question_freq after) question
                        = PyDict.count (question_freq before) question
                          + (if decide (question = text ∧ PyStr.contains "?" text = true)
                             then 1 else 0))
         ∧ (∀ resolution, PyDict.count (resolutions after) resolution
                          = PyDict.count (resolutions before) resolution
                            + (if decide (resolution = text
                                          ∧ existsb (λ phrase, PyStr.contains phrase text)
                                              resolution_phrases = true)
                               then 1 else 0))
         ∧ (∀ category keywords, (category, keywords) ∈ issue_keywords →
              PyDict.count (issue_categories after) category
              = PyDict.count (issue_categories before) category
                + (if existsb (λ keyword, PyStr.contains keyword text) keywords
                   then 1 else 0))).
Proof.
  intros Hopen. exists (analyze_lines nlp n lines).
  assert (sentiment_time_series (analyze_lines nlp n lines) = omap line_point lines) as Hseries.
  { unfold analyze_lines. by rewrite sentiment_time_series_fold. }
  assert (∀ line, line_point line
                  = match parse_line line with
                    | (Some timestamp, text) =>
                        Some (isoformat timestamp, polarity_compound text)
                    | (None, _) => None
                    end) as Hpoint.
  { intros line. unfold line_point, line_timestamp, line_text.
    by destruct (parse_line line) as [[ts|] text]. }
  split_and!.
  - unfold analyze_text. by rewrite Hopen.
  - rewrite Hseries. clear Hseries Hopen.
    induction lines as [|line lines IH]; [done|].
    cbn [omap list_omap]. by rewrite Hpoint, IH.
  - rewrite Hseries, length_omap_filter. f_equal.
    apply list_filter_iff. intros line. unfold line_point, line_timestamp.
    destruct (parse_line line) as [[ts|] text]; simpl; split; intros [? ?]; eauto; done.
  - rewrite Hseries, length_omap_filter. apply length_filter.
  - intros done line Hnone. unfold analyze_lines.
    rewrite fold_left_app. simpl. rewrite sentiment_time_series_step.
    unfold line_point, line_timestamp. rewrite Hnone. simpl. by rewrite app_nil_r.
  - intros lines' Htexts. unfold analyze_lines. by apply aggregates_fold.
  - intros line. unfold parse_line.
    destruct (PyStr.split1 "|" line) as [|timestamp [|text [|? ?]]]; try done.
    by destruct (strptime (str_strip timestamp)).
  - intros done line before after text. subst before after text.
    unfold analyze_lines. rewrite fold_left_app. cbn [fold_left].
    change (fold_left (process_line nlp n) done analysis_init)
      with (analyze_lines nlp n done).
    split_and!.
    + intros word. by rewrite word_freq_step, count_update.
    + intros ngram. by rewrite ngram_freq_step, count_update.
    + intros entity. by rewrite entity_freq_step, count_update.
    + intros question. rewrite question_freq_step, count_update, occurrences_trigger.
      unfold line_text. by case_decide.
    + intros resolution. rewrite resolutions_step, count_update, occurrences_trigger.
      unfold line_text. by case_decide.
    + intros category keywords Hin. by rewrite (issue_count_step _ _ _ _ _ _ Hin).
Qed.

Lemma sentiment_series_of_timestamped_lines_witness :
  ∃ st,
    analyze_text (H := Ascii7.capabilities) (λ _, Returned Ascii7.sample_file) "support.log"
      Ascii7.no_entities 2 = ([], Returned (Some st))
    ∧ sentiment_time_series st = [("2024-01-01T10:00:00", ()); ("2024-01-01T10:05:00", ())]
    ∧ aggregates (H := Ascii7.capabilities)
        (analyze_lines (H := Ascii7.capabilities) Ascii7.no_entities 2
           ["I have a billing issue please help"; "just checking in";
            "is the billing issue fixed ?"])
      = aggregates st
    ∧ PyDict.count
        (word_freq (analyze_lines (H := Ascii7.capabilities) Ascii7.no_entities 2
                      (take 1 Ascii7.sample_file ++ ["just checking in"])))
        "checking"
      = 0 + 1.
Proof.
  destruct (sentiment_series_of_timestamped_lines (H := Ascii7.capabilities)
              (λ _, Returned Ascii7.sample_file) "support.log" Ascii7.no_entities 2
              Ascii7.sample_file eq_refl)
    as (st & Hrun & Hseries & _ & _ & _ & Htexts & _ & Hline).
  exists st. split_and!.
  - exact Hrun.
  - rewrite Hseries. reflexivity.
  - apply Htexts. reflexivity.
  - exact (proj1 (Hline (take 1 Ascii7.sample_file) "just checking in") "checking").
Defined.

(** X8: the issue tally of a run. For each of the three categories, its
    tally is the number of lines whose text contains at least one of the
    keywords of the category; it is at most the number of lines. The
    tally holds no other key, and reads zero for any other name. *)
Theorem issue_tally_counts_lines `{Capabilities}
    (nlp : string → list string) (n : Z) (lines : list string) :
  let st := analyze_lines nlp n lines in
  (∀ category keywords, (category, keywords) ∈ issue_keywords →
     PyDict.count (issue_categories st) category
     = Z.of_nat (length (filter
         (λ line, existsb (λ keyword, PyStr.contains keyword (parse_line line).2) keywords
                  = true) lines))
     ∧ 0 ≤ PyDict.count (issue_categories st) category ≤ Z.of_nat (length lines))
  ∧ (∀ c, c ∈ PyDict.keys (issue_categories st) →
          c ∈ ["billing"; "technical"; "support"])
  ∧ (∀ c, c ∉ ["billing"; "technical"; "support"] →
          PyDict.count (issue_categories st) c = 0).
Proof.
  intros st. subst st. unfold analyze_lines.
  assert (∀ c, c ∈ PyDict.keys
                 (issue_categories (fold_left (process_line nlp n) lines analysis_init)) →
               c ∈ ["billing"; "technical"; "support"]) as Hkeys.
  { intros c [Hc|Hc]%issue_keys_fold; [by apply elem_of_nil in Hc | done]. }
  split_and!.
  - intros category keywords Hin. rewrite (issue_count_fold _ _ _ _ _ _ Hin).
    change (PyDict.count (issue_categories analysis_init) category) with 0.
    unfold line_text. split; [lia|].
    pose proof (length_filter
                  (λ line, existsb (λ keyword, PyStr.contains keyword (parse_line line).2)
                             keywords = true) lines).
    lia.
  - done.
  - intros c Hc. apply count_absent. intros Hin. by apply Hc, Hkeys.
Qed.

(** ** What the export keeps *)

Section export_facts.
Context {K : Type} `{EqDecision K}.
Implicit Types (k : K) (c : list (K * Z)).

Lemma lookup_Some_elem_of {V} k (v : V) (d : list (K * V)) :
  NoDup (PyDict.keys d) → (PyDict.lookup k d = Some v ↔ (k, v) ∈ d).
Proof.
  unfold PyDict.keys. induction d as [|[k0 v0] d IH]; intros Hnd; simpl.
  - split; [done | by intros ?%elem_of_nil].
  - rewrite fmap_cons in Hnd. apply NoDup_cons in Hnd as [Hk0 Hnd].
    rewrite elem_of_cons. case_decide as Hk.
    + subst. split; [intros [= ->]; by left|].
      intros [[= ->]|Hin]; [done|]. exfalso. apply Hk0, list_elem_of_fmap. by exists (k0, v).
    + rewrite IH by done. split; [by right|]. by intros [[= -> ->]|].
Qed.

Lemma most_common_elem_of c (n : Z) kv : kv ∈ PyDict.most_common c n → kv ∈ c.
Proof.
  unfold PyDict.most_common. intros Hin.
  rewrite <-(sorted_desc_Permutation c). by eapply subseteq_take.
Qed.

Lemma most_common_all c (n : Z) :
  Z.of_nat (length c) ≤ n → PyDict.most_common c n ≡ₚ c.
Proof.
  intros Hn. unfold PyDict.most_common.
  rewrite take_ge; [apply sorted_desc_Permutation|].
  rewrite sorted_desc_Permutation. lia.
Qed.

Lemma most_common_prefix c (n m : Z) :
  n ≤ m → PyDict.most_common c n `prefix_of` PyDict.most_common c m.
Proof.
  intros Hnm. unfold PyDict.most_common.
  exists (take (Z.to_nat m - Z.to_nat n) (drop (Z.to_nat n) (PyDict.sorted_desc c))).
  rewrite <-(take_drop (Z.to_nat n) (take (Z.to_nat m) _)).
  rewrite take_take, skipn_firstn_comm. f_equal. f_equal. lia.
Qed.

Lemma most_common_nonpos c (n : Z) : n ≤ 0 → PyDict.most_common c n = [].
Proof. intros Hn. unfold PyDict.most_common. by replace (Z.to_nat n) with 0%nat by lia. Qed.

End export_facts.

(** X9: what [save_to_json] keeps of the sentiment series and of the
    tables for any number K, negative ones included. The series exported
    is always a prefix of the series: its first K entries when K >= 0, and
    all but its last -K entries when K < 0. For K <= 0 the five frequency
    tables are exported empty, so that a negative K gives empty tables
    beside a series that is not cut to nothing. *)
Theorem export_for_any_save_n `{Capabilities} (data : analysis) (save_n : Z) :
  let exported := limited_data data save_n in
  let series := sentiment_time_series data in
  ld_sentiment_time_series exported `prefix_of` series
  ∧ Z.of_nat (length (ld_sentiment_time_series exported))
    = (if decide (0 ≤ save_n) then Z.min save_n (Z.of_nat (length series))
       else Z.max 0 (Z.of_nat (length series) + save_n))
  ∧ (∀ i x, ld_sentiment_time_series exported !! i = Some x → series !! i = Some x)
  ∧ (save_n ≤ 0 →
       ld_word_freq exported = [] ∧ ld_ngram_freq exported = []
       ∧ ld_entity_freq exported = [] ∧ ld_question_freq exported = []
       ∧ ld_resolutions exported = []).
Proof.
  intros exported series. subst exported series.
  unfold limited_data. cbn [ld_sentiment_time_series ld_word_freq ld_ngram_freq
                            ld_entity_freq ld_question_freq ld_resolutions].
  assert (∀ m, take m (sentiment_time_series data) `prefix_of` sentiment_time_series data)
    as Hprefix.
  { intros m. exists (drop m (sentiment_time_series data)). by rewrite take_drop. }
  split_and!.
  - unfold slice_to. case_decide; apply Hprefix.
  - unfold slice_to. case_decide; rewrite length_take; lia.
  - intros i x Hi. destruct (Hprefix (length (slice_to (sentiment_time_series data) save_n)))
      as [rest E].
    unfold slice_to in *. case_decide;
      (eapply prefix_lookup_Some; [exact Hi | apply Hprefix]).
  - intros Hn. by rewrite !most_common_nonpos by done.
Qed.

(** X10: asking for more never changes what was already exported. For
    0 <= K <= K', each table and the sentiment series exported for K are
    the first entries, in the same order, of those exported for K'. *)
Theorem export_grows_with_save_n `{Capabilities}
    (nlp : string → list string) (n : Z) (lines : list string) (k k' : Z) :
  (∀ w, str_isalpha w = true → PyStr.contains "_" w = false) →
  0 ≤ k → k ≤ k' →
  let data := analyze_lines nlp n lines in
  ld_word_freq (limited_data data k) `prefix_of` ld_word_freq (limited_data data k')
  ∧ ld_ngram_freq (limited_data data k) `prefix_of` ld_ngram_freq (limited_data data k')
  ∧ ld_entity_freq (limited_data data k) `prefix_of` ld_entity_freq (limited_data data k')
  ∧ ld_question_freq (limited_data data k) `prefix_of` ld_question_freq (limited_data data k')
  ∧ ld_resolutions (limited_data data k) `prefix_of` ld_resolutions (limited_data data k')
  ∧ ld_sentiment_time_series (limited_data data k)
    `prefix_of` ld_sentiment_time_series (limited_data data k')
  ∧ ld_issue_categories (limited_data data k) = ld_issue_categories (limited_data data k').
Proof.
  intros Halpha Hk Hkk' data. subst data.
  destruct (analyze_lines_NoDup_keys nlp n lines) as (Hw & Hg & He & Hq & Hr).
  unfold limited_data. cbn [ld_word_freq ld_ngram_freq ld_entity_freq ld_question_freq
                            ld_resolutions ld_sentiment_time_series ld_issue_categories].
  rewrite !of_items_most_common by done.
  rewrite !(of_items_NoDup (_ <$> _)) by apply (ngram_keys_rendered_NoDup Halpha).
  split_and!; try (by apply most_common_prefix); [| |done].
  - destruct (most_common_prefix (ngram_freq (analyze_lines nlp n lines)) k k' Hkk')
      as [rest ->].
    rewrite fmap_app. by eexists.
  - unfold slice_to. rewrite !decide_True by lia.
    exists (take (Z.to_nat k' - Z.to_nat k)
              (drop (Z.to_nat k) (sentiment_time_series (analyze_lines nlp n lines)))).
    rewrite <-(take_drop (Z.to_nat k) (take (Z.to_nat k') _)).
    rewrite take_take, skipn_firstn_comm. f_equal. f_equal. lia.
Qed.

Lemma ascii_isalpha_no_underscore (w : string) :
  Ascii7.isalpha w = true → PyStr.contains "_" w = false.
Proof.
  destruct w as [|c w]; [done|]. unfold Ascii7.isalpha.
  generalize (String c w). clear. intros w. induction w as [|c w IH]; [done|].
  cbn [Ascii7.all_chars]. rewrite andb_true_iff. intros [Hc Hw].
  apply no_underscore_cons. split; [|by apply IH].
  intros ->. by vm_compute in Hc.
Qed.

Lemma export_grows_with_save_n_witness :
  let data := analyze_lines (H := Ascii7.capabilities) Ascii7.no_entities 2 Ascii7.sample_file in
  ld_word_freq (limited_data (H := Ascii7.capabilities) data 1)
  `prefix_of` ld_word_freq (limited_data (H := Ascii7.capabilities) data 3).
Proof.
  exact (proj1 (export_grows_with_save_n (H := Ascii7.capabilities) Ascii7.no_entities 2
                  Ascii7.sample_file 1 3 ascii_isalpha_no_underscore
                  ltac:(lia) ltac:(lia))).
Defined.

(** X11: the export does not change a count. For the word, entity,
    question and resolution tables of a run, a key exported is a key of
    the table, with the count the table holds for it; and when K is at
    least the number of keys of the table, every key of the table is
    exported. *)
Theorem export_keeps_counts `{Capabilities}
    (nlp : string → list string) (n : Z) (lines : list string) (save_n : Z) :
  let data := analyze_lines nlp n lines in
  let exported := limited_data data save_n in
  (∀ k v, PyDict.lookup k (ld_word_freq exported) = Some v →
          PyDict.lookup k (word_freq data) = Some v)
  ∧ (∀ k v, PyDict.lookup k (ld_entity_freq exported) = Some v →
            PyDict.lookup k (entity_freq data) = Some v)
  ∧ (∀ k v, PyDict.lookup k (ld_question_freq exported) = Some v →
            PyDict.lookup k (question_freq data) = Some v)
  ∧ (∀ k v, PyDict.lookup k (ld_resolutions exported) = Some v →
            PyDict.lookup k (resolutions data) = Some v)
  ∧ (Z.of_nat (length (word_freq data)) ≤ save_n →
       ∀ k, PyDict.lookup k (ld_word_freq exported) = PyDict.lookup k (word_freq data))
  ∧ (Z.of_nat (length (entity_freq data)) ≤ save_n →
       ∀ k, PyDict.lookup k (ld_entity_freq exported) = PyDict.lookup k (entity_freq data))
  ∧ (Z.of_nat (length (question_freq data)) ≤ save_n →
       ∀ k, PyDict.lookup k (ld_question_freq exported)
            = PyDict.lookup k (question_freq data))
  ∧ (Z.of_nat (length (resolutions data)) ≤ save_n →
       ∀ k, PyDict.lookup k (ld_resolutions exported) = PyDict.lookup k (resolutions data)).
Proof.
  intros data exported. subst data exported.
  destruct (analyze_lines_NoDup_keys nlp n lines) as (Hw & Hg & He & Hq & Hr).
  unfold limited_data. cbn [ld_word_freq ld_entity_freq ld_question_freq ld_resolutions].
  rewrite !of_items_most_common by done.
  assert (∀ (c : list (string * Z)) k v,
            NoDup (PyDict.keys c) →
            PyDict.lookup k (PyDict.most_common c save_n) = Some v →
            PyDict.lookup k c = Some v) as Hsub.
  { intros c k v Hc Hl.
    apply lookup_Some_elem_of in Hl; [|by apply most_common_NoDup_keys].
    apply lookup_Some_elem_of; [done|]. by eapply most_common_elem_of. }
  assert (∀ (c : list (string * Z)),
            NoDup (PyDict.keys c) → Z.of_nat (length c) ≤ save_n →
            ∀ k, PyDict.lookup k (PyDict.most_common c save_n) = PyDict.lookup k c) as Hall.
  { intros c Hc Hlen k.
    destruct (PyDict.lookup k c) as [v|] eqn:E.
    - apply lookup_Some_elem_of; [by apply most_common_NoDup_keys|].
      rewrite most_common_all by done. by apply lookup_Some_elem_of.
    - destruct (PyDict.lookup k (PyDict.most_common c save_n)) as [v|] eqn:E'; [|done].
      apply Hsub in E'; [congruence | done]. }
  split_and!; eauto.
Qed.

(** X12: [ngram_to_string] tells apart the n-grams it is given: two
    tuples of one length, of words without underscore, that have the same
    joined form are the same tuple. Both conditions are needed: with an
    underscore in a word, or with tuples of two lengths, different tuples
    get one joined form. *)
Theorem ngram_to_string_injective (g1 g2 : list string) :
  length g1 = length g2 →
  Forall (λ w, PyStr.contains "_" w = false) g1 →
  Forall (λ w, PyStr.contains "_" w = false) g2 →
  ngram_to_string g1 = ngram_to_string g2 →
  g1 = g2
  ∧ ngram_to_string ["a_b"; "c"] = ngram_to_string ["a"; "b_c"]
  ∧ ngram_to_string ["a"; "b"] = ngram_to_string ["a_b"].
Proof.
  intros Hlen H1 H2 E. split; [by apply join_underscore_inj | done].
Qed.

Lemma ngram_to_string_injective_witness :
  ["issue"; "fixed"] = ["issue"; "fixed"]
  ∧ ngram_to_string ["a_b"; "c"] = ngram_to_string ["a"; "b_c"].
Proof.
  destruct (ngram_to_string_injective ["issue"; "fixed"] ["issue"; "fixed"] eq_refl
              ltac:(by repeat constructor) ltac:(by repeat constructor) eq_refl)
    as (Hsame & Hclash & _).
  exact (conj Hsame Hclash).
Defined.

(** ** The export that succeeds *)

(** X13: when [os.makedirs] and [open] accept the calls and the device
    takes the whole text, [save_to_json] returns normally: the directory
    part of the output path is a directory, the output path is read as
    the whole document, whatever it held, and one confirmation is
    printed. The two calls are accepted only for an output path that has
    a directory part and does not end with a slash. *)
Theorem save_to_json_writes_document `{Capabilities}
    (f : PyOs.faults) (data : analysis) (output_file : string) (save_n : Z)
    (w w1 w2 : PyOs.world) :
  PyOs.makedirs f (PyOs.dirname output_file) w = (w1, Returned ()) →
  PyOs.open_w f output_file w1 = (w2, Returned ()) →
  (∀ n, PyOs.write_limit f = Some n →
        (String.length (json_text (limited_data data save_n)) ≤ n)%nat) →
  ∃ w', save_to_json f data output_file save_n w = (w', Returned ())
    ∧ PyOs.dirname output_file ∈ PyOs.dirs w'
    ∧ PyOs.files w' !! output_file = Some (json_text (limited_data data save_n))
    ∧ PyOs.stdout w'
      = PyOs.stdout w ++ ["JSON file saved successfully at " +:+ output_file]
    ∧ PyStr.contains "/" output_file = true
    ∧ PyOs.ends_with_slash output_file = false.
Proof.
  intros Hmk Hopen Hwrite.
  assert (∃ w3, PyOs.write_text f output_file (json_text (limited_data data save_n)) w2
                = (w3, Returned ())) as [w3 Hw3].
  { unfold PyOs.write_text. destruct (PyOs.write_limit f) as [n|] eqn:En; [|by eexists].
    rewrite decide_False by (specialize (Hwrite n eq_refl); lia). by eexists. }
  assert (save_to_json f data output_file save_n w
          = PyOs.print ("JSON file saved successfully at " +:+ output_file) w3) as Hrun.
  { by rewrite save_to_json_unfold, Hmk, Hopen, Hw3. }
  destruct (PyOs.print _ w3) as [w' r] eqn:Hprint.
  assert (r = Returned ()) as -> by (by injection Hprint as _ <-).
  exists w'. split; [done|].
  destruct (save_to_json_returned _ _ _ _ _ _ Hrun) as (Hf & Ho & Hne & Hd & Hp & Hp').
  split_and!; [done| |done| |].
  - by rewrite Hf, lookup_insert_eq.
  - destruct (PyStr.contains "/" output_file) eqn:E; [done|].
    by rewrite dirname_bare in Hne.
  - done.
Qed.

Lemma save_to_json_writes_document_witness :
  let w := PyOs.World ∅ {["out/summary.json" := "previous"]} [] in
  ∃ w', save_to_json (H := Ascii7.capabilities) PyOs.no_faults analysis_init
          "out/summary.json" 5 w
        = (w', Returned ())
        ∧ PyOs.stdout w' = ["JSON file saved successfully at out/summary.json"].
Proof.
  intros w.
  destruct (save_to_json_writes_document (H := Ascii7.capabilities) PyOs.no_faults
              analysis_init "out/summary.json" 5 w
              (PyOs.makedirs PyOs.no_faults "out" w).1
              (PyOs.open_w PyOs.no_faults "out/summary.json"
                 (PyOs.makedirs PyOs.no_faults "out" w).1).1
              ltac:(by vm_compute) ltac:(by vm_compute) ltac:(by intros n [=]))
    as (w' & Hrun & _ & _ & Hstdout & _).
  exists w'. split; [exact Hrun | exact Hstdout].
Defined.

(** ** The run as a function of the file *)

Section run_algebra.
Context `{Capabilities}.
Implicit Types (nlp : string → list string) (n : Z) (lines : list string).

(** The keywords of a category, none for a name that is no category. *)
Lemma count_issue_categories nlp n lines (c : string) :
  PyDict.count (issue_categories (analyze_lines nlp n lines)) c
  = Z.of_nat (length (filter
      (λ line, existsb (λ keyword, PyStr.contains keyword (line_text line))
                 (default [] (PyDict.lookup c issue_keywords)) = true) lines)).
Proof.
  unfold analyze_lines. destruct (PyDict.lookup c issue_keywords) as [kws|] eqn:E.
  - apply lookup_Some_elem_of in E; [|apply issue_keywords_NoDup].
    by rewrite (issue_count_fold _ _ _ _ _ _ E).
  - simpl. rewrite filter_none by (by intros line _ ?).
    apply count_absent. intros [Hc|Hc]%issue_keys_fold.
    + by apply elem_of_nil in Hc.
    + by apply lookup_None_keys in E.
Qed.

Lemma sentiment_time_series_run nlp n lines :
  sentiment_time_series (analyze_lines nlp n lines) = omap line_point lines.
Proof. unfold analyze_lines. by rewrite sentiment_time_series_fold. Qed.

End run_algebra.

(** X14: analysing a file made of two parts adds up the analyses of the
    parts: every count of the five frequency tables and of the issue
    tally for the whole file is the sum of the counts for the two parts,
    and the sentiment series of the whole file is the series of the first
    part followed by the series of the second. *)
Theorem analysis_of_two_parts `{Capabilities}
    (nlp : string → list string) (n : Z) (first second : list string) :
  let whole := analyze_lines nlp n (first ++ second) in
  let a := analyze_lines nlp n first in
  let b := analyze_lines nlp n second in
  (∀ w, PyDict.count (word_freq whole) w
        = PyDict.count (word_freq a) w + PyDict.count (word_freq b) w)
  ∧ (∀ g, PyDict.count (ngram_freq whole) g
        = PyDict.count (ngram_freq a) g + PyDict.count (ngram_freq b) g)
  ∧ (∀ e, PyDict.count (entity_freq whole) e
        = PyDict.count (entity_freq a) e + PyDict.count (entity_freq b) e)
  ∧ (∀ q, PyDict.count (question_freq whole) q
        = PyDict.count (question_freq a) q + PyDict.count (question_freq b) q)
  ∧ (∀ r, PyDict.count (resolutions whole) r
        = PyDict.count (resolutions a) r + PyDict.count (resolutions b) r)
  ∧ (∀ c, PyDict.count (issue_categories whole) c
        = PyDict.count (issue_categories a) c + PyDict.count (issue_categories b) c)
  ∧ sentiment_time_series whole = sentiment_time_series a ++ sentiment_time_series b.
Proof.
  intros whole a b. subst whole a b. split_and!.
  - intros w. rewrite !count_word_freq, sum_list_with_app. lia.
  - intros g. rewrite !count_ngram_freq, sum_list_with_app. lia.
  - intros e. rewrite !count_entity_freq, sum_list_with_app. lia.
  - intros q. rewrite !count_question_freq, filter_app, length_app. lia.
  - intros r. rewrite !count_resolutions, filter_app, length_app. lia.
  - intros c. rewrite !count_issue_categories, filter_app, length_app. lia.
  - rewrite !sentiment_time_series_run. apply omap_app.
Qed.

(** X15: the counts do not depend on the order of the lines. For two
    files with the same lines in any order, every count of the five
    frequency tables and of the issue tally is the same, and the
    sentiment series have the same entries, in the order of each file. *)
Theorem counts_ignore_line_order `{Capabilities}
    (nlp : string → list string) (n : Z) (lines lines' : list string) :
  lines ≡ₚ lines' →
  let a := analyze_lines nlp n lines in
  let b := analyze_lines nlp n lines' in
  (∀ w, PyDict.count (word_freq a) w = PyDict.count (word_freq b) w)
  ∧ (∀ g, PyDict.count (ngram_freq a) g = PyDict.count (ngram_freq b) g)
  ∧ (∀ e, PyDict.count (entity_freq a) e = PyDict.count (entity_freq b) e)
  ∧ (∀ q, PyDict.count (question_freq a) q = PyDict.count (question_freq b) q)
  ∧ (∀ r, PyDict.count (resolutions a) r = PyDict.count (resolutions b) r)
  ∧ (∀ c, PyDict.count (issue_categories a) c = PyDict.count (issue_categories b) c)
  ∧ sentiment_time_series a ≡ₚ sentiment_time_series b.
Proof.
  intros Hperm a b. subst a b. split_and!.
  - intros w. by rewrite !count_word_freq, Hperm.
  - intros g. by rewrite !count_ngram_freq, Hperm.
  - intros e. by rewrite !count_entity_freq, Hperm.
  - intros q. by rewrite !count_question_freq, Hperm.
  - intros r. by rewrite !count_resolutions, Hperm.
  - intros c. by rewrite !count_issue_categories, Hperm.
  - by rewrite !sentiment_time_series_run, Hperm.
Qed.

Lemma counts_ignore_line_order_witness :
  PyDict.count
    (word_freq (analyze_lines (H := Ascii7.capabilities) Ascii7.no_entities 2
                  ["help the billing"; "billing issue"])) "billing"
  = PyDict.count
      (word_freq (analyze_lines (H := Ascii7.capabilities) Ascii7.no_entities 2
                    ["billing issue"; "help the billing"])) "billing".
Proof.
  exact (proj1 (counts_ignore_line_order (H := Ascii7.capabilities) Ascii7.no_entities 2
                  ["help the billing"; "billing issue"] ["billing issue"; "help the billing"]
                  (Permutation_swap _ _ _)) "billing").
Defined.

(** ** Totals *)

Section total_facts.
Context {K : Type} `{EqDecision K}.
Implicit Types (k : K) (c : list (K * Z)) (elems : list K).

Lemma total_set c k (v : Z) :
  total (PyDict.set k v c) = total c + v - PyDict.count c k.
Proof.
  unfold PyDict.count. induction c as [|[k0 v0] c IH]; simpl.
  - unfold total. simpl. lia.
  - case_decide as Hk; unfold total in *; simpl in *; lia.
Qed.

(** [Counter.update] adds one to the total for every element met. *)
Lemma total_update c elems :
  total (PyDict.update c elems) = total c + Z.of_nat (length elems).
Proof.
  unfold PyDict.update. revert c. induction elems as [|x elems IH]; intros c.
  - simpl. lia.
  - cbn [fold_left length]. rewrite IH, total_set. lia.
Qed.

End total_facts.

Section fold_total_facts.
Context {S L K : Type} `{EqDecision K}.
Context (step : S → L → S) (table : S → list (K * Z)) (batch : L → list K).
Hypothesis table_step : ∀ st line, table (step st line) = PyDict.update (table st) (batch line).

Lemma fold_total (lines : list L) (st : S) :
  total (table (fold_left step lines st))
  = total (table st) + Z.of_nat (sum_list_with (λ line, length (batch line)) lines).
Proof.
  revert st. induction lines as [|line lines IH]; intros st; simpl.
  - lia.
  - rewrite IH, table_step, total_update. lia.
Qed.

End fold_total_facts.

(** X16: the counts of a table add up to what the run has met. The
    counts of the word table add up to the number of cleaned words of
    the file; those of the n-gram table to the number of windows, which
    is max(0, L - N + 1) for a line of L cleaned words when N >= 1 and
    none otherwise; those of the entity table to the number of entities
    recognised; those of the question and resolution tables to the number
    of lines with a question mark, or with a resolution phrase. *)
Theorem totals_of_a_run `{Capabilities}
    (nlp : string → list string) (n : Z) (lines : list string) :
  let st := analyze_lines nlp n lines in
  let words line := tokenize_and_clean (parse_line line).2 stopwords_english in
  total (word_freq st) = Z.of_nat (sum_list_with (λ line, length (words line)) lines)
  ∧ total (ngram_freq st)
    = Z.of_nat (sum_list_with
        (λ line, if decide (1 ≤ n)
                 then (S (length (words line)) - Z.to_nat n)%nat else 0%nat) lines)
  ∧ total (entity_freq st)
    = Z.of_nat (sum_list_with (λ line, length (nlp (parse_line line).2)) lines)
  ∧ total (question_freq st)
    = Z.of_nat (length (filter (λ line, PyStr.contains "?" (parse_line line).2 = true) lines))
  ∧ total (resolutions st)
    = Z.of_nat (length (filter
        (λ line, existsb (λ phrase, PyStr.contains phrase (parse_line line).2)
                   resolution_phrases = true) lines)).
Proof.
  intros st words. subst st words. unfold analyze_lines. split_and!.
  - by rewrite (fold_total _ word_freq _ (word_freq_step nlp n)).
  - rewrite (fold_total _ ngram_freq _ (ngram_freq_step nlp n)).
    change (total (ngram_freq analysis_init)) with 0. rewrite Z.add_0_l. f_equal.
    apply sum_list_with_ext. intros line. unfold line_ngrams, line_words, line_text.
    case_decide; [|done]. by rewrite length_fmap, length_seq.
  - by rewrite (fold_total _ entity_freq _ (entity_freq_step nlp n)).
  - rewrite (fold_total _ question_freq _ (question_freq_step nlp n)).
    change (total (question_freq analysis_init)) with 0. rewrite Z.add_0_l. f_equal.
    rewrite <-sum_list_with_indicator. apply sum_list_with_ext. intros line.
    unfold line_text. destruct (PyStr.contains "?" _).
    + by rewrite decide_True.
    + by rewrite decide_False.
  - rewrite (fold_total _ resolutions _ (resolutions_step nlp n)).
    change (total (resolutions analysis_init)) with 0. rewrite Z.add_0_l. f_equal.
    rewrite <-sum_list_with_indicator. apply sum_list_with_ext. intros line.
    unfold line_text. destruct (existsb _ resolution_phrases).
    + by rewrite decide_True.
    + by rewrite decide_False.
Qed.

(** ** The n-gram size *)

Section key_map_facts.
Context {K K' : Type} `{EqDecision K, EqDecision K'}.
Context (h : K → K').
Hypothesis h_inj : ∀ x y, h x = h y → x = y.
Implicit Types (k : K) (c : list (K * Z)).

Lemma lookup_fmap_key c k :
  PyDict.lookup (h k) ((λ kv, (h kv.1, kv.2)) <$> c) = PyDict.lookup k c.
Proof.
  induction c as [|[k0 v0] c IH]; simpl; [done|].
  destruct (decide (k = k0)) as [->|Hne].
  - by rewrite decide_True.
  - rewrite decide_False; [done|]. by intros ?%h_inj.
Qed.

Lemma count_fmap_key c k :
  PyDict.count ((λ kv, (h kv.1, kv.2)) <$> c) (h k) = PyDict.count c k.
Proof. unfold PyDict.count. by rewrite lookup_fmap_key. Qed.

Lemma set_fmap_key c k (v : Z) :
  PyDict.set (h k) v ((λ kv, (h kv.1, kv.2)) <$> c)
  = (λ kv, (h kv.1, kv.2)) <$> PyDict.set k v c.
Proof.
  induction c as [|[k0 v0] c IH]; simpl; [done|].
  destruct (decide (k = k0)) as [->|Hne].
  - by rewrite decide_True.
  - rewrite decide_False by (by intros ?%h_inj). simpl. f_equal. exact IH.
Qed.

(** Counting the images of the elements under an injective renaming of
    the keys gives the same table, renamed. *)
Lemma update_fmap_key c (elems : list K) :
  PyDict.update ((λ kv, (h kv.1, kv.2)) <$> c) (h <$> elems)
  = (λ kv, (h kv.1, kv.2)) <$> PyDict.update c elems.
Proof.
  unfold PyDict.update. revert c. induction elems as [|x elems IH]; intros c; [done|].
  rewrite fmap_cons. cbn [fold_left].
  rewrite count_fmap_key, set_fmap_key. apply IH.
Qed.

End key_map_facts.

Lemma windows_one {A} (ws : list A) : windows ws 1 = (λ w, [w]) <$> ws.
Proof.
  induction ws as [|x ws IH]; [done|].
  rewrite windows_cons by (simpl; lia). by rewrite IH.
Qed.

(** X17: with the n-gram size one, the n-gram table is the word table
    with every word wrapped in a tuple: the same keys in the same order
    with the same counts. *)
Theorem unigrams_mirror_words `{Capabilities}
    (nlp : string → list string) (lines : list string) :
  let st := analyze_lines nlp 1 lines in
  ngram_freq st = (λ kv, ([kv.1], kv.2)) <$> word_freq st
  ∧ (∀ w, PyDict.count (ngram_freq st) [w] = PyDict.count (word_freq st) w).
Proof.
  intros st. subst st. unfold analyze_lines.
  assert (∀ st0 : analysis,
            ngram_freq st0 = (λ kv, ([kv.1], kv.2)) <$> word_freq st0 →
            ngram_freq (fold_left (process_line nlp 1) lines st0)
            = (λ kv, ([kv.1], kv.2))
                <$> word_freq (fold_left (process_line nlp 1) lines st0)) as Hfold.
  { induction lines as [|line lines IH]; intros st0 Hst0; [done|].
    cbn [fold_left]. apply IH.
    rewrite ngram_freq_step, word_freq_step, Hst0.
    unfold line_ngrams. rewrite decide_True by lia.
    change ((λ i, take (Z.to_nat 1) (drop i (line_words line)))
              <$> seq 0 (S (length (line_words line)) - Z.to_nat 1))
      with (windows (line_words line) 1).
    rewrite windows_one. apply (update_fmap_key (λ w : string, [w])).
    by intros x y [= ->]. }
  assert (ngram_freq (fold_left (process_line nlp 1) lines analysis_init)
          = (λ kv, ([kv.1], kv.2))
              <$> word_freq (fold_left (process_line nlp 1) lines analysis_init)) as E.
  { by apply Hfold. }
  split; [done|]. intros w. rewrite E.
  apply (count_fmap_key (λ w : string, [w])). by intros x y [= ->].
Qed.

(** X18: the n-gram table of a run is empty exactly when the n-gram size
    is zero or negative, or no line has that many cleaned words: a line
    with fewer cleaned words than the n-gram size gives no n-gram. *)
Theorem no_ngram_without_enough_words `{Capabilities}
    (nlp : string → list string) (n : Z) (lines : list string) :
  ngram_freq (analyze_lines nlp n lines) = []
  ↔ n ≤ 0
    ∨ ∀ line, line ∈ lines →
        Z.of_nat (length (tokenize_and_clean (parse_line line).2 stopwords_english)) < n.
Proof.
  assert (ngram_freq (analyze_lines nlp n lines) = []
          ↔ ∀ g, g ∉ PyDict.keys (ngram_freq (analyze_lines nlp n lines))) as ->.
  { destruct (ngram_freq (analyze_lines nlp n lines)) as [|[g v] l].
    - split; [intros _ g; apply not_elem_of_nil | done].
    - split; [done|]. intros Hno. exfalso. apply (Hno g). left. }
  unfold analyze_lines.
  setoid_rewrite (fold_keys_iff _ ngram_freq _ (ngram_freq_step nlp n)).
  change (PyDict.keys (ngram_freq analysis_init)) with (@nil (list string)).
  setoid_rewrite line_ngrams_elem. unfold line_words, line_text. split.
  - intros Hno. destruct (decide (n ≤ 0)) as [|Hn]; [by left|]. right.
    intros line Hin.
    destruct (decide (Z.of_nat (length (tokenize_and_clean (parse_line line).2
                                          stopwords_english)) < n)) as [|Hlen]; [done|].
    exfalso.
    apply (Hno (take (Z.to_nat n)
                  (drop 0 (tokenize_and_clean (parse_line line).2 stopwords_english)))).
    right. exists line. split; [done|]. split; [lia|]. exists 0%nat. split; [lia|done].
  - intros Hcond g [Hg|(line & Hin & Hn & i & Hi & _)]; [by apply elem_of_nil in Hg|].
    destruct Hcond as [|Hshort]; [lia|]. specialize (Hshort line Hin). lia.
Qed.

(** ** The [Analyze] button *)

(** X19: the callback of the [Analyze] button gives its field "number of
    top results" to [analyze_text] as the n-gram size. When the file
    opens, what is shown and exported is the analysis with that n-gram
    size: every n-gram counted has exactly [top_n] words, and none is
    counted when [top_n] is zero or negative. The results are shown
    whatever becomes of the export, whose outcome is the outcome of the
    callback. *)
Theorem analyze_uses_top_n_as_ngram_size `{Capabilities}
    (str_repr : string → string) (open_file : string → outcome (list string))
    (nlp : string → list string) (f : PyOs.faults)
    (file_path output_file : string) (top_n save_n : Z) (s : screen)
    (lines : list string) :
  open_file file_path = Returned lines →
  let data := analyze_lines nlp top_n lines in
  let run := analyze str_repr open_file nlp f file_path output_file top_n save_n s in
  results_area run.1 = results_text str_repr data top_n
  ∧ (os_world run.1, run.2) = save_to_json f data output_file save_n (os_world s)
  ∧ (∀ g, g ∈ PyDict.keys (ngram_freq data) → Z.of_nat (length g) = top_n)
  ∧ (top_n ≤ 0 → ngram_freq data = []).
Proof.
  intros Hopen data run. subst data run.
  unfold analyze, analyze_text. rewrite Hopen. rewrite app_nil_r.
  destruct s as [area [dirs files out]]. cbn [os_world PyOs.dirs PyOs.files PyOs.stdout].
  destruct (save_to_json f _ output_file save_n _) as [w' r] eqn:E.
  split_and!; [done|done| |].
  - intros g Hg. unfold analyze_lines in Hg.
    apply (fold_keys_iff _ ngram_freq _ (ngram_freq_step nlp top_n)) in Hg
      as [Hg|(line & _ & (Hn & i & Hi & ->)%line_ngrams_elem)].
    + by apply elem_of_nil in Hg.
    + rewrite length_take, length_drop. lia.
  - intros Hn.
    destruct (ngram_freq (analyze_lines nlp top_n lines)) as [|[g v] l] eqn:Eg; [done|].
    assert (g ∈ PyDict.keys (ngram_freq (analyze_lines nlp top_n lines))) as Hg.
    { rewrite Eg. left. }
    unfold analyze_lines in Hg.
    apply (fold_keys_iff _ ngram_freq _ (ngram_freq_step nlp top_n)) in Hg
      as [Hg|(line & _ & (Hn' & _)%line_ngrams_elem)]; [by apply elem_of_nil in Hg | lia].
Qed.

Lemma analyze_uses_top_n_as_ngram_size_witness :
  let run := analyze (H := Ascii7.capabilities) id (λ _, Returned Ascii7.sample_file)
               Ascii7.no_entities PyOs.no_faults "support.log" "out/summary.json" 3 10
               (Screen EmptyString (PyOs.World ∅ ∅ [])) in
  PyOs.files (os_world run.1) !! "out/summary.json"
  = Some (json_text (H := Ascii7.capabilities)
            (limited_data (H := Ascii7.capabilities)
               (analyze_lines (H := Ascii7.capabilities) Ascii7.no_entities 3
                  Ascii7.sample_file) 10)).
Proof.
  intros run.
  pose proof (proj1 (proj2 (analyze_uses_top_n_as_ngram_size (H := Ascii7.capabilities) id
                  (λ _, Returned Ascii7.sample_file) Ascii7.no_entities PyOs.no_faults
                  "support.log" "out/summary.json" 3 10
                  (Screen EmptyString (PyOs.World ∅ ∅ [])) Ascii7.sample_file eq_refl)))
    as Hexport.
  apply (f_equal (λ p, PyOs.files p.1 !! "out/summary.json")) in Hexport.
  exact (eq_trans Hexport ltac:(by vm_compute)).
Defined.

(** X20: when the input file does not exist, the callback returns
    normally without exporting: the results area shows the fixed message,
    the error line is printed, and no directory or file is made or
    changed, whatever the output path. Any other error of [open] is
    raised by the callback, which leaves the results area as it was. *)
Theorem analyze_without_input_file `{Capabilities}
    (str_repr : string → string) (open_file : string → outcome (list string))
    (nlp : string → list string) (f : PyOs.faults)
    (file_path output_file : string) (top_n save_n : Z) (s : screen) (e : PyExc) :
  open_file file_path = Raised e →
  let run := analyze str_repr open_file nlp f file_path output_file top_n save_n s in
  PyOs.dirs (os_world run.1) = PyOs.dirs (os_world s)
  ∧ PyOs.files (os_world run.1) = PyOs.files (os_world s)
  ∧ (e = FileNotFoundError →
       run.2 = Returned ()
       ∧ results_area run.1
         = "Analysis was not completed due to an error or file not found."
       ∧ PyOs.stdout (os_world run.1)
         = PyOs.stdout (os_world s)
           ++ ["Error: The file at " +:+ file_path +:+ " was not found."])
  ∧ (e ≠ FileNotFoundError →
       run.2 = Raised e
       ∧ results_area run.1 = results_area s
       ∧ PyOs.stdout (os_world run.1) = PyOs.stdout (os_world s)).
Proof.
  intros Hopen run. subst run. unfold analyze, analyze_text. rewrite Hopen.
  destruct e; cbn; rewrite ?app_nil_r; split_and!; try done; by intros [].
Qed.

Lemma analyze_without_input_file_witness :
  let run := analyze (H := Ascii7.capabilities) id (λ _, Raised FileNotFoundError)
               Ascii7.no_entities PyOs.no_faults "missing.log" "out/summary.json" 10 10
               (Screen "old results" (PyOs.World ∅ ∅ [])) in
  PyOs.files (os_world run.1) = ∅.
Proof.
  exact (proj1 (proj2 (analyze_without_input_file (H := Ascii7.capabilities) id
                  (λ _, Raised FileNotFoundError) Ascii7.no_entities PyOs.no_faults
                  "missing.log" "out/summary.json" 10 10
                  (Screen "old results" (PyOs.World ∅ ∅ [])) FileNotFoundError eq_refl))).
Defined.

(** X21: with an output path that has no directory part, the empty path
    the field starts with included, the callback shows the results of a
    file that opens and then raises [FileNotFoundError]: nothing is
    exported, no directory or file is made or changed, and no
    confirmation is printed. *)
Theorem analyze_with_bare_output_path `{Capabilities}
    (str_repr : string → string) (open_file : string → outcome (list string))
    (nlp : string → list string) (f : PyOs.faults)
    (file_path output_file : string) (top_n save_n : Z) (s : screen)
    (lines : list string) :
  open_file file_path = Returned lines →
  PyStr.contains "/" output_file = false →
  let run := analyze str_repr open_file nlp f file_path output_file top_n save_n s in
  run.2 = Raised FileNotFoundError
  ∧ results_area run.1 = results_text str_repr (analyze_lines nlp top_n lines) top_n
  ∧ os_world run.1 = os_world s.
Proof.
  intros Hopen Hbare run. subst run. unfold analyze, analyze_text. rewrite Hopen.
  rewrite app_nil_r. rewrite save_to_json_unfold, dirname_bare by done.
  destruct s as [area [dirs files out]]. done.
Qed.

Lemma analyze_with_bare_output_path_witness :
  (analyze (H := Ascii7.capabilities) id (λ _, Returned Ascii7.sample_file)
     Ascii7.no_entities PyOs.no_faults "support.log" EmptyString 10 10
     (Screen EmptyString (PyOs.World ∅ ∅ []))).2
  = Raised FileNotFoundError.
Proof.
  exact (proj1 (analyze_with_bare_output_path (H := Ascii7.capabilities) id
                  (λ _, Returned Ascii7.sample_file) Ascii7.no_entities PyOs.no_faults
                  "support.log" EmptyString 10 10
                  (Screen EmptyString (PyOs.World ∅ ∅ [])) Ascii7.sample_file
                  eq_refl eq_refl)).
Defined.

(** ** The selection of [save_to_json] for any table *)

(** X22: for any table that holds each key once, and any K, the entries
    [save_to_json] exports are the K entries of highest count, in
    descending order of count, ties in the order of the table, and no
    other list has these properties: the selection is determined by the
    table and K alone. *)
Theorem export_selection_is_determined (table : Counter string) (save_n : Z) :
  NoDup (PyDict.keys table) →
  let exported := PyDict.of_items (PyDict.most_common table save_n) in
  top_k_of table (Z.to_nat save_n) exported
  ∧ (∀ selected, top_k_of table (Z.to_nat save_n) selected → selected = exported)
  ∧ NoDup (PyDict.keys exported)
  ∧ (∀ k v, (k, v) ∈ exported → (k, v) ∈ table).
Proof.
  intros Hnd exported. subst exported. rewrite of_items_most_common by done.
  split_and!.
  - apply most_common_top_k.
  - intros selected Hsel. eapply top_k_of_unique; [exact Hsel | apply most_common_top_k].
  - by apply most_common_NoDup_keys.
  - intros k v Hin. by eapply most_common_elem_of.
Qed.

Lemma export_selection_is_determined_witness :
  top_k_of [("a", 1); ("b", 3); ("c", 1); ("d", 3); ("e", 2)] 4
    [("b", 3); ("d", 3); ("e", 2); ("a", 1)].
Proof.
  refine (proj1 (export_selection_is_determined
                   [("a", 1); ("b", 3); ("c", 1); ("d", 3); ("e", 2)] 4 _)).
  apply (bool_decide_unpack _). by vm_compute.
Defined.
